(** * Kelemetry: a shallow embedding of the correlation pipeline

    The development follows the Go packages of the repository.  Part I
    embeds the code: Go's machine integers, strings and [time.Time], the
    gin request context, then one module per package
    ([diffapi], [decorator], [tfstep], [auditconsumer], [diffcontroller],
    [jaegerhttp], [eventinformer], [mqlocal], [annotationlinker]).  Part II
    states and proves the properties of the specification against these
    definitions; Part III proves further properties of the code.

    Conventions.  A Go [intN]/[uintN] is a [Z] with its wrap-around
    written out.  A [[]byte] is a [list byte]; a Go [string] is a
    [string]; a nil-able pointer or slice is an [option].  A
    [map[string]T] is a [gmap string T].  Collaborators that live
    outside the modelled package (caches, stores, filters, clocks) are
    records of functions, as the Go structs hold them as interface
    fields; the calls a handler makes on them are returned as a trace. *)

From Stdlib Require Import ZArith String Ascii List Lia Bool.
From Stdlib.Strings Require Import Byte.
From stdpp Require Import base option list gmap strings.

#[local] Set Warnings "-register-all".
#[local] Open Scope string_scope.
#[local] Open Scope Z_scope.

(* ===================================================================== *)
(** * Part I.  The embedding                                              *)
(* ===================================================================== *)

(** ** Go machine integers *)

Module goint.

(** [uintN(z)]: reduction modulo [2^w]. *)
Definition wrap_unsigned (w : Z) (z : Z) : Z := z mod 2 ^ w.

(** [intN(z)]: two's complement reduction into [-2^(w-1), 2^(w-1)). *)
Definition wrap_signed (w : Z) (z : Z) : Z :=
  (z + 2 ^ (w - 1)) mod 2 ^ w - 2 ^ (w - 1).

Definition uint32 := wrap_unsigned 32.
Definition uint64 := wrap_unsigned 64.
Definition int32 := wrap_signed 32.
Definition int64 := wrap_signed 64.

Definition minInt64 : Z := - 2 ^ 63.
Definition maxInt64 : Z := 2 ^ 63 - 1.

(** Saturation, as [time.Time.Sub] does on overflow. *)
Definition saturate_int64 (z : Z) : Z :=
  if z <? minInt64 then minInt64
  else if maxInt64 <? z then maxInt64 else z.

End goint.

(** ** Go strings: the few library functions the handlers call *)

Module gostrings.

Definition digit_val (c : ascii) : option Z :=
  let n := Z.of_nat (nat_of_ascii c) in
  if (48 <=? n) && (n <=? 57) then Some (n - 48) else None.

Definition digit_char (n : Z) : ascii := ascii_of_nat (Z.to_nat (48 + n)).

(** Decimal value of a run of digits; [None] on a non-digit. *)
Fixpoint digits_val (acc : Z) (cs : list ascii) : option Z :=
  match cs with
  | [] => Some acc
  | c :: cs' =>
      match digit_val c with
      | Some d => digits_val (10 * acc + d) cs'
      | None => None
      end
  end.

(** [strconv.Atoi]: an optional sign, at least one decimal digit and
    nothing else; a value outside [int] (64 bit) is an error. *)
Definition Atoi (s : string) : option Z :=
  let body (neg : bool) (cs : list ascii) :=
    match cs with
    | [] => None
    | _ =>
        match digits_val 0 cs with
        | Some v =>
            let n := if neg then - v else v in
            if (goint.minInt64 <=? n) && (n <=? goint.maxInt64)
            then Some n else None
        | None => None
        end
    end in
  match list_ascii_of_string s with
  | [] => None
  | c :: cs =>
      if Ascii.eqb c "-" then body true cs
      else if Ascii.eqb c "+" then body false cs
      else body false (c :: cs)
  end.

(** [strings.HasPrefix s prefix]. *)
Definition HasPrefix (s prefix : string) : bool := String.prefix prefix s.

(** ASCII lower-casing; bytes outside [A-Z] are kept. *)
Definition lower_ascii (c : ascii) : ascii :=
  let n := nat_of_ascii c in
  if (Nat.leb 65 n && Nat.leb n 90)%bool then ascii_of_nat (n + 32) else c.

Fixpoint ToLower (s : string) : string :=
  match s with
  | EmptyString => EmptyString
  | String c s' => String (lower_ascii c) (ToLower s')
  end.

(** [strings.EqualFold] on ASCII text: equality up to letter case. *)
Definition EqualFold (a b : string) : bool := String.eqb (ToLower a) (ToLower b).

(** Zero-padded decimal of a non-negative number, at least [width]
    digits ([fuel] bounds the number of digits produced). *)
Fixpoint pad_digits (fuel : nat) (width : nat) (n : Z) (acc : string) : string :=
  match fuel with
  | O => acc
  | S fuel' =>
      let acc' := String (digit_char (n mod 10)) acc in
      let n' := n / 10 in
      match width with
      | S (S w) => pad_digits fuel' (S w) n' acc'
      | _ => if n' =? 0 then acc' else pad_digits fuel' 1 n' acc'
      end
  end.

(** [%d] of a non-negative number. *)
Definition Itoa (n : Z) : string := pad_digits 20 1 n "".

Definition pad2 (n : Z) : string := pad_digits 20 2 n "".
Definition pad4 (n : Z) : string := pad_digits 20 4 n "".

Definition hex_char (n : Z) : ascii :=
  if n <? 10 then digit_char n else ascii_of_nat (Z.to_nat (87 + n)).

(** [fmt.Sprintf("%016x", n)] for an unsigned 64-bit [n]. *)
Fixpoint hex_digits (k : nat) (n : Z) (acc : string) : string :=
  match k with
  | O => acc
  | S k' => hex_digits k' (n / 16) (String (hex_char (n mod 16)) acc)
  end.

Definition hex16 (n : Z) : string := hex_digits 16 n "".

End gostrings.

(** ** Go's [time] package

    A [Time] is an instant: nanoseconds since the Unix epoch.  Wall-clock
    fields are rendered in UTC. *)

Module time.

Definition Time := Z.
Definition Duration := Z.

Definition Second : Duration := 1000000000.
Definition Minute : Duration := 60 * Second.
Definition Hour : Duration := 60 * Minute.

(** The zero [Time]: January 1, year 1, 00:00:00 UTC. *)
Definition zeroTime : Time := -62135596800 * Second.

Definition IsZero (t : Time) : bool := t =? zeroTime.
Definition Before (t u : Time) : bool := t <? u.
Definition Add (t : Time) (d : Duration) : Time := t + d.
Definition Sub (t u : Time) : Duration := goint.saturate_int64 (t - u).

(** [t.Truncate(d)]: round down to a multiple of [d] since the zero time. *)
Definition Truncate (t : Time) (d : Duration) : Time :=
  if d <=? 0 then t else t - (t - zeroTime) mod d.

(** [t.UnixNano()], an [int64]. *)
Definition UnixNano (t : Time) : Z := goint.int64 t.

Definition Microseconds (d : Duration) : Z := Z.quot d 1000.

(** Seconds since the epoch (floor), second of the day, day number. *)
Definition unixSec (t : Time) : Z := t / Second.
Definition secOfDay (t : Time) : Z := unixSec t mod 86400.
Definition unixDay (t : Time) : Z := unixSec t / 86400.

(** Proleptic Gregorian calendar: day number to (year, month, day). *)
Definition civil_from_days (z0 : Z) : Z * Z * Z :=
  let z := z0 + 719468 in
  let era := z / 146097 in
  let doe := z - era * 146097 in
  let yoe := (doe - doe / 1460 + doe / 36524 - doe / 146096) / 365 in
  let y := yoe + era * 400 in
  let doy := doe - (365 * yoe + yoe / 4 - yoe / 100) in
  let mp := (5 * doy + 2) / 153 in
  let d := doy - (153 * mp + 2) / 5 + 1 in
  let m := if mp <? 10 then mp + 3 else mp - 9 in
  (if m <=? 2 then y + 1 else y, m, d).

Definition days_from_civil (y0 m d : Z) : Z :=
  let y := if m <=? 2 then y0 - 1 else y0 in
  let era := y / 400 in
  let yoe := y - era * 400 in
  let doy := (153 * (if 2 <? m then m - 3 else m + 9) + 2) / 5 + d - 1 in
  let doe := yoe * 365 + yoe / 4 - yoe / 100 + doy in
  era * 146097 + doe - 719468.

Definition isLeap (y : Z) : bool :=
  (y mod 4 =? 0) && (negb (y mod 100 =? 0) || (y mod 400 =? 0)).

Definition daysIn (m y : Z) : Z :=
  if m =? 2 then (if isLeap y then 29 else 28)
  else if (m =? 4) || (m =? 6) || (m =? 9) || (m =? 11) then 30 else 31.

(** [t.Format("15:04")]. *)
Definition Format_1504 (t : Time) : string :=
  gostrings.pad2 (secOfDay t / 3600) +:+ ":" +:+ gostrings.pad2 (secOfDay t mod 3600 / 60).

(** [t.Format(time.RFC3339)]: whole seconds only, the fraction of a
    second is dropped. *)
Definition Format_RFC3339 (t : Time) : string :=
  let '(y, m, d) := civil_from_days (unixDay t) in
  let sod := secOfDay t in
  (if y <? 0 then "-" +:+ gostrings.pad4 (- y) else gostrings.pad4 y)
    +:+ "-" +:+ gostrings.pad2 m +:+ "-" +:+ gostrings.pad2 d
    +:+ "T" +:+ gostrings.pad2 (sod / 3600)
    +:+ ":" +:+ gostrings.pad2 (sod mod 3600 / 60)
    +:+ ":" +:+ gostrings.pad2 (sod mod 60) +:+ "Z".

(** Exactly [n] leading decimal digits. *)
Fixpoint take_digits (n : nat) (acc : Z) (cs : list ascii) : option (Z * list ascii) :=
  match n with
  | O => Some (acc, cs)
  | S n' =>
      match cs with
      | c :: cs' =>
          match gostrings.digit_val c with
          | Some d => take_digits n' (10 * acc + d) cs'
          | None => None
          end
      | [] => None
      end
  end.

Definition expect (c : ascii) (cs : list ascii) : option (list ascii) :=
  match cs with
  | c' :: cs' => if Ascii.eqb c c' then Some cs' else None
  | [] => None
  end.

(** Fraction of a second: the digits after the point, as nanoseconds
    (digits past the ninth are read and dropped). *)
Fixpoint take_fraction (scale : Z) (acc : Z) (cs : list ascii) : Z * list ascii :=
  match cs with
  | c :: cs' =>
      match gostrings.digit_val c with
      | Some d => take_fraction (scale / 10) (acc + d * (scale / 10)) cs'
      | None => (acc, cs)
      end
  | [] => (acc, cs)
  end.

Definition parse_fraction (cs : list ascii) : option (Z * list ascii) :=
  match cs with
  | "."%char :: c :: cs' =>
      match gostrings.digit_val c with
      | Some _ => Some (take_fraction Second 0 (c :: cs'))
      | None => None
      end
  | _ => Some (0, cs)
  end.

(** Zone: [Z] or a signed [hh:mm]; the result is the offset in seconds. *)
Definition parse_zone (cs : list ascii) : option Z :=
  match cs with
  | ["Z"%char] => Some 0
  | sign :: cs1 =>
      if Ascii.eqb sign "+" || Ascii.eqb sign "-" then
        '(hh, cs2) ← take_digits 2 0 cs1;
        cs3 ← expect ":" cs2;
        '(mm, cs4) ← take_digits 2 0 cs3;
        match cs4 with
        | [] =>
            if (hh <? 24) && (mm <? 60)
            then Some ((if Ascii.eqb sign "-" then -1 else 1) * (hh * 3600 + mm * 60))
            else None
        | _ => None
        end
      else None
  | [] => None
  end.

(** [time.Parse(time.RFC3339, s)]: the date-time of RFC 3339,
    [YYYY-MM-DDTHH:MM:SS[.frac](Z|+hh:mm|-hh:mm)], with calendar and
    clock fields in range.  [None] is the parse error. *)
Definition Parse_RFC3339 (s : string) : option Time :=
  '(y, cs) ← take_digits 4 0 (list_ascii_of_string s);
  cs ← expect "-" cs;
  '(m, cs) ← take_digits 2 0 cs;
  cs ← expect "-" cs;
  '(d, cs) ← take_digits 2 0 cs;
  cs ← expect "T" cs;
  '(hh, cs) ← take_digits 2 0 cs;
  cs ← expect ":" cs;
  '(mi, cs) ← take_digits 2 0 cs;
  cs ← expect ":" cs;
  '(ss, cs) ← take_digits 2 0 cs;
  '(ns, cs) ← parse_fraction cs;
  off ← parse_zone cs;
  if (1 <=? m) && (m <=? 12) && (1 <=? d) && (d <=? daysIn m y)
     && (hh <? 24) && (mi <? 60) && (ss <? 60)
  then Some ((days_from_civil y m d * 86400 + hh * 3600 + mi * 60 + ss - off) * Second + ns)
  else None.

End time.

(** ** Errors and results

    A Go [(T, error)] pair is a [result T]; the message of an error is
    kept as a string and, where the code attaches one, its metric label. *)

Inductive result (A : Type) : Type :=
| Ok (a : A)
| Err (msg : string).
Arguments Ok {A} a.
Arguments Err {A} msg.

(** [[]byte(s)] for test data. *)
Definition bytes_of (s : string) : list byte := list_byte_of_string s.

(** ** [k8s.io/apimachinery]: unstructured objects and their accessors *)

Module unstructured.

(** A decoded JSON value ([any] holding the result of [json.Unmarshal]).
    A number keeps its literal. *)
Inductive json : Type :=
| JNull
| JBool (b : bool)
| JNum (lit : string)
| JStr (s : string)
| JArr (l : list json)
| JObj (m : gmap string json).

(** [unstructured.Unstructured{Object: map[string]any}]. *)
Record Unstructured : Type := { Object : gmap string json }.

(** [NestedFieldNoCopy]; [None] is "not found" or "not a map on the way",
    which every accessor below treats alike. *)
Fixpoint NestedFieldNoCopy (val : json) (fields : list string) : option json :=
  match fields with
  | [] => Some val
  | f :: fs =>
      match val with
      | JObj m =>
          match m !! f with
          | Some v => NestedFieldNoCopy v fs
          | None => None
          end
      | _ => None
      end
  end.

Definition NestedString (obj : gmap string json) (fields : list string) : option string :=
  match NestedFieldNoCopy (JObj obj) fields with
  | Some (JStr s) => Some s
  | _ => None
  end.

Definition getNestedString (obj : gmap string json) (fields : list string) : string :=
  default "" (NestedString obj fields).

Definition as_string (v : json) : option string :=
  match v with JStr s => Some s | _ => None end.

(** [NestedStringMap]: the field must be a map all of whose values are
    strings. *)
Definition NestedStringMap (obj : gmap string json) (fields : list string)
  : option (gmap string string) :=
  match NestedFieldNoCopy (JObj obj) fields with
  | Some (JObj m) =>
      if forallb (fun kv => bool_decide (is_Some (as_string kv.2))) (map_to_list m)
      then Some (omap as_string m) else None
  | _ => None
  end.

Definition GetResourceVersion (u : Unstructured) : string :=
  getNestedString (Object u) ["metadata"; "resourceVersion"].
Definition GetNamespace (u : Unstructured) : string :=
  getNestedString (Object u) ["metadata"; "namespace"].
Definition GetName (u : Unstructured) : string :=
  getNestedString (Object u) ["metadata"; "name"].
Definition GetUID (u : Unstructured) : string :=
  getNestedString (Object u) ["metadata"; "uid"].

(** [GetLabels]: the error of [NestedStringMap] is dropped and the nil
    map reads as the empty one. *)
Definition GetLabels (u : Unstructured) : gmap string string :=
  default ∅ (NestedStringMap (Object u) ["metadata"; "labels"]).

(** [GetDeletionTimestamp]: nil unless the field parses to a non-zero
    time. *)
Definition GetDeletionTimestamp (u : Unstructured) : option time.Time :=
  let s := getNestedString (Object u) ["metadata"; "deletionTimestamp"] in
  if String.eqb s "" || String.eqb s "null" then None
  else match time.Parse_RFC3339 s with
       | Some t => if time.IsZero t then None else Some t
       | None => None
       end.

(** [IsZero] on a [metav1.Time] pointer: nil is zero. *)
Definition IsZero (t : option time.Time) : bool :=
  match t with None => true | Some t => time.IsZero t end.

(** [GetAnnotations]: as [GetLabels], on [metadata.annotations]. *)
Definition GetAnnotations (u : Unstructured) : gmap string string :=
  default ∅ (NestedStringMap (Object u) ["metadata"; "annotations"]).

End unstructured.

(** ** [pkg/util]: object identity *)

Module util.

Record GroupVersionResource : Type :=
  { Group : string; Version : string; Resource : string }.

Record GroupVersionKind : Type :=
  { KGroup : string; KVersion : string; Kind : string }.

Record ObjectRef : Type :=
  { Cluster : string;
    Gvr : GroupVersionResource;
    Namespace : string;
    Name : string;
    Uid : string;
    Raw : option unstructured.Unstructured }.

(** Modelled from the spec: [util.ObjectRefFromUnstructured] is not
    among the sources.  The identity tuple "(cluster, group, version,
    resource, namespace, name, uid)" is read off the object, and the
    object is attached as "the last known object state". *)
Definition ObjectRefFromUnstructured
    (uns : unstructured.Unstructured) (cluster : string) (gvr : GroupVersionResource)
  : ObjectRef :=
  {| Cluster := cluster; Gvr := gvr;
     Namespace := unstructured.GetNamespace uns;
     Name := unstructured.GetName uns;
     Uid := unstructured.GetUID uns;
     Raw := Some uns |}.

(** [schema.GroupVersionResource] is a map key in the diff controller. *)
#[global] Instance GroupVersionResource_eq_dec : EqDecision GroupVersionResource.
Proof. solve_decision. Defined.

#[global] Instance GroupVersionResource_countable : Countable GroupVersionResource.
Proof.
  refine (inj_countable'
            (fun g => (Group g, Version g, Resource g))
            (fun t => {| Group := t.1.1; Version := t.1.2; Resource := t.2 |}) _).
  intros []; reflexivity.
Defined.

End util.

(** ** [pkg/diff/cache]: what the diff cache stores *)

Module diffcache.

Record Diff : Type :=
  { JsonPath : string; Old : unstructured.json; New : unstructured.json }.

Record Patch : Type :=
  { InformerTime : time.Time;
    OldResourceVersion : string;
    NewResourceVersion : string;
    Redacted : bool;
    DiffList : list Diff }.

Record Snapshot : Type :=
  { ResourceVersion : string;
    SnapRedacted : bool;
    Value : option (list byte) }.

Definition SnapshotNameCreation : string := "creation".
Definition SnapshotNameDeletion : string := "deletion".

(** Modelled from the spec: the table [VerbToSnapshotName] is not among
    the sources; "for create/delete: poll FetchSnapshot with the
    matching snapshot name", the names being "creation" and
    "deletion". *)
Definition VerbToSnapshotName (verb : string) : option string :=
  if String.eqb verb "create" then Some SnapshotNameCreation
  else if String.eqb verb "delete" then Some SnapshotNameDeletion
  else None.

End diffcache.

(** ** [pkg/util/zconstants] and [pkg/aggregator/event] *)

Module zconstants.

(** The log types the sources name; their string values are not among
    the sources and no property depends on them. *)
Inductive LogType : Type :=
| LogTypeRealError
| LogTypeRealVerbose
| LogTypeKelemetryError
| LogTypeObjectDiff
| LogTypeObjectSnapshot
| LogTypeEventMessage.

(** The two tag-key constants the transform steps read. *)
Record TagKeys : Type := { Prefix : string; SpanName : string }.

End zconstants.

Module event.

Inductive TagValue : Type :=
| TagString (s : string)
| TagInt (n : Z)
| TagDuration (d : time.Duration).

(** Modelled from the spec: the event type is not among the sources.
    "Event. (field, title, startTime, endTime, tags:map<string,any>,
    logs:seq<(logType,value)>)"; [NewEvent] also records the source of
    the trace, and [WithEndTime], [WithTag] and [Log] set the end time,
    one tag, and append one log. *)
Record Event : Type :=
  { Field : string;
    Title : string;
    Time : time.Time;
    EndTime : option time.Time;
    TraceSource : string;
    Tags : gmap string TagValue;
    Logs : list (zconstants.LogType * string) }.

Definition NewEvent (field title : string) (t : time.Time) (traceSource : string) : Event :=
  {| Field := field; Title := title; Time := t; EndTime := None;
     TraceSource := traceSource; Tags := ∅; Logs := [] |}.

Definition WithEndTime (t : time.Time) (e : Event) : Event :=
  {| Field := Field e; Title := Title e; Time := Time e; EndTime := Some t;
     TraceSource := TraceSource e; Tags := Tags e; Logs := Logs e |}.

Definition WithTag (key : string) (v : TagValue) (e : Event) : Event :=
  {| Field := Field e; Title := Title e; Time := Time e; EndTime := EndTime e;
     TraceSource := TraceSource e; Tags := <[key := v]> (Tags e); Logs := Logs e |}.

Definition Log (ty : zconstants.LogType) (value : string) (e : Event) : Event :=
  {| Field := Field e; Title := Title e; Time := Time e; EndTime := EndTime e;
     TraceSource := TraceSource e; Tags := Tags e; Logs := Logs e ++ [(ty, value)] |}.

End event.

(** ** [pkg/audit]: the audit message *)

Module audit.

Definition VerbCreate : string := "create".
Definition VerbUpdate : string := "update".
Definition VerbDelete : string := "delete".
Definition VerbPatch : string := "patch".

Definition StageResponseComplete : string := "ResponseComplete".

Record ObjectReference : Type :=
  { Resource : string;
    Namespace : string;
    Name : string;
    UID : string;
    APIGroup : string;
    APIVersion : string;
    ResourceVersion : string;
    Subresource : string }.

Record StatusCause : Type := { CauseType : string; CauseMessage : string }.

Record StatusDetails : Type := { Causes : list StatusCause }.

(** [metav1.Status]; [Code] is an [int32]. *)
Record Status : Type :=
  { Code : Z;
    Reason : string;
    StatusMessage : string;
    Details : option StatusDetails }.

(** [runtime.Unknown]: [Raw] may be nil. *)
Record Unknown : Type := { RawJSON : option (list byte) }.

Record UserInfo : Type := { Username : string }.

(** [metav1.PartialObjectMetadata], the fields the consumers read. *)
Record PartialObjectMetadata : Type :=
  { PAPIVersion : string;
    PKind : string;
    PNamespace : string;
    PName : string;
    PUID : string;
    PResourceVersion : string }.

Record Message : Type :=
  { AuditID : string;
    Stage : string;
    Verb : string;
    User : UserInfo;
    ImpersonatedUser : option UserInfo;
    UserAgent : string;
    ObjectRef : option ObjectReference;
    ResponseStatus : option Status;
    ResponseObject : option Unknown;
    RequestReceivedTimestamp : time.Time;
    StageTimestamp : time.Time;
    Cluster : string;
    SourceAddr : string }.

Definition with_ObjectRef (r : option ObjectReference) (m : Message) : Message :=
  {| AuditID := AuditID m; Stage := Stage m; Verb := Verb m; User := User m;
     ImpersonatedUser := ImpersonatedUser m; UserAgent := UserAgent m;
     ObjectRef := r; ResponseStatus := ResponseStatus m;
     ResponseObject := ResponseObject m;
     RequestReceivedTimestamp := RequestReceivedTimestamp m;
     StageTimestamp := StageTimestamp m; Cluster := Cluster m;
     SourceAddr := SourceAddr m |}.

End audit.

(** ** [gin]: the request context *)

Module gin.

(** Path parameters and decoded query pairs, in request order. *)
Record Context : Type :=
  { Params : list (string * string);
    QueryValues : list (string * string) }.

Fixpoint first_value (key : string) (l : list (string * string)) : option string :=
  match l with
  | [] => None
  | (k, v) :: l' => if String.eqb k key then Some v else first_value key l'
  end.

(** [ctx.Param(key)]: the value of the path parameter, or [""]. *)
Definition Param (ctx : Context) (key : string) : string :=
  default "" (first_value key (Params ctx)).

(** [ctx.Query(key)]: the first value of the query key, or [""]. *)
Definition Query (ctx : Context) (key : string) : string :=
  default "" (first_value key (QueryValues ctx)).

End gin.

(** ** The diff API ([package api], "diff-api") *)

Module diffapi.

Record api : Type :=
  { objectCache_Get : util.ObjectRef -> result (option unstructured.Unstructured);
    clusterName : string;
    UseOldResourceVersion : bool;
    diffCache_Fetch :
      util.ObjectRef -> string -> option string -> result (option diffcache.Patch);
    diffCache_List : util.ObjectRef -> Z -> result (list diffcache.Patch) }.

(** The calls a handler makes on its caches, in order. *)
Inductive Call : Type :=
| ObjectCacheGet (object : util.ObjectRef)
| DiffCacheFetch (object : util.ObjectRef) (oldRv : string) (newRv : option string)
| DiffCacheList (object : util.ObjectRef) (limit : Z).

Inductive Response : Type :=
| JSONPatch (code : Z) (patch : diffcache.Patch)
| JSONList (code : Z) (list : list diffcache.Patch)
| AbortWithError (code : Z) (msg : string).

Record Outcome : Type :=
  { calls : list Call;
    response : option Response;
    returned : option string }.

Definition requestGvr (ctx : gin.Context) : util.GroupVersionResource :=
  {| util.Group := gin.Param ctx "group";
     util.Version := gin.Param ctx "version";
     util.Resource := gin.Param ctx "resource" |}.

Definition requestObject (ctx : gin.Context) : util.ObjectRef :=
  {| util.Cluster := ""; util.Gvr := requestGvr ctx;
     util.Namespace := gin.Param ctx "namespace";
     util.Name := gin.Param ctx "name";
     util.Uid := ""; util.Raw := None |}.

Definition handleGet (a : api) (ctx : gin.Context) : Outcome :=
  let rv := gin.Param ctx "rv" in
  let get := ObjectCacheGet (requestObject ctx) in
  match objectCache_Get a (requestObject ctx) with
  | Err e => {| calls := [get]; response := None; returned := Some e |}
  | Ok None =>
      {| calls := [get];
         response := Some (AbortWithError 404 "object does not exist");
         returned := Some "object does not exist" |}
  | Ok (Some raw) =>
      let object := util.ObjectRefFromUnstructured raw (clusterName a) (requestGvr ctx) in
      let oldRv := if UseOldResourceVersion a then rv else "" in
      let newRv := if UseOldResourceVersion a then None else Some rv in
      let fetch := DiffCacheFetch object oldRv newRv in
      match diffCache_Fetch a object oldRv newRv with
      | Ok (Some patch) =>
          {| calls := [get; fetch]; response := Some (JSONPatch 200 patch);
             returned := None |}
      | Ok None =>
          {| calls := [get; fetch];
             response := Some (AbortWithError 404 "patch not found for rv: %!w(<nil>)");
             returned := Some "patch not found for rv: %!w(<nil>)" |}
      | Err e =>
          {| calls := [get; fetch];
             response := Some (AbortWithError 404 ("patch not found for rv: " +:+ e));
             returned := Some ("patch not found for rv: " +:+ e) |}
      end
  end.

Definition handleScan (a : api) (ctx : gin.Context) : Outcome :=
  let limitString := gin.Query ctx "100" in
  let limit :=
    match gostrings.Atoi limitString with
    | Some parsedLimit => parsedLimit
    | None => 100
    end in
  let get := ObjectCacheGet (requestObject ctx) in
  match objectCache_Get a (requestObject ctx) with
  | Err e => {| calls := [get]; response := None; returned := Some e |}
  | Ok None =>
      {| calls := [get];
         response := Some (AbortWithError 404 "object does not exist");
         returned := Some "object does not exist" |}
  | Ok (Some raw) =>
      let object := util.ObjectRefFromUnstructured raw (clusterName a) (requestGvr ctx) in
      let list_ := DiffCacheList object limit in
      match diffCache_List a object limit with
      | Err e => {| calls := [get; list_]; response := None; returned := Some e |}
      | Ok list =>
          {| calls := [get; list_]; response := Some (JSONList 200 list);
             returned := None |}
      end
  end.

End diffapi.

(** ** The diff decorator ([pkg/diff/decorator]) *)

Module decorator.

Inductive cacheHitType : Type :=
| cacheHitTypeTrue
| cacheHitTypeFalse
| cacheHitTypeError
| cacheHitTypeNoObjectRef
| cacheHitTypeRawJsonDecode
| cacheHitTypeNoop
| cacheHitTypeFiltered
| cacheHitTypeSameRv
| cacheHitTypeUndecoratedVerb
| cacheHitTypeUnsupportedVerb.

(** The metric label of each outcome: the string constants of the
    [const] block. *)
Definition label (c : cacheHitType) : string :=
  match c with
  | cacheHitTypeTrue => "true"
  | cacheHitTypeFalse => "false"
  | cacheHitTypeError => "failedRequest"
  | cacheHitTypeNoObjectRef => "noObjectRef"
  | cacheHitTypeRawJsonDecode => "rawJsonDecodeError"
  | cacheHitTypeNoop => "noopUpdate"
  | cacheHitTypeFiltered => "filtered"
  | cacheHitTypeSameRv => "sameRv"
  | cacheHitTypeUndecoratedVerb => "undecoratedVerb"
  | cacheHitTypeUnsupportedVerb => "unsupportedVerb"
  end.

(** The collaborators of the decorator.  The cache is asked once per
    attempt and may answer differently each time, so its answers are
    indexed by the attempt number.  [retryTicks] is the number of
    [fetchBackoff] ticks that fire before the retry context of a message
    is done (the clock and both deadlines decide it). *)
Record decorator : Type :=
  { Unmarshal : list byte -> result (option audit.PartialObjectMetadata);
    cache_Fetch :
      nat -> util.ObjectRef -> string -> option string -> result (option diffcache.Patch);
    cache_FetchSnapshot :
      nat -> util.ObjectRef -> string -> result (option diffcache.Snapshot);
    GoSyntax : unstructured.json -> string;
    string_of_bytes : list byte -> string;
    retryTicks : audit.Message -> nat }.

Inductive CacheCall : Type :=
| Fetch (object : util.ObjectRef) (oldRv : string) (newRv : option string)
| FetchSnapshot (object : util.ObjectRef) (snapshotName : string).

(** What one decoration leaves behind: the outcome and error returned,
    the event as mutated, the cache calls made, and the value observed
    by the retry-count histogram (if the polling loop was reached). *)
Record Decoration : Type :=
  { hit : cacheHitType;
    error : option string;
    decorated : event.Event;
    cacheCalls : list CacheCall;
    retryHistogram : option Z }.

(** Modelled from the spec: [util.ObjectRefFromAudit] is not among the
    sources; the identity tuple is taken from the audit object
    reference, the cluster and the uid passed in. *)
Definition ObjectRefFromAudit
    (object : audit.ObjectReference) (cluster : string) (uid : string) : util.ObjectRef :=
  {| util.Cluster := cluster;
     util.Gvr := {| util.Group := audit.APIGroup object;
                    util.Version := audit.APIVersion object;
                    util.Resource := audit.Resource object |};
     util.Namespace := audit.Namespace object;
     util.Name := audit.Name object;
     util.Uid := uid;
     util.Raw := None |}.

Definition decoratesResource (message : audit.Message) : bool :=
  negb (String.eqb (audit.Verb message) audit.VerbPatch).

Definition newline : string := String (ascii_of_nat 10) EmptyString.

Definition tryUpdateOnce
    (d : decorator) (attempt : nat) (object : util.ObjectRef)
    (oldRv : string) (newRv : option string)
    (ev : event.Event) (message : audit.Message)
  : bool * option string * event.Event :=
  match cache_Fetch d attempt object oldRv newRv with
  | Err e => (false, Some e, ev)
  | Ok None => (false, None, ev)
  | Ok (Some patch) =>
      if diffcache.Redacted patch then
        (true, None,
         event.Log zconstants.LogTypeKelemetryError
           "Sensitive object content has been redacted" ev)
      else
        let diffInfo :=
          fold_left
            (fun acc diff =>
               acc +:+ diffcache.JsonPath diff +:+ " "
                   +:+ GoSyntax d (diffcache.Old diff) +:+ " -> "
                   +:+ GoSyntax d (diffcache.New diff) +:+ newline)
            (diffcache.DiffList patch) "" in
        let ev := event.Log zconstants.LogTypeObjectDiff diffInfo ev in
        let informerLatency :=
          time.Sub (diffcache.InformerTime patch) (audit.StageTimestamp message) in
        (true, None,
         event.WithTag "informer latency" (event.TagDuration informerLatency) ev)
  end.

Definition tryCreateDeleteOnce
    (d : decorator) (attempt : nat) (object : util.ObjectRef)
    (snapshotName : string) (ev : event.Event)
  : bool * option string * event.Event :=
  match cache_FetchSnapshot d attempt object snapshotName with
  | Err e => (false, Some e, ev)
  | Ok None => (false, None, ev)
  | Ok (Some snapshot) =>
      if negb (diffcache.SnapRedacted snapshot) then
        (true, None,
         event.Log zconstants.LogTypeObjectSnapshot
           (string_of_bytes d (default [] (diffcache.Value snapshot))) ev)
      else (true, None, ev)
  end.

(** The variables the polling closure captures. *)
Record pollState : Type :=
  { retryCount : Z;
    cacheHit : bool;
    err : option string;
    ev : event.Event;
    made : list CacheCall }.

(** One run of the closure: count, try once, keep the answer. *)
Definition attempt
    (tryOnce : nat -> event.Event -> bool * option string * event.Event)
    (call : CacheCall) (s : pollState) : pollState :=
  let '(h, e, ev') := tryOnce (Z.to_nat (retryCount s)) (ev s) in
  {| retryCount := retryCount s + 1; cacheHit := h; err := e; ev := ev';
     made := made s ++ [call] |}.

(** [wait.PollImmediateUntil]: the condition runs at once and then once
    per tick, until it reports done or the stop channel closes. *)
Fixpoint poll
    (runs : nat)
    (tryOnce : nat -> event.Event -> bool * option string * event.Event)
    (call : CacheCall) (s : pollState) : pollState :=
  match runs with
  | O => s
  | S runs' =>
      let s' := attempt tryOnce call s in
      if cacheHit s' then s' else poll runs' tryOnce call s'
  end.

Definition PollImmediateUntil
    (ticks : nat)
    (tryOnce : nat -> event.Event -> bool * option string * event.Event)
    (call : CacheCall) (s : pollState) : pollState :=
  poll (S ticks) tryOnce call s.

Definition tryDecorate
    (d : decorator) (message : audit.Message) (ev0 : event.Event) : Decoration :=
  let done h e ev :=
    {| hit := h; error := e; decorated := ev; cacheCalls := [];
       retryHistogram := None |} in
  let polled tryOnce call :=
    let s := PollImmediateUntil (retryTicks d message) tryOnce call
               {| retryCount := 0; cacheHit := false; err := None; ev := ev0;
                  made := [] |} in
    {| hit := if cacheHit s then cacheHitTypeTrue else cacheHitTypeFalse;
       error := if cacheHit s then None else err s;
       decorated := ev s;
       cacheCalls := made s;
       retryHistogram := Some (retryCount s) |} in
  let failed :=
    match audit.ResponseStatus message with
    | Some status => if 300 <=? audit.Code status then Some status else None
    | None => None
    end in
  match failed with
  | Some status =>
      let ev :=
        event.Log zconstants.LogTypeRealError
          (audit.Reason status +:+ ": " +:+ audit.StatusMessage status) ev0 in
      let ev :=
        match audit.Details status with
        | Some details =>
            fold_left
              (fun ev detail =>
                 event.Log zconstants.LogTypeRealError
                   (audit.CauseType detail +:+ ": " +:+ audit.CauseMessage detail) ev)
              (audit.Causes details) ev
        | None => ev
        end in
      done cacheHitTypeError None ev
  | None =>
  match audit.ObjectRef message with
  | None => done cacheHitTypeNoObjectRef None ev0
  | Some objectRef =>
  let decoded :=
    match audit.ResponseObject message with
    | Some {| audit.RawJSON := Some raw |} => Unmarshal d raw
    | _ => Ok None
    end in
  match decoded with
  | Err e =>
      done cacheHitTypeRawJsonDecode (Some ("Error decoding raw object: " +:+ e))
        (event.Log zconstants.LogTypeKelemetryError "Error decoding raw object" ev0)
  | Ok respObj =>
  let responseRv :=
    match respObj with
    | Some o => audit.PResourceVersion o
    | None => ""
    end in
  let hasDiff :=
    String.eqb (audit.Verb message) audit.VerbUpdate
    || String.eqb (audit.Verb message) audit.VerbPatch in
  let sameAsResponse :=
    match respObj with
    | Some o => String.eqb (audit.ResourceVersion objectRef) (audit.PResourceVersion o)
    | None => false
    end in
  if hasDiff && sameAsResponse then
    done cacheHitTypeNoop None
      (event.Log zconstants.LogTypeRealVerbose "No-op update" ev0)
  else if negb (decoratesResource message) then
    done cacheHitTypeFiltered None ev0
  else
  let object :=
    ObjectRefFromAudit objectRef (audit.Cluster message) (audit.UID objectRef) in
  if hasDiff then
    let oldRv := audit.ResourceVersion objectRef in
    let newRv := if String.eqb responseRv "" then None else Some responseRv in
    match newRv with
    | Some rv =>
        if String.eqb oldRv rv then
          done cacheHitTypeSameRv None
            (event.Log zconstants.LogTypeRealVerbose "No-op update" ev0)
        else
          polled (fun i ev => tryUpdateOnce d i object oldRv newRv ev message)
                 (Fetch object oldRv newRv)
    | None =>
        polled (fun i ev => tryUpdateOnce d i object oldRv newRv ev message)
               (Fetch object oldRv newRv)
    end
  else if String.eqb (audit.Verb message) audit.VerbCreate
          || String.eqb (audit.Verb message) audit.VerbDelete then
    match diffcache.VerbToSnapshotName (audit.Verb message) with
    | None => done cacheHitTypeUndecoratedVerb None ev0
    | Some snapshotName =>
        polled (fun i ev => tryCreateDeleteOnce d i object snapshotName ev)
               (FetchSnapshot object snapshotName)
    end
  else done cacheHitTypeUnsupportedVerb None ev0
  end end end.

Record diffMetric : Type :=
  { MVerb : string;
    CacheHit : string;
    MCluster : string;
    ApiGroup : string * string;
    MResource : string;
    MError : option string }.

(** [Decorate]: the metric is built from [message.ObjectRef] before
    anything else, so a nil reference panics ([None]). *)
Definition Decorate
    (d : decorator) (message : audit.Message) (ev0 : event.Event)
  : option (event.Event * diffMetric * Decoration) :=
  match audit.ObjectRef message with
  | None => None
  | Some objectRef =>
      let r := tryDecorate d message ev0 in
      let ev :=
        match error r with
        | Some e => event.Log zconstants.LogTypeKelemetryError e (decorated r)
        | None => decorated r
        end in
      Some (ev,
            {| MVerb := audit.Verb message;
               CacheHit := label (hit r);
               MCluster := audit.Cluster message;
               ApiGroup := (audit.APIGroup objectRef, audit.APIVersion objectRef);
               MResource := audit.Resource objectRef;
               MError := error r |},
            r)
  end.

End decorator.

(** ** The transform steps ([package tfstep]) and the tree they visit *)

Module tfstep.

(** [model.KeyValue] of the trace model: a key and a typed value.
    [VFloat64] holds the IEEE-754 bits. *)
Inductive ValueType : Type :=
| StringType | BoolType | Int64Type | Float64Type | BinaryType.

Record KeyValue : Type :=
  { Key : string;
    VType : ValueType;
    VStr : string;
    VBool : bool;
    VInt64 : Z;
    VFloat64 : Z;
    VBinary : list byte }.

Record Log : Type :=
  { Timestamp : time.Time;
    Fields : list KeyValue }.

Record Span : Type :=
  { SpanID : Z;
    OperationName : string;
    StartTime : time.Time;
    Duration : time.Duration;
    Tags : list KeyValue;
    Logs : list Log;
    Warnings : list string }.

Definition with_OperationName (name : string) (s : Span) : Span :=
  {| SpanID := SpanID s; OperationName := name; StartTime := StartTime s;
     Duration := Duration s; Tags := Tags s; Logs := Logs s;
     Warnings := Warnings s |}.

Definition with_Tags (tags : list KeyValue) (s : Span) : Span :=
  {| SpanID := SpanID s; OperationName := OperationName s;
     StartTime := StartTime s; Duration := Duration s; Tags := tags;
     Logs := Logs s; Warnings := Warnings s |}.

Definition with_Logs (logs : list Log) (s : Span) : Span :=
  {| SpanID := SpanID s; OperationName := OperationName s;
     StartTime := StartTime s; Duration := Duration s; Tags := Tags s;
     Logs := logs; Warnings := Warnings s |}.

(** Modelled from the spec: the span tree and its traversal
    ([package tftree]) are not among the sources.  "Span tree. Rooted
    directed tree of spans"; "each visitor is an Enter/Exit pair
    invoked in pre/post order"; visitors "receive the tree by reference;
    they may mutate in place".  The test [span == tree.Root] of the
    sources is the flag [isRoot], true at the top node only; [Enter]
    returns the visitor for the children, which both visitors of the
    sources make the visitor itself. *)
Inductive SpanTree : Type :=
| Node (span : Span) (children : list SpanTree).

Record TreeVisitor : Type :=
  { Enter : bool -> Span -> Span;
    Exit : bool -> Span -> Span }.

Fixpoint visit (v : TreeVisitor) (isRoot : bool) (t : SpanTree) : SpanTree :=
  match t with
  | Node span children =>
      let entered := Enter v isRoot span in
      let children' := map (visit v false) children in
      Node (Exit v isRoot entered) children'
  end.

Definition Visit (v : TreeVisitor) (t : SpanTree) : SpanTree := visit v true t.

(** "Visitors are composed by configuration": the pipeline runs its
    steps in order, each over the whole tree. *)
Definition pipeline (steps : list TreeVisitor) (t : SpanTree) : SpanTree :=
  fold_left (fun t v => Visit v t) steps t.

(** *** [ReplaceNameVisitor] *)

(** The loop of [Enter]: the value of the first tag keyed [SpanName]. *)
Fixpoint spanNameTag (k : zconstants.TagKeys) (tags : list KeyValue) : option string :=
  match tags with
  | [] => None
  | tag :: tags' =>
      if String.eqb (Key tag) (zconstants.SpanName k) then Some (VStr tag)
      else spanNameTag k tags'
  end.

Definition ReplaceName_Enter (k : zconstants.TagKeys) (isRoot : bool) (span : Span) : Span :=
  let span :=
    match spanNameTag k (Tags span) with
    | Some name => with_OperationName name span
    | None => span
    end in
  if isRoot then
    with_OperationName
      (OperationName span +:+ " / " +:+ time.Format_1504 (StartTime span)
         +:+ ".." +:+ time.Format_1504 (time.Add (StartTime span) (Duration span)))
      span
  else span.

Definition ReplaceNameVisitor (k : zconstants.TagKeys) : TreeVisitor :=
  {| Enter := ReplaceName_Enter k; Exit := fun _ span => span |}.

(** *** [PruneTagsVisitor] *)

Definition removeZconstantKeys (k : zconstants.TagKeys) (tags : list KeyValue)
  : list KeyValue :=
  fold_left
    (fun newTags tag =>
       if negb (gostrings.HasPrefix (Key tag) (zconstants.Prefix k))
       then (newTags ++ [tag])%list else newTags)
    tags [].

Definition PruneTags_Enter (k : zconstants.TagKeys) (isRoot : bool) (span : Span) : Span :=
  let span := with_Tags (removeZconstantKeys k (Tags span)) span in
  with_Logs
    (map (fun log =>
            {| Timestamp := Timestamp log;
               Fields := removeZconstantKeys k (Fields log) |})
         (Logs span))
    span.

Definition PruneTagsVisitor (k : zconstants.TagKeys) : TreeVisitor :=
  {| Enter := PruneTags_Enter k; Exit := fun _ span => span |}.

(** *** Pipelines of the two steps *)

(** The steps of this package a configuration can name. *)
Inductive Step : Type :=
| StepReplaceName
| StepPruneTags.

Definition visitorOf (k : zconstants.TagKeys) (step : Step) : TreeVisitor :=
  match step with
  | StepReplaceName => ReplaceNameVisitor k
  | StepPruneTags => PruneTagsVisitor k
  end.

Definition configured (k : zconstants.TagKeys) (steps : list Step) : list TreeVisitor :=
  map (visitorOf k) steps.

(** What one visitor, and a run of visitors, does to a single span. *)
Definition enterExit (isRoot : bool) (span : Span) (v : TreeVisitor) : Span :=
  Exit v isRoot (Enter v isRoot span).

Definition onSpan (isRoot : bool) (steps : list TreeVisitor) (span : Span) : Span :=
  fold_left (enterExit isRoot) steps span.

(** The traversals of a run of visitors over a subtree. *)
Definition visitAll (isRoot : bool) (steps : list TreeVisitor) (t : SpanTree) : SpanTree :=
  fold_left (fun t v => visit v isRoot t) steps t.

(** The tree with the operation name of its root blanked: what is left
    to compare when the root name is set aside. *)
Definition forgetRootName (t : SpanTree) : SpanTree :=
  match t with
  | Node span children => Node (with_OperationName "" span) children
  end.

Definition rootName (t : SpanTree) : string :=
  match t with
  | Node span _ => OperationName span
  end.

(** The spans of a tree, a parent before its children, and the spans
    below the root. *)
Fixpoint spans (t : SpanTree) : list Span :=
  match t with
  | Node span children => span :: flat_map spans children
  end.

Definition descendants (t : SpanTree) : list Span :=
  match t with
  | Node _ children => flat_map spans children
  end.

Definition rootSpan (t : SpanTree) : Span :=
  match t with
  | Node span _ => span
  end.

End tfstep.

(** ** [k8s.io/apimachinery/pkg/runtime/schema] *)

Module schema.

(** The text before the first ["/"] and, if there is one, the text
    after it. *)
Fixpoint cut_slash (s : string) : string * option string :=
  match s with
  | EmptyString => (EmptyString, None)
  | String c s' =>
      if Ascii.eqb c "/" then (EmptyString, Some s')
      else let '(a, b) := cut_slash s' in (String c a, b)
  end.

(** [schema.ParseGroupVersion]. *)
Definition ParseGroupVersion (gv : string) : result (string * string) :=
  if String.eqb gv "" || String.eqb gv "/" then Ok ("", "")
  else
    match cut_slash gv with
    | (v, None) => Ok ("", v)
    | (g, Some v) =>
        match cut_slash v with
        | (_, None) => Ok (g, v)
        | (_, Some _) => Err ("unexpected GroupVersion string: " +:+ gv)
        end
    end.

(** [schema.FromAPIVersionAndKind]: an unparsable version leaves the
    kind alone. *)
Definition FromAPIVersionAndKind (apiVersion kind : string) : util.GroupVersionKind :=
  match ParseGroupVersion apiVersion with
  | Ok (g, v) => {| util.KGroup := g; util.KVersion := v; util.Kind := kind |}
  | Err _ => {| util.KGroup := ""; util.KVersion := ""; util.Kind := kind |}
  end.

End schema.

(** ** The audit consumer ([package auditconsumer]) *)

Module auditconsumer.

Record options : Type :=
  { clusterFilter : string;
    ignoreImpersonate : bool;
    enableSubObject : bool }.

(** [aggregator.SubObjectId]. *)
Record SubObjectId : Type := { Id : string; Primary : bool }.

(** The receiver with its collaborators.  A decorator list that panics
    answers [None]; [handleItem] recovers the panic. *)
Record receiver : Type :=
  { opts : options;
    clock_Now : time.Time;
    filter_TestAuditEvent : audit.Message -> bool;
    Unmarshal_Message : list byte -> result audit.Message;
    Unmarshal_Partial : list byte -> result audit.PartialObjectMetadata;
    Unmarshal_Object : list byte -> result (gmap string unstructured.json);
    discovery_ForCluster :
      string -> result (util.GroupVersionKind -> option util.GroupVersionResource);
    decoratorList_Decorate : audit.Message -> event.Event -> option event.Event;
    StatusText : Z -> string }.

Record SendCall : Type :=
  { object : util.ObjectRef;
    sentEvent : event.Event;
    subObjectId : option SubObjectId }.

(** What handling one message leaves behind: the event built (if the
    handler got that far), the calls of [Aggregator.Send], the
    [HasTrace] field of the metric, and whether a panic was recovered. *)
Record Handled : Type :=
  { built : option event.Event;
    sends : list SendCall;
    HasTrace : bool;
    panicked : bool }.

Definition returned : Handled :=
  {| built := None; sends := []; HasTrace := false; panicked := false |}.

Definition supportedVerbs : list string :=
  [audit.VerbCreate; audit.VerbUpdate; audit.VerbDelete; audit.VerbPatch].

(** [sets.String.Has]. *)
Definition Has (set : list string) (item : string) : bool :=
  existsb (String.eqb item) set.

Definition inferObjectRef (recv : receiver) (message : audit.Message)
  : result audit.Message :=
  match audit.ResponseObject message with
  | Some resp =>
      match Unmarshal_Partial recv (default [] (audit.RawJSON resp)) with
      | Err e => Err ("unmarshal raw object: " +:+ e)
      | Ok partial =>
          match schema.ParseGroupVersion (audit.PAPIVersion partial) with
          | Err e => Err ("object has invalid GroupVersion: " +:+ e)
          | Ok (g, v) =>
              match discovery_ForCluster recv (audit.Cluster message) with
              | Err e => Err ("no ClusterDiscoveryCache: " +:+ e)
              | Ok cdc =>
                  match cdc {| util.KGroup := g; util.KVersion := v;
                               util.Kind := audit.PKind partial |} with
                  | None => Err "conversion of response to GVR failed"
                  | Some gvr =>
                      Ok (audit.with_ObjectRef
                            (Some {| audit.APIGroup := util.Group gvr;
                                     audit.APIVersion := util.Version gvr;
                                     audit.Resource := util.Resource gvr;
                                     audit.Namespace := audit.PNamespace partial;
                                     audit.Name := audit.PName partial;
                                     audit.UID := audit.PUID partial;
                                     audit.ResourceVersion := "";
                                     audit.Subresource := "" |})
                            message)
                  end
              end
          end
      end
  | None => Err "no ResponseObject to infer objectRef from"
  end.

Definition handleItem (recv : receiver) (message0 : audit.Message) : Handled :=
  if negb (Has supportedVerbs (audit.Verb message0)) then returned
  else if negb (String.eqb (audit.Stage message0) audit.StageResponseComplete) then returned
  else if negb (filter_TestAuditEvent recv message0) then returned
  else
  let inferred :=
    match audit.ObjectRef message0 with
    | Some ref =>
        if String.eqb (audit.Name ref) "" then inferObjectRef recv message0
        else Ok message0
    | None => inferObjectRef recv message0
    end in
  match inferred with
  | Err _ => returned
  | Ok message =>
  match audit.ObjectRef message with
  | None => {| built := None; sends := []; HasTrace := false; panicked := true |}
  | Some ref =>
  let decodedRaw :=
    match audit.ResponseObject message with
    | Some resp =>
        match Unmarshal_Object recv (default [] (audit.RawJSON resp)) with
        | Ok obj => Ok (Some {| unstructured.Object := obj |})
        | Err e => Err e
        end
    | None => Ok None
    end in
  match decodedRaw with
  | Err _ => returned
  | Ok raw =>
  let objectRef :=
    {| util.Cluster := audit.Cluster message;
       util.Gvr := {| util.Group := audit.APIGroup ref;
                      util.Version := audit.APIVersion ref;
                      util.Resource := audit.Resource ref |};
       util.Namespace := audit.Namespace ref;
       util.Name := audit.Name ref;
       util.Uid := audit.UID ref;
       util.Raw := raw |} in
  let field :=
    if String.eqb (audit.Verb message) audit.VerbUpdate
       && String.eqb (audit.Subresource ref) "status" then "status"
    else if String.eqb (audit.Verb message) audit.VerbDelete then "deletion"
    else "spec" in
  let username :=
    match audit.ImpersonatedUser message with
    | Some u =>
        if negb (ignoreImpersonate (opts recv)) then audit.Username u
        else audit.Username (audit.User message)
    | None => audit.Username (audit.User message)
    end in
  let title := username +:+ " " +:+ audit.Verb message in
  let title :=
    if negb (String.eqb (audit.Subresource ref) "")
    then title +:+ " " +:+ audit.Subresource ref else title in
  match audit.ResponseStatus message with
  | None => {| built := None; sends := []; HasTrace := false; panicked := true |}
  | Some status =>
  let title :=
    if 300 <=? audit.Code status
    then title +:+ " (" +:+ StatusText recv (audit.Code status) +:+ ")" else title in
  let ev :=
    event.WithTag "tag" (event.TagString (audit.Verb message))
      (event.WithTag "apiserver" (event.TagString (audit.SourceAddr message))
        (event.WithTag "resourceVersion" (event.TagString (audit.ResourceVersion ref))
          (event.WithTag "responseCode" (event.TagInt (audit.Code status))
            (event.WithTag "userAgent" (event.TagString (audit.UserAgent message))
              (event.WithTag "username" (event.TagString username)
                (event.WithEndTime (audit.StageTimestamp message)
                  (event.NewEvent field title
                     (audit.RequestReceivedTimestamp message) "audit"))))))) in
  match decoratorList_Decorate recv message ev with
  | None => {| built := Some ev; sends := []; HasTrace := false; panicked := true |}
  | Some ev =>
  let subObjectId :=
    if enableSubObject (opts recv)
       && (String.eqb (audit.Verb message) audit.VerbUpdate
           || String.eqb (audit.Verb message) audit.VerbPatch)
    then Some {| Id := "rv=" +:+ audit.ResourceVersion ref;
                 Primary := audit.Code status <? 300 |}
    else None in
  {| built := Some ev;
     sends := [{| object := objectRef; sentEvent := ev; subObjectId := subObjectId |}];
     HasTrace := true;
     panicked := false |}
  end end end end end.

Record consumeMetric : Type :=
  { MetricCluster : string; MetricHasTrace : bool }.

(** [handleMessage]: the cluster is the message key up to the first
    ["/"]. *)
Definition handleMessage (recv : receiver) (msgKey msgValue : list byte)
    (string_of_bytes : list byte -> string) : consumeMetric * Handled :=
  let cluster := (schema.cut_slash (string_of_bytes msgKey)).1 in
  if negb (String.eqb (clusterFilter (opts recv)) "")
     && negb (String.eqb (clusterFilter (opts recv)) cluster)
  then ({| MetricCluster := cluster; MetricHasTrace := false |}, returned)
  else
    match Unmarshal_Message recv msgValue with
    | Err _ => ({| MetricCluster := cluster; MetricHasTrace := false |}, returned)
    | Ok message =>
        let h := handleItem recv message in
        ({| MetricCluster := cluster; MetricHasTrace := HasTrace h |}, h)
    end.

(** [Init]: one consumer per configured partition, in the order of the
    option; the first error ends the start-up.  [CreateConsumer] is the
    method of the [mq.Queue] the receiver holds. *)
Fixpoint Init {Queue : Type}
    (CreateConsumer : Queue -> string -> Z -> result Queue)
    (consumerGroup : string) (partitions : list Z) (queue : Queue) : result Queue :=
  match partitions with
  | [] => Ok queue
  | partition :: partitions' =>
      match CreateConsumer queue consumerGroup partition with
      | Err e => Err ("cannot create consumer for partition: " +:+ e)
      | Ok queue' => Init CreateConsumer consumerGroup partitions' queue'
      end
  end.

End auditconsumer.

(** ** The diff controller ([pkg/diff/controller]) *)

Module diffcontroller.

Definition LabelKeyRedacted : string := "kelemetry.kubewharf.io/diff-redacted".

(** The controller with its collaborators: the compiled redaction
    pattern, the clock, the name of the target cluster, the structural
    comparison of [package diffcmp] and [json.Marshal]. *)
Record controller : Type :=
  { redactRegex_MatchString : string -> bool;
    clock_Now : time.Time;
    clusterName : string;
    diffcmp_Compare :
      gmap string unstructured.json -> gmap string unstructured.json
      -> list diffcache.Diff;
    json_Marshal : unstructured.Unstructured -> result (list byte) }.

Record monitor : Type :=
  { ctrl : controller;
    gvr : util.GroupVersionResource }.

(** The writes a task makes on the diff cache, in order. *)
Inductive CacheWrite : Type :=
| Store (object : util.ObjectRef) (patch : diffcache.Patch)
| StoreSnapshot (object : util.ObjectRef) (snapshotName : string)
    (snapshot : diffcache.Snapshot).

(** The string [gvrnn] of [testRedacted]: ["%s/%s/%s/%s/%s"]. *)
Definition gvrnn (m : monitor) (obj : unstructured.Unstructured) : string :=
  util.Group (gvr m) +:+ "/" +:+ util.Version (gvr m) +:+ "/"
    +:+ util.Resource (gvr m) +:+ "/" +:+ unstructured.GetNamespace obj
    +:+ "/" +:+ unstructured.GetName obj.

Definition testRedacted (m : monitor) (obj : unstructured.Unstructured) : bool :=
  let redacted := bool_decide (is_Some (unstructured.GetLabels obj !! LabelKeyRedacted)) in
  if negb redacted then redactRegex_MatchString (ctrl m) (gvrnn m obj)
  else redacted.

Definition onNeedSnapshot
    (m : monitor) (obj : unstructured.Unstructured) (snapshotName : string)
  : list CacheWrite :=
  let redacted := testRedacted m obj in
  let objRaw :=
    match json_Marshal (ctrl m) obj with
    | Ok raw => Some raw
    | Err _ => None
    end in
  [StoreSnapshot
     (util.ObjectRefFromUnstructured obj (clusterName (ctrl m)) (gvr m))
     snapshotName
     {| diffcache.ResourceVersion := unstructured.GetResourceVersion obj;
        diffcache.SnapRedacted := redacted;
        diffcache.Value := objRaw |}].

Definition onUpdate (m : monitor) (oldObj newObj : unstructured.Unstructured)
  : list CacheWrite :=
  if String.eqb (unstructured.GetResourceVersion oldObj)
                (unstructured.GetResourceVersion newObj)
  then []
  else
    let snapshot :=
      if unstructured.IsZero (unstructured.GetDeletionTimestamp oldObj)
         && negb (unstructured.IsZero (unstructured.GetDeletionTimestamp newObj))
      then onNeedSnapshot m newObj "deletion"
      else [] in
    let redacted := testRedacted m oldObj || testRedacted m newObj in
    let diffList :=
      if redacted then
        [{| diffcache.JsonPath := "metadata.resourceVersion";
            diffcache.Old := unstructured.JStr (unstructured.GetResourceVersion oldObj);
            diffcache.New := unstructured.JStr (unstructured.GetResourceVersion newObj) |}]
      else
        diffcmp_Compare (ctrl m)
          (unstructured.Object oldObj) (unstructured.Object newObj) in
    let patch :=
      {| diffcache.InformerTime := clock_Now (ctrl m);
         diffcache.OldResourceVersion := unstructured.GetResourceVersion oldObj;
         diffcache.NewResourceVersion := unstructured.GetResourceVersion newObj;
         diffcache.Redacted := redacted;
         diffcache.DiffList := diffList |} in
    (snapshot ++
       [Store (util.ObjectRefFromUnstructured newObj (clusterName (ctrl m)) (gvr m))
              patch])%list.

(** The patches a task stored. *)
Definition storedPatches (ws : list CacheWrite) : list diffcache.Patch :=
  omap (fun w => match w with Store _ p => Some p | _ => None end) ws.

(** *** The monitors of the controller

    [metav1.APIResource], the fields read. *)
Record APIResource : Type :=
  { Verbs : list string;
    Namespaced : bool;
    APIKind : string }.

(** [shouldMonitorType]: the verbs equal to ["list"] or ["watch"] are
    counted, and the count must be two. *)
Definition shouldMonitorType
    (filter_TestGvr : util.GroupVersionResource -> bool)
    (gvr : util.GroupVersionResource) (apiResource : APIResource) : bool :=
  let canListWatch :=
    fold_left
      (fun canListWatch verb =>
         if String.eqb verb "list" || String.eqb verb "watch"
         then canListWatch + 1 else canListWatch)
      (Verbs apiResource) 0 in
  if negb (canListWatch =? 2) then false
  else if negb (filter_TestGvr gvr) then false
  else true.

(** [compareMonitors].  [monitors] is the field [ctrl.monitors] and
    [expected] the [discovery.GvrDetails] map.  Go leaves the order in
    which a map is ranged over open; the two slices are given here in
    the order of [map_to_list]. *)
Definition compareMonitors
    (filter_TestGvr : util.GroupVersionResource -> bool)
    (monitors : gmap util.GroupVersionResource monitor)
    (expected : gmap util.GroupVersionResource APIResource)
  : list util.GroupVersionResource * list util.GroupVersionResource :=
  let toStart :=
    fold_left
      (fun toStart entry =>
         if negb (shouldMonitorType filter_TestGvr entry.1 entry.2) then toStart
         else if negb (bool_decide (is_Some (monitors !! entry.1)))
              then (toStart ++ [entry.1])%list else toStart)
      (map_to_list expected) [] in
  let toStop :=
    fold_left
      (fun toStop entry =>
         if negb (bool_decide (is_Some (expected !! entry.1)))
         then (toStop ++ [entry.1])%list else toStop)
      (map_to_list monitors) [] in
  (toStart, toStop).

Definition addMonitors
    (newMonitors : list monitor) (monitors : gmap util.GroupVersionResource monitor)
  : gmap util.GroupVersionResource monitor :=
  fold_left (fun monitors m => <[gvr m := m]> monitors) newMonitors monitors.

(** [drainMonitors]: the monitor of every key, nil ([None]) for a key
    that is not in the map, and the map without these keys. *)
Definition drainMonitors
    (gvrs : list util.GroupVersionResource)
    (monitors : gmap util.GroupVersionResource monitor)
  : list (option monitor) * gmap util.GroupVersionResource monitor :=
  fold_left
    (fun acc gvr => ((acc.1 ++ [acc.2 !! gvr])%list, delete gvr acc.2))
    gvrs ([], monitors).

Definition drainAllMonitors (monitors : gmap util.GroupVersionResource monitor)
  : list (option monitor) * gmap util.GroupVersionResource monitor :=
  (fold_left (fun acc entry => (acc ++ [monitors !! entry.1])%list)
     (map_to_list monitors) [],
   ∅).

(** [startMonitor]: the monitor returned.  [apiResource] is a pointer
    (the value of [expected[gvr]]); the list-watch the monitor starts on
    its own is not modelled. *)
Definition startMonitor (c : controller) (gvr_ : util.GroupVersionResource)
    (apiResource : option APIResource) : monitor :=
  {| ctrl := c; gvr := gvr_ |}.

(** What one [resyncMonitors] leaves behind: the map of monitors, the
    monitors started and the monitors closed ([None]: [close] was called
    on a nil monitor, a panic). *)
Record Resynced : Type :=
  { running : gmap util.GroupVersionResource monitor;
    started : list monitor;
    closed : list (option monitor) }.

(** [resyncMonitors]; [discovered] is the answer of the discovery cache
    for the target cluster. *)
Definition resyncMonitors
    (c : controller) (filter_TestGvr : util.GroupVersionResource -> bool)
    (discovered : result (gmap util.GroupVersionResource APIResource))
    (monitors : gmap util.GroupVersionResource monitor)
  : result Resynced :=
  match discovered with
  | Err e => Err ("cannot get discovery cache for target cluster: " +:+ e)
  | Ok expected =>
      let '(toStart, toStop) := compareMonitors filter_TestGvr monitors expected in
      let newMonitors :=
        (fun gvr => startMonitor c gvr (expected !! gvr)) <$> toStart in
      let monitors := addMonitors newMonitors monitors in
      let '(oldMonitors, monitors) := drainMonitors toStop monitors in
      Ok {| running := monitors; started := newMonitors; closed := oldMonitors |}
  end.

End diffcontroller.

(** ** The redirect server ([package jaegerhttp]) *)

Module jaegerhttp.

(** [model.TraceID] and its [String] method. *)
Record TraceID : Type := { High : Z; Low : Z }.

Definition TraceID_String (t : TraceID) : string :=
  if High t =? 0 then gostrings.hex16 (Low t)
  else gostrings.hex16 (High t) +:+ gostrings.hex16 (Low t).

(** [spanstore.TraceQueryParameters], the fields the handler sets. *)
Record TraceQueryParameters : Type :=
  { ServiceName : string;
    OperationName : string;
    Tags : gmap string string;
    StartTimeMin : time.Time;
    StartTimeMax : time.Time }.

Record server : Type :=
  { clusterList_List : list string;
    transformConfigs_DefaultName : string;
    spanReader_FindTraceIDs : TraceQueryParameters -> result (list TraceID) }.

(** The JSON trace model, the fields the handler sets. *)
Record KeyValue : Type := { Key : string; Value : string }.

Record Span : Type :=
  { StartTime : Z;
    Duration : Z;
    SpanTags : list KeyValue;
    Warnings : list string }.

Record Trace : Type := { Spans : list Span }.

Inductive Written : Type :=
| JSON (code : Z) (body : Trace)
| Redirect (code : Z) (location : string).

(** The results [(code, err)] of [handleGet], the label it puts on the
    metric, what it wrote to the response, and its trace-store queries.
    The text of a wrapped library error is not reproduced. *)
Record Outcome : Type :=
  { code : Z;
    err : option string;
    metricError : option string;
    written : option Written;
    searches : list TraceQueryParameters }.

Definition fail (c : Z) (label msg : string) (qs : list TraceQueryParameters) : Outcome :=
  {| code := c; err := Some msg; metricError := Some label; written := None;
     searches := qs |}.

Definition hasCluster (s : server) (cluster : string) : bool :=
  fold_left
    (fun has knownCluster =>
       if gostrings.EqualFold (gostrings.ToLower knownCluster) (gostrings.ToLower cluster)
       then true else has)
    (clusterList_List s) false.

Definition handleGet (s : server) (ctx : gin.Context) : Outcome :=
  let cluster := gin.Query ctx "cluster" in
  let resource := gin.Query ctx "resource" in
  let namespace := gin.Query ctx "namespace" in
  let name := gin.Query ctx "name" in
  if (String.length cluster =? 0)%nat || (String.length resource =? 0)%nat
     || (String.length name =? 0)%nat
  then fail 400 "EmptyParam" "cluster or resource or name is empty" []
  else if negb (hasCluster s cluster)
  then fail 404 "UnknownCluster" ("cluster " +:+ cluster +:+ " not supported now") []
  else
  match time.Parse_RFC3339 (gin.Query ctx "ts") with
  | None => fail 400 "InvalidTimestamp" "invalid timestamp for ts param" []
  | Some timestamp =>
  let tags : gmap string string :=
    <["name" := name]> (<["resource" := resource]> ∅) in
  let tags :=
    if negb (String.eqb namespace "") then <["namespace" := namespace]> tags else tags in
  let parameters :=
    {| ServiceName := transformConfigs_DefaultName s;
       OperationName := cluster;
       Tags := tags;
       StartTimeMin := time.Truncate timestamp (time.Minute * 30);
       StartTimeMax :=
         time.Add (time.Truncate timestamp (time.Minute * 30)) (time.Minute * 30) |} in
  match spanReader_FindTraceIDs s parameters with
  | Err e => fail 500 "TraceError" ("failed to find trace ids " +:+ e) [parameters]
  | Ok traceIDs =>
      match traceIDs with
      | _ :: _ :: _ =>
          fail 500 "MultiTraceMatch"
            ("trace ids match query length is "
               +:+ gostrings.Itoa (Z.of_nat (length traceIDs)) +:+ ", not 1")
            [parameters]
      | [] =>
          let emptyTrace :=
            {| Spans :=
                [{| StartTime := goint.uint64 (Z.quot (time.UnixNano timestamp) 1000);
                    Duration := goint.uint64 (time.Microseconds (time.Minute * 30));
                    SpanTags := [{| Key := "cluster"; Value := cluster |};
                                 {| Key := "resource"; Value := resource |};
                                 {| Key := "namespace"; Value := namespace |};
                                 {| Key := "name"; Value := name |}];
                    Warnings := ["no events found"] |}] |} in
          {| code := 0; err := None; metricError := Some "NoTraceMatch";
             written := Some (JSON 200 emptyTrace); searches := [parameters] |}
      | [traceID] =>
          {| code := 0; err := None; metricError := None;
             written := Some (Redirect 302 ("/trace/" +:+ TraceID_String traceID));
             searches := [parameters] |}
      end
  end
  end.

(** The status the route closure leaves on the response: the code of a
    returned error, else the status [handleGet] wrote. *)
Definition responseStatus (o : Outcome) : Z :=
  match err o, written o with
  | Some _, _ => code o
  | None, Some (JSON c _) => c
  | None, Some (Redirect c _) => c
  | None, None => 200
  end.

End jaegerhttp.

(** ** The event informer ([package event], "event-informer") *)

Module eventinformer.

Definition configMapLastEventKey : string := "timestamp".
Definition configMapLastUpdatedKey : string := "lastUpdated".

(** [corev1.ConfigMap]: [Data] is a map that may be nil. *)
Record ConfigMap : Type := { Data : option (gmap string string) }.

(** Reading a key of a possibly nil map. *)
Definition get (cm : ConfigMap) (key : string) : string :=
  match Data cm with
  | Some m => default "" (m !! key)
  | None => ""
  end.

(** Assigning to a key; on a nil map Go panics ([None]). *)
Definition set (cm : ConfigMap) (key value : string) : option ConfigMap :=
  match Data cm with
  | Some m => Some {| Data := Some (<[key := value]> m) |}
  | None => None
  end.

(** [corev1.ObjectReference] and [corev1.Event], the fields read. *)
Record ObjectReference : Type :=
  { Kind : string;
    APIVersion : string;
    Namespace : string;
    Name : string;
    UID : string }.

Definition GroupVersionKind (o : ObjectReference) : util.GroupVersionKind :=
  schema.FromAPIVersionAndKind (APIVersion o) (Kind o).

Record Event : Type :=
  { EventName : string;
    InvolvedObject : ObjectReference;
    EventTime : time.Time;
    LastTimestamp : time.Time;
    Reason : string;
    SourceComponent : string;
    Action : string;
    Message : string }.

Record controller : Type :=
  { isLeader : Z;
    lastEventTime : time.Time;
    clock_Now : time.Time;
    clusterName : string;
    filter_TestGvk : string -> util.GroupVersionKind -> bool;
    discovery_ForCluster :
      string -> result (util.GroupVersionKind -> option util.GroupVersionResource);
    aggregator_Send : util.ObjectRef -> event.Event -> option string }.

Record eventHandleMetric : Type :=
  { Group : string;
    Version : string;
    MetricKind : string;
    Resource : string;
    TimestampType : string;
    Error : option string }.

(** The closure sent on [configMapUpdateCh]; it captures [eventTime]. *)
Definition updater (eventTime : time.Time) (cm : ConfigMap) : option ConfigMap :=
  let write :=
    match time.Parse_RFC3339 (get cm configMapLastEventKey) with
    | None => true
    | Some t => time.Before t eventTime
    end in
  if write then set cm configMapLastEventKey (time.Format_RFC3339 eventTime)
  else Some cm.

(** What handling one event leaves behind: the metric counted (none when
    not the leader), the updaters enqueued and the events sent. *)
Record Handled : Type :=
  { metric : option eventHandleMetric;
    enqueued : list (ConfigMap -> option ConfigMap);
    sends : list (util.ObjectRef * event.Event) }.

Definition handleEvent (c : controller) (ev : Event) : Handled :=
  if isLeader c =? 0 then {| metric := None; enqueued := []; sends := [] |}
  else
  let gvk := GroupVersionKind (InvolvedObject ev) in
  let count tsType resource e us ss :=
    {| metric := Some {| Group := util.KGroup gvk; Version := util.KVersion gvk;
                         MetricKind := Kind (InvolvedObject ev);
                         Resource := resource;
                         TimestampType := tsType; Error := e |};
       enqueued := us; sends := ss |} in
  let '(eventTime, tsType) :=
    if time.IsZero (EventTime ev) then (LastTimestamp ev, "LastTimestamp")
    else (EventTime ev, "EventTime") in
  if time.IsZero eventTime then count "" "" (Some "InferTimestamp") [] []
  else if time.Before eventTime (lastEventTime c)
  then count tsType "" (Some "BeforeRestart") [] []
  else if time.Minute * 5 <? time.Sub (clock_Now c) eventTime
  then count tsType "" (Some "EventTooOld") [] []
  else
  let us := [updater eventTime] in
  if negb (filter_TestGvk c (clusterName c) gvk)
  then count tsType "" (Some "Filtered") us []
  else
  let aggregatorEvent :=
    event.Log zconstants.LogTypeEventMessage (Message ev)
      (event.WithTag "action" (event.TagString (Action ev))
        (event.WithTag "source" (event.TagString (SourceComponent ev))
          (event.NewEvent "status" (Reason ev) eventTime "event"))) in
  match discovery_ForCluster c (clusterName c) with
  | Err _ => count tsType "" (Some "invalid cluster") us []
  | Ok cdc =>
      match cdc gvk with
      | None => count tsType "" (Some "UnknownGVK") us []
      | Some gvr =>
          let object :=
            {| util.Cluster := clusterName c; util.Gvr := gvr;
               util.Namespace := Namespace (InvolvedObject ev);
               util.Name := Name (InvolvedObject ev);
               util.Uid := UID (InvolvedObject ev);
               util.Raw := None |} in
          match aggregator_Send c object aggregatorEvent with
          | Some _ =>
              count tsType (util.Resource gvr) (Some "SendTrace") us
                [(object, aggregatorEvent)]
          | None =>
              count tsType (util.Resource gvr) None us [(object, aggregatorEvent)]
          end
      end
  end.

(** [syncConfigMap], start-up: the watermark read from the ConfigMap,
    or the current time when the stored text does not parse. *)
Definition startEventTime (cm : ConfigMap) (now : time.Time) : time.Time :=
  match time.Parse_RFC3339 (get cm configMapLastEventKey) with
  | Some t => t
  | None => now
  end.

(** [pollConfigLoop]: the updaters received are applied in order to the
    one ConfigMap the writer holds. *)
Fixpoint applyUpdaters
    (us : list (ConfigMap -> option ConfigMap)) (cm : ConfigMap) : option ConfigMap :=
  match us with
  | [] => Some cm
  | u :: us' =>
      match u cm with
      | Some cm' => applyUpdaters us' cm'
      | None => None
      end
  end.

(** The persisted watermark: the stored text, parsed. *)
Definition watermark (cm : ConfigMap) : option time.Time :=
  time.Parse_RFC3339 (get cm configMapLastEventKey).

End eventinformer.

(** ** The in-process message queue ([pkg/audit/mq/local]) *)

Module mqlocal.

Record localMessage : Type :=
  { offset : Z;
    key : option (list byte);
    value : list byte }.

(** The queue and its producer: options, the partition count fixed by
    [Start] (an [int32]), the unbounded queue of every consumer by
    group and partition, and the offset counter. *)
Record localQueue : Type :=
  { partitionByObject : bool;
    numPartitions : Z;
    consumers : gmap string (gmap Z (list localMessage));
    offsetCounter : Z }.

(** [hash/fnv], 32-bit FNV-1: multiply, then xor the byte in. *)
Definition offset32 : Z := 2166136261.
Definition prime32 : Z := 16777619.

Fixpoint fnv32_Write (hash : Z) (data : list byte) : Z :=
  match data with
  | [] => hash
  | c :: data' =>
      fnv32_Write (Z.lxor (goint.uint32 (hash * prime32)) (Z.of_N (Byte.to_N c))) data'
  end.

Definition fnv32 (data : list byte) : Z := fnv32_Write offset32 data.

(** [rand.Int31n(n)] panics unless [0 < n]; the value drawn is
    supplied from outside. *)
Definition Int31n (n : Z) (drawn : Z) : option Z :=
  if n <=? 0 then None else Some (drawn mod n).

(** The partition [Send] selects; [None] is a panic (division by zero,
    or [Int31n] on a non-positive bound). *)
Definition selectPartition (q : localQueue) (partitionKey : option (list byte))
    (drawn : Z) : option Z :=
  match partitionByObject q, partitionKey with
  | true, Some k =>
      let hash := fnv32 k in
      let n := goint.uint32 (numPartitions q) in
      if n =? 0 then None else Some (goint.int32 (hash mod n))
  | _, _ => Int31n (numPartitions q) drawn
  end.

(** Appending to the queue of the consumer of [partitionId] in every
    group; a group without that consumer is a nil dereference. *)
Definition deliver (partitionId : Z) (message : localMessage)
    (cs : gmap string (gmap Z (list localMessage)))
  : option (gmap string (gmap Z (list localMessage))) :=
  if forallb (fun g => bool_decide (is_Some (g.2 !! partitionId))) (map_to_list cs)
  then Some ((fun g : gmap Z (list localMessage) =>
                alter (fun uq => (uq ++ [message])%list) partitionId g) <$> cs)
  else None.

Definition Send (q : localQueue) (partitionKey : option (list byte))
    (value_ : list byte) (drawn : Z) : option localQueue :=
  partition ← selectPartition q partitionKey drawn;
  let offset_ := goint.int64 (offsetCounter q + 1) in
  let message := {| offset := offset_; key := partitionKey; value := value_ |} in
  cs ← deliver partition message (consumers q);
  Some {| partitionByObject := partitionByObject q;
          numPartitions := numPartitions q;
          consumers := cs;
          offsetCounter := offset_ |}.

(** [Start]: every consumer group must have the same number of
    partitions; that number ([-1] without any group) becomes
    [numPartitions]. *)
Definition Start (q : localQueue) : result localQueue :=
  let sizes := (fun g => Z.of_nat (size g.2)) <$> map_to_list (consumers q) in
  match sizes with
  | [] =>
      Ok {| partitionByObject := partitionByObject q;
            numPartitions := goint.int32 (-1);
            consumers := consumers q; offsetCounter := offsetCounter q |}
  | n :: rest =>
      if forallb (Z.eqb n) rest then
        Ok {| partitionByObject := partitionByObject q;
              numPartitions := goint.int32 n;
              consumers := consumers q; offsetCounter := offsetCounter q |}
      else Err "different consumer groups have different partition counts"
  end.

(** [newLocal]: no consumer yet, the partition count unset. *)
Definition newLocal (partitionByObject_ : bool) : localQueue :=
  {| partitionByObject := partitionByObject_;
     numPartitions := 0;
     consumers := ∅;
     offsetCounter := 0 |}.

(** [CreateConsumer]: the group is created on first use; a second
    consumer for the same group and partition is an error (the group is
    there already then, so an error leaves the queue as it was).  The
    arguments formatted into the message are not reproduced. *)
Definition CreateConsumer (q : localQueue) (group : string) (partition : Z)
  : result localQueue :=
  let groupConsumers := default ∅ (consumers q !! group) in
  match groupConsumers !! partition with
  | Some _ => Err "consumer requested multiple times"
  | None =>
      Ok {| partitionByObject := partitionByObject q;
            numPartitions := numPartitions q;
            consumers := <[group := <[partition := []]> groupConsumers]> (consumers q);
            offsetCounter := offsetCounter q |}
  end.

(** The messages queued for one consumer. *)
Definition queued (q : localQueue) (group : string) (partition : Z) : list localMessage :=
  default [] (default ∅ (consumers q !! group) !! partition).

End mqlocal.

(** ** The annotation linker ([pkg/annotationlinker]) *)

Module annotationlinker.

(** The parent pointer decoded from the annotation; the fields are the
    ones [Lookup] reads. *)
Record ParentLink : Type :=
  { Cluster : string;
    GroupVersionResource : util.GroupVersionResource;
    Namespace : string;
    Name : string;
    Uid : string }.

(** The linker with its collaborators: the annotation key (the constant
    [LinkAnnotation], declared outside the sources), the object cache,
    and [json.Unmarshal] into a [ParentLink]. *)
Record controller : Type :=
  { LinkAnnotation : string;
    objectCache_Get : util.ObjectRef -> result (option unstructured.Unstructured);
    Unmarshal_ParentLink : string -> result ParentLink }.

(** What a lookup leaves behind: the parent found (nil: [None]) and the
    objects asked from the cache. *)
Record Looked : Type :=
  { parent : option util.ObjectRef;
    fetched : list util.ObjectRef }.

Definition Lookup (c : controller) (object : util.ObjectRef) : Looked :=
  let resolve (raw : unstructured.Unstructured) : option util.ObjectRef :=
    match unstructured.GetAnnotations raw !! LinkAnnotation c with
    | Some ann =>
        match Unmarshal_ParentLink c ann with
        | Err _ => None
        | Ok ref =>
            let cluster :=
              if String.eqb (Cluster ref) "" then util.Cluster object else Cluster ref in
            Some {| util.Cluster := cluster;
                    util.Gvr :=
                      {| util.Group := util.Group (GroupVersionResource ref);
                         util.Version := util.Version (GroupVersionResource ref);
                         util.Resource := util.Resource (GroupVersionResource ref) |};
                    util.Namespace := Namespace ref;
                    util.Name := Name ref;
                    util.Uid := Uid ref;
                    util.Raw := None |}
        end
    | None => None
    end in
  match util.Raw object with
  | Some raw => {| parent := resolve raw; fetched := [] |}
  | None =>
      match objectCache_Get c object with
      | Err _ => {| parent := None; fetched := [object] |}
      | Ok None => {| parent := None; fetched := [object] |}
      | Ok (Some raw) => {| parent := resolve raw; fetched := [object] |}
      end
  end.

End annotationlinker.

(* ===================================================================== *)
(** * Sample inputs                                                       *)
(* ===================================================================== *)

(** Concrete requests, messages and collaborators on which the
    definitions above are run in Part II. *)

Module sample.

Definition meta (fields : list (string * string)) : unstructured.json :=
  unstructured.JObj (list_to_map ((fun kv => (kv.1, unstructured.JStr kv.2)) <$> fields)).

(** The pod [default/p1] at a given resource version. *)
Definition pod (rv : string) : unstructured.Unstructured :=
  {| unstructured.Object :=
       <["metadata" := meta [("namespace", "default"); ("name", "p1");
                              ("uid", "u-1"); ("resourceVersion", rv)] ]>
         (<["kind" := unstructured.JStr "Pod"]> ∅) |}.

Definition podsGvr : util.GroupVersionResource :=
  {| util.Group := ""; util.Version := "v1"; util.Resource := "pods" |}.

Definition patch (old new : string) : diffcache.Patch :=
  {| diffcache.InformerTime := 0;
     diffcache.OldResourceVersion := old;
     diffcache.NewResourceVersion := new;
     diffcache.Redacted := false;
     diffcache.DiffList :=
       [{| diffcache.JsonPath := "spec.containers.0.image";
           diffcache.Old := unstructured.JStr "a";
           diffcache.New := unstructured.JStr "b" |}] |}.

(** Three patches of [p1], most recent first. *)
Definition patches : list diffcache.Patch :=
  [patch "102" "103"; patch "101" "102"; patch "100" "101"].

(** A diff API over a cache that knows [p1] and lists its most recent
    patches up to the limit asked for. *)
Definition api : diffapi.api :=
  {| diffapi.objectCache_Get := fun _ => Ok (Some (pod "103"));
     diffapi.clusterName := "clusterA";
     diffapi.UseOldResourceVersion := true;
     diffapi.diffCache_Fetch := fun _ _ _ => Ok None;
     diffapi.diffCache_List := fun _ limit => Ok (firstn (Z.to_nat limit) patches) |}.

(** [GET /diff//v1/pods/default/p1?limit=1]. *)
Definition scanLimit1 : gin.Context :=
  {| gin.Params := [("group", ""); ("version", "v1"); ("resource", "pods");
                    ("namespace", "default"); ("name", "p1")];
     gin.QueryValues := [("limit", "1")] |}.

Definition p1Ref (rv : string) : audit.ObjectReference :=
  {| audit.Resource := "pods"; audit.Namespace := "default"; audit.Name := "p1";
     audit.UID := "u-1"; audit.APIGroup := ""; audit.APIVersion := "v1";
     audit.ResourceVersion := rv; audit.Subresource := "" |}.

Definition p1Meta (rv : string) : audit.PartialObjectMetadata :=
  {| audit.PAPIVersion := "v1"; audit.PKind := "Pod"; audit.PNamespace := "default";
     audit.PName := "p1"; audit.PUID := "u-1"; audit.PResourceVersion := rv |}.

(** An audit message on [p1]: verb, stage, the resource version of the
    object reference, and the response status. *)
Definition message (verb stage oldRv : string) (status : option audit.Status)
  : audit.Message :=
  {| audit.AuditID := "a-1"; audit.Stage := stage; audit.Verb := verb;
     audit.User := {| audit.Username := "alice" |};
     audit.ImpersonatedUser := None; audit.UserAgent := "kubectl";
     audit.ObjectRef := Some (p1Ref oldRv);
     audit.ResponseStatus := status;
     audit.ResponseObject := Some {| audit.RawJSON := Some (bytes_of "{}") |};
     audit.RequestReceivedTimestamp := 1704110820 * time.Second;
     audit.StageTimestamp := 1704110821 * time.Second;
     audit.Cluster := "clusterA"; audit.SourceAddr := "10.0.0.1" |}.

Definition ok200 : option audit.Status :=
  Some {| audit.Code := 200; audit.Reason := ""; audit.StatusMessage := "";
          audit.Details := None |}.

Definition conflict409 : option audit.Status :=
  Some {| audit.Code := 409; audit.Reason := "Conflict";
          audit.StatusMessage := "object was modified";
          audit.Details :=
            Some {| audit.Causes :=
                      [{| audit.CauseType := "FieldValueInvalid";
                          audit.CauseMessage := "spec.replicas" |}] |} |}.

Definition quote : string := String (ascii_of_nat 34) EmptyString.

(** [%#v] of a string value: the text in double quotes (the sample
    values need no escapes). *)
Definition goSyntax (v : unstructured.json) : string :=
  match v with
  | unstructured.JStr s => quote +:+ s +:+ quote
  | _ => "?"
  end.

(** A decorator whose response objects decode to [p1] at version
    [responseRv], over a cache that holds the patch of [p1] from 100. *)
Definition diffDecorator (responseRv : string) : decorator.decorator :=
  {| decorator.Unmarshal := fun _ => Ok (Some (p1Meta responseRv));
     decorator.cache_Fetch :=
       fun _ _ oldRv _ => if String.eqb oldRv "100" then Ok (Some (patch "100" "101"))
                          else Ok None;
     decorator.cache_FetchSnapshot := fun _ _ _ => Ok None;
     decorator.GoSyntax := goSyntax;
     decorator.string_of_bytes := string_of_list_byte;
     decorator.retryTicks := fun _ => 2%nat |}.

(** The same decorator over a cache that receives the patch between the
    first and the second attempt. *)
Definition lateDecorator (responseRv : string) : decorator.decorator :=
  {| decorator.Unmarshal := decorator.Unmarshal (diffDecorator responseRv);
     decorator.cache_Fetch :=
       fun i object oldRv newRv =>
         match i with
         | O => Ok None
         | S _ => decorator.cache_Fetch (diffDecorator responseRv) i object oldRv newRv
         end;
     decorator.cache_FetchSnapshot := fun _ _ _ => Ok None;
     decorator.GoSyntax := goSyntax;
     decorator.string_of_bytes := string_of_list_byte;
     decorator.retryTicks := fun _ => 13%nat |}.

Definition blank : event.Event :=
  event.NewEvent "spec" "alice update" (1704110820 * time.Second) "audit".

(** An audit consumer that accepts every event and runs the diff
    decorator. *)
Definition receiver : auditconsumer.receiver :=
  {| auditconsumer.opts :=
       {| auditconsumer.clusterFilter := "";
          auditconsumer.ignoreImpersonate := false;
          auditconsumer.enableSubObject := true |};
     auditconsumer.clock_Now := 1704110822 * time.Second;
     auditconsumer.filter_TestAuditEvent := fun _ => true;
     auditconsumer.Unmarshal_Message := fun _ => Err "unexpected end of JSON input";
     auditconsumer.Unmarshal_Partial := fun _ => Ok (p1Meta "101");
     auditconsumer.Unmarshal_Object := fun _ => Ok ∅;
     auditconsumer.discovery_ForCluster := fun _ => Ok (fun _ => Some podsGvr);
     auditconsumer.decoratorList_Decorate :=
       fun m ev =>
         match decorator.Decorate (diffDecorator "101") m ev with
         | Some (ev', _, _) => Some ev'
         | None => None
         end;
     auditconsumer.StatusText := fun _ => "Conflict" |}.


Definition imageDiff : list diffcache.Diff :=
  [{| diffcache.JsonPath := "spec.containers.0.image";
      diffcache.Old := unstructured.JStr "a";
      diffcache.New := unstructured.JStr "b" |}].

(** A monitor of pods whose redaction pattern matches the objects of
    namespace [kube-system]. *)
Definition podMonitor : diffcontroller.monitor :=
  {| diffcontroller.ctrl :=
       {| diffcontroller.redactRegex_MatchString :=
            fun s => String.prefix "/v1/pods/kube-system/" s;
          diffcontroller.clock_Now := 1704110822 * time.Second;
          diffcontroller.clusterName := "clusterA";
          diffcontroller.diffcmp_Compare := fun _ _ => imageDiff;
          diffcontroller.json_Marshal := fun _ => Ok (bytes_of "{}") |};
     diffcontroller.gvr := podsGvr |}.

Definition trace7 : jaegerhttp.TraceID := {| jaegerhttp.High := 0; jaegerhttp.Low := 1967 |}.

(** A redirect server for [clusterA] over a trace store that holds one
    trace of [pods default/p1], in the half hour from 12:00 on
    2024-01-01. *)
Definition redirectServer : jaegerhttp.server :=
  {| jaegerhttp.clusterList_List := ["clusterA"];
     jaegerhttp.transformConfigs_DefaultName := "tracing";
     jaegerhttp.spanReader_FindTraceIDs :=
       fun q =>
         if (jaegerhttp.StartTimeMin q =? 1704110400 * time.Second)
            && (jaegerhttp.StartTimeMax q =? 1704112200 * time.Second)
            && bool_decide (jaegerhttp.Tags q !! "name" = Some "p1")
         then Ok [trace7] else Ok [] |}.

(** [GET /redirect?cluster=..&resource=pods&namespace=default&name=p1&ts=..]. *)
Definition redirectRequest (cluster ts : string) : gin.Context :=
  {| gin.Params := [];
     gin.QueryValues := [("cluster", cluster); ("resource", "pods");
                         ("namespace", "default"); ("name", "p1"); ("ts", ts)] |}.

(** The leader of the event informer at 12:05:00 on 2024-01-01, its
    watermark loaded as 12:00:00. *)
Definition informer : eventinformer.controller :=
  {| eventinformer.isLeader := 1;
     eventinformer.lastEventTime := 1704110400 * time.Second;
     eventinformer.clock_Now := 1704110700 * time.Second;
     eventinformer.clusterName := "clusterA";
     eventinformer.filter_TestGvk := fun _ _ => true;
     eventinformer.discovery_ForCluster := fun _ => Ok (fun _ => Some podsGvr);
     eventinformer.aggregator_Send := fun _ _ => None |}.

(** An event about [p1] with the given event time and no last
    timestamp. *)
Definition clusterEvent (eventTime : time.Time) : eventinformer.Event :=
  {| eventinformer.EventName := "p1.17a";
     eventinformer.InvolvedObject :=
       {| eventinformer.Kind := "Pod"; eventinformer.APIVersion := "v1";
          eventinformer.Namespace := "default"; eventinformer.Name := "p1";
          eventinformer.UID := "u-1" |};
     eventinformer.EventTime := eventTime;
     eventinformer.LastTimestamp := time.zeroTime;
     eventinformer.Reason := "Pulled";
     eventinformer.SourceComponent := "kubelet";
     eventinformer.Action := "";
     eventinformer.Message := "image pulled" |}.

(** The ConfigMap with a stored timestamp. *)
Definition configMap (timestamp : string) : eventinformer.ConfigMap :=
  {| eventinformer.Data := Some {[ eventinformer.configMapLastEventKey := timestamp ]} |}.

(** 12:00:01.5 and 12:03:20 on 2024-01-01. *)
Definition halfPastOneSecond : time.Time := 1704110401 * time.Second + 500000000.
Definition twelveOhThree : time.Time := 1704110600 * time.Second.

Definition partitions (n : nat) : gmap Z (list mqlocal.localMessage) :=
  list_to_map ((fun i => (Z.of_nat i, [])) <$> seq 0 n).

(** A started queue with one consumer group of eight partitions that
    partitions by object. *)
Definition queue (sent : Z) : mqlocal.localQueue :=
  {| mqlocal.partitionByObject := true;
     mqlocal.numPartitions := 8;
     mqlocal.consumers := {[ "kelemetry" := partitions 8 ]};
     mqlocal.offsetCounter := sent |}.

Definition p1Key : list byte := bytes_of "clusterA/default/p1/u-1".

(** The queue of a process that only produces: [newLocal] with
    partition-by-object set and no consumer created. *)
Definition producerOnly : mqlocal.localQueue :=
  {| mqlocal.partitionByObject := true;
     mqlocal.numPartitions := 0;
     mqlocal.consumers := ∅;
     mqlocal.offsetCounter := 0 |}.

Definition tagKeys : zconstants.TagKeys :=
  {| zconstants.Prefix := "zzz-"; zconstants.SpanName := "zzz-kelemetryName" |}.

Definition tag (key value : string) : tfstep.KeyValue :=
  {| tfstep.Key := key; tfstep.VType := tfstep.StringType; tfstep.VStr := value;
     tfstep.VBool := false; tfstep.VInt64 := 0; tfstep.VFloat64 := 0;
     tfstep.VBinary := [] |}.

Definition span (id : Z) (name : string) (tags : list tfstep.KeyValue) : tfstep.Span :=
  {| tfstep.SpanID := id; tfstep.OperationName := name;
     tfstep.StartTime := 1704110400 * time.Second;
     tfstep.Duration := 30 * time.Minute;
     tfstep.Tags := tags; tfstep.Logs := []; tfstep.Warnings := [] |}.

(** An object span named by its tag, with one child. *)
Definition objectTree : tfstep.SpanTree :=
  tfstep.Node (span 1 "object" [tag "zzz-kelemetryName" "pods/p1"; tag "cluster" "clusterA"])
    [tfstep.Node (span 2 "spec" [tag "zzz-nestLevel" "field"]) []].

(** A single span without tags. *)
Definition bareTree : tfstep.SpanTree := tfstep.Node (span 1 "pod" []) [].

Definition bothSteps : list tfstep.TreeVisitor :=
  tfstep.configured tagKeys [tfstep.StepReplaceName; tfstep.StepPruneTags].

(** A decorator over a cache that receives the deletion snapshot of
    [p1] between the second and the third attempt. *)
Definition snapshotDecorator : decorator.decorator :=
  {| decorator.Unmarshal := fun _ => Ok None;
     decorator.cache_Fetch := fun _ _ _ _ => Ok None;
     decorator.cache_FetchSnapshot :=
       fun i _ snapshotName =>
         if (2 <=? i)%nat && String.eqb snapshotName "deletion"
         then Ok (Some {| diffcache.ResourceVersion := "103";
                          diffcache.SnapRedacted := false;
                          diffcache.Value := Some (bytes_of "{}") |})
         else Ok None;
     decorator.GoSyntax := goSyntax;
     decorator.string_of_bytes := string_of_list_byte;
     decorator.retryTicks := fun _ => 9%nat |}.

(** The update of [p1] as the API server reports it when the request
    names no object: the reference is missing. *)
Definition unnamedUpdate : audit.Message :=
  audit.with_ObjectRef None (message "update" "ResponseComplete" "100" ok200).

(** A tree whose child span carries a name tag. *)
Definition namedTree : tfstep.SpanTree :=
  tfstep.Node (span 1 "object" [tag "zzz-kelemetryName" "pods/p1"; tag "cluster" "clusterA"])
    [tfstep.Node (span 2 "spec" [tag "zzz-kelemetryName" "alice update"]) []].

(** The verbs the API server lists for pods. *)
Definition podsResource : diffcontroller.APIResource :=
  {| diffcontroller.Verbs :=
       ["create"; "delete"; "deletecollection"; "get"; "list"; "patch"; "update"; "watch"];
     diffcontroller.Namespaced := true;
     diffcontroller.APIKind := "Pod" |}.

End sample.

(* ===================================================================== *)
(** * Part II.  Properties                                                *)
(* ===================================================================== *)


(** ** The diff API *)

(** The limit passed to [DiffCache.List] is read from the query key
    ["100"], with 100 as the default: the key ["limit"] is never read. *)
Lemma handleScan_limit_source (a : diffapi.api) (ctx : gin.Context)
    (raw : unstructured.Unstructured) :
  diffapi.objectCache_Get a (diffapi.requestObject ctx) = Ok (Some raw) ->
  diffapi.calls (diffapi.handleScan a ctx) =
    [diffapi.ObjectCacheGet (diffapi.requestObject ctx);
     diffapi.DiffCacheList
       (util.ObjectRefFromUnstructured raw (diffapi.clusterName a) (diffapi.requestGvr ctx))
       (default 100 (gostrings.Atoi (gin.Query ctx "100")))].
Proof.
  intros Hget. unfold diffapi.handleScan. rewrite Hget.
  destruct (gostrings.Atoi (gin.Query ctx "100")) as [n|]; cbn [default];
    destruct (diffapi.diffCache_List a _ _); reflexivity.
Qed.

(** C1 (the code at the failing input).  For the request
    [GET /diff//v1/pods/default/p1?limit=1] on an existing object the
    handler calls [DiffCache.List] with limit 100, not 1, and answers 200
    with all three patches the cache holds. *)
Theorem handleScan_ignores_limit_parameter :
  gin.Query sample.scanLimit1 "limit" = "1"
  /\ diffapi.calls (diffapi.handleScan sample.api sample.scanLimit1) =
       [diffapi.ObjectCacheGet (diffapi.requestObject sample.scanLimit1);
        diffapi.DiffCacheList
          (util.ObjectRefFromUnstructured (sample.pod "103") "clusterA" sample.podsGvr) 100]
  /\ diffapi.response (diffapi.handleScan sample.api sample.scanLimit1) =
       Some (diffapi.JSONList 200 sample.patches).
Proof. split; [reflexivity|]. split; vm_compute; reflexivity. Qed.

(** A request addressed with the key the code reads is limited. *)
Example handleScan_key_100 :
  diffapi.response
    (diffapi.handleScan sample.api
       {| gin.Params := gin.Params sample.scanLimit1; gin.QueryValues := [("100", "1")] |})
  = Some (diffapi.JSONList 200 [sample.patch "102" "103"]).
Proof. vm_compute. reflexivity. Qed.

(** ** The diff decorator *)

Lemma status_not_failed (message : audit.Message) :
  (forall status, audit.ResponseStatus message = Some status -> audit.Code status < 300) ->
  match audit.ResponseStatus message with
  | Some status => if 300 <=? audit.Code status then Some status else None
  | None => None
  end = None.
Proof.
  intros H. destruct (audit.ResponseStatus message) as [st|]; [|reflexivity].
  specialize (H st eq_refl). destruct (Z.leb_spec 300 (audit.Code st)); [lia|reflexivity].
Qed.

(** C2 (amended).  For an update or patch message with a response status
    below 300 (or none), an object reference, and a response object that
    decodes to the resource version of the object reference,
    [tryDecorate] returns at once with outcome [noopUpdate] and no
    error, makes no cache call and observes no retry count, and appends
    exactly one log to the event, the verbose line "No-op update". *)
Theorem noop_update_outcome
    (d : decorator.decorator) (message : audit.Message) (ev : event.Event)
    (ref : audit.ObjectReference) (raw : list byte) (o : audit.PartialObjectMetadata) :
  (audit.Verb message = audit.VerbUpdate \/ audit.Verb message = audit.VerbPatch) ->
  (forall status, audit.ResponseStatus message = Some status -> audit.Code status < 300) ->
  audit.ObjectRef message = Some ref ->
  audit.ResponseObject message = Some {| audit.RawJSON := Some raw |} ->
  decorator.Unmarshal d raw = Ok (Some o) ->
  audit.ResourceVersion ref = audit.PResourceVersion o ->
  decorator.tryDecorate d message ev =
    {| decorator.hit := decorator.cacheHitTypeNoop;
       decorator.error := None;
       decorator.decorated :=
         event.Log zconstants.LogTypeRealVerbose "No-op update" ev;
       decorator.cacheCalls := [];
       decorator.retryHistogram := None |}.
Proof.
  intros Hverb Hst Href Hresp Hdec Hrv.
  unfold decorator.tryDecorate.
  rewrite (status_not_failed _ Hst), Href, Hresp, Hdec, Hrv.
  rewrite String.eqb_refl, andb_true_r.
  destruct Hverb as [-> | ->]; reflexivity.
Qed.

(** The outcome [sameRv] is never returned: its guard inside the verb
    switch is the guard of the earlier [noopUpdate] return. *)
Lemma sameRv_unreachable
    (d : decorator.decorator) (message : audit.Message) (ev : event.Event) :
  decorator.hit (decorator.tryDecorate d message ev) <> decorator.cacheHitTypeSameRv.
Proof.
  unfold decorator.tryDecorate.
  destruct (match audit.ResponseStatus message with
            | Some status => if 300 <=? audit.Code status then Some status else None
            | None => None
            end); [cbn; discriminate|].
  destruct (audit.ObjectRef message) as [ref|]; [|cbn; discriminate].
  destruct (match audit.ResponseObject message with
            | Some {| audit.RawJSON := Some raw |} => decorator.Unmarshal d raw
            | _ => Ok None
            end) as [[o|]|e]; try (cbn; discriminate).
  - destruct (String.eqb (audit.Verb message) audit.VerbUpdate
              || String.eqb (audit.Verb message) audit.VerbPatch) eqn:Hdiff;
      cbn [andb].
    + destruct (String.eqb (audit.ResourceVersion ref) (audit.PResourceVersion o)) eqn:Hrv;
        [cbn; discriminate|].
      destruct (negb (decorator.decoratesResource message)); [cbn; discriminate|].
      destruct (String.eqb (audit.PResourceVersion o) ""); cbn [decorator.hit];
        [destruct (decorator.cacheHit _); discriminate|].
      rewrite Hrv. cbn [decorator.hit]. destruct (decorator.cacheHit _); discriminate.
    + destruct (negb (decorator.decoratesResource message)); [cbn; discriminate|].
      destruct (String.eqb (audit.Verb message) audit.VerbCreate
                || String.eqb (audit.Verb message) audit.VerbDelete);
        [|cbn; discriminate].
      destruct (diffcache.VerbToSnapshotName (audit.Verb message)); cbn [decorator.hit];
        [destruct (decorator.cacheHit _); discriminate | discriminate].
  - rewrite andb_false_r.
    destruct (negb (decorator.decoratesResource message)); [cbn; discriminate|].
    destruct (String.eqb (audit.Verb message) audit.VerbUpdate
              || String.eqb (audit.Verb message) audit.VerbPatch).
    + cbn. destruct (decorator.cacheHit _); discriminate.
    + destruct (String.eqb (audit.Verb message) audit.VerbCreate
                || String.eqb (audit.Verb message) audit.VerbDelete);
        [|cbn; discriminate].
      destruct (diffcache.VerbToSnapshotName (audit.Verb message)); cbn [decorator.hit];
        [destruct (decorator.cacheHit _); discriminate | discriminate].
Qed.

Lemma noop_update_witness :
  decorator.tryDecorate (sample.diffDecorator "100")
    (sample.message "update" "ResponseComplete" "100" sample.ok200) sample.blank =
    {| decorator.hit := decorator.cacheHitTypeNoop;
       decorator.error := None;
       decorator.decorated :=
         event.Log zconstants.LogTypeRealVerbose "No-op update" sample.blank;
       decorator.cacheCalls := [];
       decorator.retryHistogram := None |}.
Proof.
  apply (noop_update_outcome (sample.diffDecorator "100")
           (sample.message "update" "ResponseComplete" "100" sample.ok200) sample.blank
           (sample.p1Ref "100") (bytes_of "{}") (sample.p1Meta "100")).
  - left; reflexivity.
  - intros status H; inversion H; subst; simpl; lia.
  - reflexivity.
  - reflexivity.
  - reflexivity.
  - reflexivity.
Defined.

(** C2 (counterexample).  An update of [p1] whose object reference and
    decoded response both carry resource version 100: the outcome label
    is not [sameRv] (it is [noopUpdate]), and a log is added. *)
Lemma noop_update_not_sameRv :
  audit.Verb (sample.message "update" "ResponseComplete" "100" sample.ok200) = audit.VerbUpdate
  /\ decorator.Unmarshal (sample.diffDecorator "100") (bytes_of "{}")
       = Ok (Some (sample.p1Meta "100"))
  /\ audit.ResourceVersion (sample.p1Ref "100") = audit.PResourceVersion (sample.p1Meta "100")
  /\ ~ (decorator.label
          (decorator.hit
             (decorator.tryDecorate (sample.diffDecorator "100")
                (sample.message "update" "ResponseComplete" "100" sample.ok200)
                sample.blank)) = "sameRv"
        /\ event.Logs
             (decorator.decorated
                (decorator.tryDecorate (sample.diffDecorator "100")
                   (sample.message "update" "ResponseComplete" "100" sample.ok200)
                   sample.blank)) = event.Logs sample.blank).
Proof.
  repeat split; try reflexivity.
  intros [Hlabel _]. vm_compute in Hlabel. discriminate Hlabel.
Qed.

Example noop_update_label_and_logs :
  decorator.label
    (decorator.hit
       (decorator.tryDecorate (sample.diffDecorator "100")
          (sample.message "update" "ResponseComplete" "100" sample.ok200) sample.blank))
  = "noopUpdate"
  /\ event.Logs
       (decorator.decorated
          (decorator.tryDecorate (sample.diffDecorator "100")
             (sample.message "update" "ResponseComplete" "100" sample.ok200) sample.blank))
     = [(zconstants.LogTypeRealVerbose, "No-op update")].
Proof. split; vm_compute; reflexivity. Qed.

(** An update from 100 to 101 whose patch is in the cache: one attempt,
    one diff log, outcome [true]. *)
Example update_diff_hit :
  decorator.label
    (decorator.hit
       (decorator.tryDecorate (sample.diffDecorator "101")
          (sample.message "update" "ResponseComplete" "100" sample.ok200) sample.blank))
  = "true"
  /\ decorator.retryHistogram
       (decorator.tryDecorate (sample.diffDecorator "101")
          (sample.message "update" "ResponseComplete" "100" sample.ok200) sample.blank)
     = Some 1
  /\ event.Logs
       (decorator.decorated
          (decorator.tryDecorate (sample.diffDecorator "101")
             (sample.message "update" "ResponseComplete" "100" sample.ok200) sample.blank))
     = [(zconstants.LogTypeObjectDiff,
         "spec.containers.0.image " +:+ sample.quote +:+ "a" +:+ sample.quote +:+ " -> "
           +:+ sample.quote +:+ "b" +:+ sample.quote +:+ decorator.newline)].
Proof. repeat split; vm_compute; reflexivity. Qed.

(** The audit message arrives before the patch: the decorator retries,
    and the second attempt hits. *)
Example update_diff_hit_on_retry :
  decorator.label
    (decorator.hit
       (decorator.tryDecorate (sample.lateDecorator "101")
          (sample.message "update" "ResponseComplete" "100" sample.ok200) sample.blank))
  = "true"
  /\ decorator.retryHistogram
       (decorator.tryDecorate (sample.lateDecorator "101")
          (sample.message "update" "ResponseComplete" "100" sample.ok200) sample.blank)
     = Some 2
  /\ length
       (decorator.cacheCalls
          (decorator.tryDecorate (sample.lateDecorator "101")
             (sample.message "update" "ResponseComplete" "100" sample.ok200) sample.blank))
     = 2%nat.
Proof. repeat split; vm_compute; reflexivity. Qed.

(** C4.  A patch message that passes the earlier checks (response status
    below 300 or none, object reference present, response object decoded
    or absent, resource versions not equal) makes no cache call, enters
    no polling loop, leaves the event as it is, and returns the outcome
    [filtered]. *)
Theorem patch_is_filtered
    (d : decorator.decorator) (message : audit.Message) (ev : event.Event)
    (ref : audit.ObjectReference) (respObj : option audit.PartialObjectMetadata) :
  audit.Verb message = audit.VerbPatch ->
  (forall status, audit.ResponseStatus message = Some status -> audit.Code status < 300) ->
  audit.ObjectRef message = Some ref ->
  match audit.ResponseObject message with
  | Some {| audit.RawJSON := Some raw |} => decorator.Unmarshal d raw
  | _ => Ok None
  end = Ok respObj ->
  (forall o, respObj = Some o -> audit.ResourceVersion ref <> audit.PResourceVersion o) ->
  decorator.tryDecorate d message ev =
    {| decorator.hit := decorator.cacheHitTypeFiltered;
       decorator.error := None;
       decorator.decorated := ev;
       decorator.cacheCalls := [];
       decorator.retryHistogram := None |}
  /\ decorator.label decorator.cacheHitTypeFiltered = "filtered".
Proof.
  intros Hverb Hst Href Hdec Hrv. split; [|reflexivity].
  unfold decorator.tryDecorate.
  rewrite (status_not_failed _ Hst), Href, Hdec.
  unfold decorator.decoratesResource. rewrite Hverb.
  destruct respObj as [o|].
  - destruct (String.eqb_spec (audit.ResourceVersion ref) (audit.PResourceVersion o)) as [E|_];
      [destruct (Hrv o eq_refl E)|]. reflexivity.
  - reflexivity.
Qed.

Lemma patch_is_filtered_witness :
  decorator.tryDecorate (sample.diffDecorator "101")
    (sample.message "patch" "ResponseComplete" "100" sample.ok200) sample.blank =
    {| decorator.hit := decorator.cacheHitTypeFiltered;
       decorator.error := None;
       decorator.decorated := sample.blank;
       decorator.cacheCalls := [];
       decorator.retryHistogram := None |}
  /\ decorator.label decorator.cacheHitTypeFiltered = "filtered".
Proof.
  apply (patch_is_filtered (sample.diffDecorator "101")
           (sample.message "patch" "ResponseComplete" "100" sample.ok200) sample.blank
           (sample.p1Ref "100") (Some (sample.p1Meta "101"))).
  - reflexivity.
  - intros status H; inversion H; subst; simpl; lia.
  - reflexivity.
  - reflexivity.
  - intros o H; inversion H; subst; simpl; discriminate.
Defined.

(** Logging a list of lines appends them, in order. *)
Lemma Logs_fold_Log {A : Type} (ty : zconstants.LogType) (line : A -> string)
    (l : list A) (ev : event.Event) :
  event.Logs (fold_left (fun ev x => event.Log ty (line x) ev) l ev) =
  (event.Logs ev ++ map (fun x => (ty, line x)) l)%list.
Proof.
  revert ev. induction l as [|x l IH]; intros ev; cbn [fold_left map].
  - now rewrite app_nil_r.
  - rewrite IH. cbn [event.Log event.Logs]. now rewrite <- app_assoc.
Qed.

Lemma Tags_fold_Log {A : Type} (ty : zconstants.LogType) (line : A -> string)
    (l : list A) (ev : event.Event) :
  event.Tags (fold_left (fun ev x => event.Log ty (line x) ev) l ev) = event.Tags ev.
Proof.
  revert ev. induction l as [|x l IH]; intros ev; cbn [fold_left]; [reflexivity|].
  now rewrite IH.
Qed.

(** C10.  For a message whose response status code is at least 300 the
    decorator makes no cache call ([Fetch] or [FetchSnapshot]) and enters
    no polling loop; it appends "reason: message" and then one
    "type: message" line per status cause as error logs, changes nothing
    else of the event's logs and tags, and reports [failedRequest]
    without an error. *)
Theorem failed_request_is_not_looked_up
    (d : decorator.decorator) (message : audit.Message) (ev : event.Event)
    (status : audit.Status) :
  audit.ResponseStatus message = Some status ->
  300 <= audit.Code status ->
  let r := decorator.tryDecorate d message ev in
  decorator.cacheCalls r = []
  /\ decorator.retryHistogram r = None
  /\ decorator.hit r = decorator.cacheHitTypeError
  /\ decorator.label (decorator.hit r) = "failedRequest"
  /\ decorator.error r = None
  /\ event.Logs (decorator.decorated r) =
       (event.Logs ev
          ++ [(zconstants.LogTypeRealError,
               audit.Reason status +:+ ": " +:+ audit.StatusMessage status)]
          ++ map (fun detail =>
                    (zconstants.LogTypeRealError,
                     audit.CauseType detail +:+ ": " +:+ audit.CauseMessage detail))
                 (match audit.Details status with
                  | Some details => audit.Causes details
                  | None => []
                  end))%list
  /\ event.Tags (decorator.decorated r) = event.Tags ev.
Proof.
  intros Hst Hcode r. subst r. unfold decorator.tryDecorate. rewrite Hst.
  destruct (Z.leb_spec 300 (audit.Code status)) as [_|]; [|lia].
  cbn [decorator.cacheCalls decorator.retryHistogram decorator.hit decorator.error
       decorator.decorated decorator.label].
  repeat split; try reflexivity.
  - destruct (audit.Details status) as [details|].
    + rewrite (Logs_fold_Log zconstants.LogTypeRealError
                 (fun detail => audit.CauseType detail +:+ ": " +:+ audit.CauseMessage detail)).
      cbn [event.Log event.Logs]. now rewrite <- app_assoc.
    + cbn [event.Log event.Logs map]. reflexivity.
  - destruct (audit.Details status) as [details|]; [|reflexivity].
    now rewrite (Tags_fold_Log zconstants.LogTypeRealError
                   (fun detail => audit.CauseType detail +:+ ": " +:+ audit.CauseMessage detail)).
Qed.

Lemma failed_request_witness :
  decorator.cacheCalls
    (decorator.tryDecorate (sample.diffDecorator "101")
       (sample.message "update" "ResponseComplete" "100" sample.conflict409) sample.blank) = []
  /\ event.Logs
       (decorator.decorated
          (decorator.tryDecorate (sample.diffDecorator "101")
             (sample.message "update" "ResponseComplete" "100" sample.conflict409)
             sample.blank)) =
       [(zconstants.LogTypeRealError, "Conflict: object was modified");
        (zconstants.LogTypeRealError, "FieldValueInvalid: spec.replicas")].
Proof.
  destruct (failed_request_is_not_looked_up (sample.diffDecorator "101")
              (sample.message "update" "ResponseComplete" "100" sample.conflict409)
              sample.blank
              {| audit.Code := 409; audit.Reason := "Conflict";
                 audit.StatusMessage := "object was modified";
                 audit.Details :=
                   Some {| audit.Causes :=
                             [{| audit.CauseType := "FieldValueInvalid";
                                 audit.CauseMessage := "spec.replicas" |}] |} |}
              eq_refl ltac:(simpl; lia))
    as (Hcalls & _ & _ & _ & _ & Hlogs & _).
  split; [exact Hcalls | exact Hlogs].
Defined.

(** ** The transform pipeline *)

Section transform.

Variable k : zconstants.TagKeys.

Let internal (tag : tfstep.KeyValue) : bool :=
  negb (gostrings.HasPrefix (tfstep.Key tag) (zconstants.Prefix k)).

Lemma removeZconstantKeys_acc (tags acc : list tfstep.KeyValue) :
  fold_left
    (fun newTags tag => if internal tag then (newTags ++ [tag])%list else newTags)
    tags acc = (acc ++ List.filter internal tags)%list.
Proof.
  revert acc. induction tags as [|tag tags IH]; intros acc; cbn [fold_left List.filter].
  - now rewrite app_nil_r.
  - rewrite IH. destruct (internal tag); [|reflexivity].
    now rewrite <- app_assoc.
Qed.

Lemma removeZconstantKeys_filter (tags : list tfstep.KeyValue) :
  tfstep.removeZconstantKeys k tags = List.filter internal tags.
Proof. unfold tfstep.removeZconstantKeys. apply (removeZconstantKeys_acc tags []). Qed.

Lemma filter_filter_same {A : Type} (f : A -> bool) (l : list A) :
  List.filter f (List.filter f l) = List.filter f l.
Proof.
  induction l as [|x l IH]; cbn [List.filter]; [reflexivity|].
  destruct (f x) eqn:E; cbn [List.filter]; [rewrite E; f_equal|]; exact IH.
Qed.

Lemma removeZconstantKeys_idempotent (tags : list tfstep.KeyValue) :
  tfstep.removeZconstantKeys k (tfstep.removeZconstantKeys k tags) =
  tfstep.removeZconstantKeys k tags.
Proof. rewrite !removeZconstantKeys_filter. apply filter_filter_same. Qed.

(** When the name key itself is internal, pruning leaves no name tag. *)
Lemma spanNameTag_pruned_none (tags : list tfstep.KeyValue) :
  gostrings.HasPrefix (zconstants.SpanName k) (zconstants.Prefix k) = true ->
  tfstep.spanNameTag k (List.filter internal tags) = None.
Proof.
  intros Hint. induction tags as [|tag tags IH]; cbn [List.filter]; [reflexivity|].
  destruct (internal tag) eqn:E; [|exact IH].
  cbn [tfstep.spanNameTag].
  destruct (String.eqb_spec (tfstep.Key tag) (zconstants.SpanName k)) as [Hk|_]; [|exact IH].
  unfold internal in E. rewrite Hk, Hint in E. discriminate E.
Qed.

(** A name tag found after pruning is the one found before. *)
Lemma spanNameTag_pruned (tags : list tfstep.KeyValue) (name : string) :
  tfstep.spanNameTag k (tfstep.removeZconstantKeys k tags) = Some name ->
  tfstep.spanNameTag k tags = Some name.
Proof.
  rewrite removeZconstantKeys_filter.
  destruct (gostrings.HasPrefix (zconstants.SpanName k) (zconstants.Prefix k)) eqn:Hint.
  - now rewrite (spanNameTag_pruned_none tags Hint).
  - induction tags as [|tag tags IH]; cbn [List.filter]; [discriminate|].
    cbn [tfstep.spanNameTag].
    destruct (String.eqb_spec (tfstep.Key tag) (zconstants.SpanName k)) as [Hk|Hk].
    + assert (E : internal tag = true) by (unfold internal; now rewrite Hk, Hint).
      rewrite E. cbn [tfstep.spanNameTag]. rewrite Hk, String.eqb_refl. trivial.
    + destruct (internal tag); [|exact IH].
      cbn [tfstep.spanNameTag].
      destruct (String.eqb_spec (tfstep.Key tag) (zconstants.SpanName k)); [contradiction|].
      exact IH.
Qed.

Let pruneLog (log : tfstep.Log) : tfstep.Log :=
  {| tfstep.Timestamp := tfstep.Timestamp log;
     tfstep.Fields := tfstep.removeZconstantKeys k (tfstep.Fields log) |}.

Lemma pruneLogs_idempotent (logs : list tfstep.Log) :
  map pruneLog (map pruneLog logs) = map pruneLog logs.
Proof.
  rewrite map_map. apply map_ext. intros log. unfold pruneLog.
  cbn [tfstep.Timestamp tfstep.Fields].
  now rewrite removeZconstantKeys_idempotent.
Qed.

(** *** One span under a run of steps *)

Let run (isRoot : bool) (steps : list tfstep.Step) (span : tfstep.Span) : tfstep.Span :=
  tfstep.onSpan isRoot (tfstep.configured k steps) span.

Lemma run_snoc (isRoot : bool) (steps : list tfstep.Step) (step : tfstep.Step)
    (span : tfstep.Span) :
  run isRoot (steps ++ [step]) span =
  tfstep.enterExit isRoot (run isRoot steps span) (tfstep.visitorOf k step).
Proof.
  unfold run, tfstep.onSpan, tfstep.configured. rewrite map_app, fold_left_app. reflexivity.
Qed.

Lemma run_cons (isRoot : bool) (step : tfstep.Step) (steps : list tfstep.Step)
    (span : tfstep.Span) :
  run isRoot (step :: steps) span =
  run isRoot steps (tfstep.enterExit isRoot span (tfstep.visitorOf k step)).
Proof. reflexivity. Qed.

(** After a run that prunes, tags and log fields are fixed points of
    pruning. *)
Lemma run_pruned (steps : list tfstep.Step) (span : tfstep.Span) :
  In tfstep.StepPruneTags steps ->
  tfstep.removeZconstantKeys k (tfstep.Tags (run false steps span)) =
    tfstep.Tags (run false steps span)
  /\ map pruneLog (tfstep.Logs (run false steps span)) = tfstep.Logs (run false steps span).
Proof.
  induction steps as [|step steps IH] using rev_ind; [intros []|].
  intros Hin. rewrite run_snoc. destruct step; cbn.
  - apply in_app_or in Hin. destruct Hin as [Hin|[Hin|[]]]; [|discriminate Hin].
    unfold tfstep.ReplaceName_Enter.
    destruct (tfstep.spanNameTag k _); cbn; exact (IH Hin).
  - split; [apply removeZconstantKeys_idempotent | apply pruneLogs_idempotent].
Qed.

(** After a run that replaces names, the name tag (if any is left)
    already is the operation name. *)
Lemma run_named (steps : list tfstep.Step) (span : tfstep.Span) (name : string) :
  In tfstep.StepReplaceName steps ->
  tfstep.spanNameTag k (tfstep.Tags (run false steps span)) = Some name ->
  tfstep.OperationName (run false steps span) = name.
Proof.
  revert name. induction steps as [|step steps IH] using rev_ind; [intros ? []|].
  intros name Hin. rewrite run_snoc. destruct step; cbn.
  - unfold tfstep.ReplaceName_Enter.
    destruct (tfstep.spanNameTag k (tfstep.Tags (run false steps span))) as [n|] eqn:E;
      cbn; rewrite E; [congruence|discriminate].
  - apply in_app_or in Hin. destruct Hin as [Hin|[Hin|[]]]; [|discriminate Hin].
    intros Hfound. apply (IH name Hin). now apply spanNameTag_pruned.
Qed.

Lemma run_fixed_by_step (steps : list tfstep.Step) (span : tfstep.Span) (step : tfstep.Step) :
  In step steps ->
  tfstep.enterExit false (run false steps span) (tfstep.visitorOf k step) =
  run false steps span.
Proof.
  intros Hin. destruct step; cbn.
  - unfold tfstep.ReplaceName_Enter.
    destruct (tfstep.spanNameTag k (tfstep.Tags (run false steps span))) as [n|] eqn:E;
      [|reflexivity].
    rewrite <- (run_named steps span n Hin E).
    now destruct (run false steps span).
  - destruct (run_pruned steps span Hin) as [Ht Hl].
    unfold tfstep.PruneTags_Enter. cbn. fold pruneLog. rewrite Ht, Hl.
    now destruct (run false steps span).
Qed.

(** Below the root a run of steps is idempotent on every span. *)
Lemma run_idempotent (steps : list tfstep.Step) (span : tfstep.Span) :
  run false steps (run false steps span) = run false steps span.
Proof.
  assert (H : forall more, incl more steps ->
              run false more (run false steps span) = run false steps span).
  { induction more as [|step more IH]; intros Hincl; [reflexivity|].
    rewrite run_cons.
    rewrite (run_fixed_by_step steps span step (Hincl step (or_introl eq_refl))).
    apply IH. intros x Hx. apply Hincl. now right. }
  apply H, incl_refl.
Qed.

(** The root flag and the operation name only ever reach the
    operation name. *)
Let clear (span : tfstep.Span) : tfstep.Span := tfstep.with_OperationName "" span.

Lemma clear_step (isRoot : bool) (step : tfstep.Step) (span : tfstep.Span) :
  clear (tfstep.enterExit isRoot span (tfstep.visitorOf k step)) =
  clear (tfstep.enterExit false (clear span) (tfstep.visitorOf k step)).
Proof.
  destruct step; cbn.
  - unfold tfstep.ReplaceName_Enter. cbn.
    destruct (tfstep.spanNameTag k (tfstep.Tags span)); destruct isRoot; reflexivity.
  - reflexivity.
Qed.

Lemma clear_run (isRoot : bool) (steps : list tfstep.Step) (span : tfstep.Span) :
  clear (run isRoot steps span) = clear (run false steps (clear span)).
Proof.
  revert isRoot span.
  induction steps as [|step steps IH]; intros isRoot span; [reflexivity|].
  rewrite !run_cons.
  rewrite (IH isRoot), (IH false (tfstep.enterExit false (clear span) (tfstep.visitorOf k step))).
  now rewrite clear_step.
Qed.

Lemma clear_run_twice (steps : list tfstep.Step) (span : tfstep.Span) :
  clear (run true steps (run true steps span)) = clear (run true steps span).
Proof.
  rewrite clear_run, (clear_run true steps span).
  rewrite <- (clear_run false steps (run false steps (clear span))).
  now rewrite run_idempotent.
Qed.

(** *** Whole trees *)

Lemma SpanTree_rect_Forall (P : tfstep.SpanTree -> Prop) :
  (forall span children, Forall P children -> P (tfstep.Node span children)) ->
  forall t, P t.
Proof.
  intros step. fix self 1. intros [span children]. apply step.
  induction children as [|c cs IH]; constructor; [apply self | exact IH].
Qed.

Lemma visitAll_Node (isRoot : bool) (vs : list tfstep.TreeVisitor)
    (span : tfstep.Span) (children : list tfstep.SpanTree) :
  tfstep.visitAll isRoot vs (tfstep.Node span children) =
  tfstep.Node (tfstep.onSpan isRoot vs span) (map (tfstep.visitAll false vs) children).
Proof.
  revert span children. induction vs as [|v vs IH]; intros span children.
  - cbn. now rewrite map_id.
  - change (tfstep.visitAll isRoot (v :: vs) (tfstep.Node span children))
      with (tfstep.visitAll isRoot vs (tfstep.visit v isRoot (tfstep.Node span children))).
    cbn [tfstep.visit]. rewrite IH, map_map. reflexivity.
Qed.

Lemma visitAll_idempotent_below_root (steps : list tfstep.Step) (t : tfstep.SpanTree) :
  tfstep.visitAll false (tfstep.configured k steps)
    (tfstep.visitAll false (tfstep.configured k steps) t) =
  tfstep.visitAll false (tfstep.configured k steps) t.
Proof.
  induction t as [span children IH] using SpanTree_rect_Forall.
  rewrite !visitAll_Node. f_equal.
  - apply run_idempotent.
  - rewrite map_map. apply map_ext_in. intros c Hc.
    rewrite Forall_forall in IH. apply IH. now apply list_elem_of_In.
Qed.

(** C3 (amended).  For every pipeline made of the ReplaceName and
    PruneTags steps and every span tree, running the pipeline twice
    gives the same tree as running it once, the operation name of the
    root set aside: the tags and logs of every span and the operation
    name of every span below the root are the same. *)
Theorem pipeline_idempotent_but_root_name
    (steps : list tfstep.Step) (t : tfstep.SpanTree) :
  tfstep.forgetRootName
    (tfstep.pipeline (tfstep.configured k steps)
       (tfstep.pipeline (tfstep.configured k steps) t)) =
  tfstep.forgetRootName (tfstep.pipeline (tfstep.configured k steps) t).
Proof.
  destruct t as [span children].
  change (tfstep.pipeline (tfstep.configured k steps))
    with (tfstep.visitAll true (tfstep.configured k steps)).
  rewrite !visitAll_Node. cbn [tfstep.forgetRootName]. f_equal.
  - apply clear_run_twice.
  - rewrite map_map. apply map_ext. intros c. apply visitAll_idempotent_below_root.
Qed.

End transform.

(** C3 (counterexample).  On a single span named "pod", the pipeline of
    ReplaceName then PruneTags appends the time range of the root once
    per run, so the second run changes the tree. *)
Lemma pipeline_not_idempotent :
  tfstep.rootName (tfstep.pipeline sample.bothSteps sample.bareTree) = "pod / 12:00..12:30"
  /\ tfstep.rootName
       (tfstep.pipeline sample.bothSteps (tfstep.pipeline sample.bothSteps sample.bareTree))
     = "pod / 12:00..12:30 / 12:00..12:30"
  /\ tfstep.pipeline sample.bothSteps (tfstep.pipeline sample.bothSteps sample.bareTree)
     <> tfstep.pipeline sample.bothSteps sample.bareTree.
Proof.
  split; [vm_compute; reflexivity|]. split; [vm_compute; reflexivity|].
  intros H. apply (f_equal tfstep.rootName) in H. vm_compute in H. discriminate H.
Qed.

(** ** The audit consumer *)

Lemma Has_In (set : list string) (item : string) :
  auditconsumer.Has set item = true <-> In item set.
Proof.
  unfold auditconsumer.Has. rewrite existsb_exists. split.
  - intros (x & Hx & E). apply String.eqb_eq in E. now subst.
  - intros H. exists item. split; [exact H | apply String.eqb_refl].
Qed.

(** C5.  A message whose stage is not ResponseComplete, or whose verb is
    not one of create, update, patch and delete, is returned from
    without an event being built and without a call of Aggregator.Send
    (and the metric keeps HasTrace false). *)
Theorem handleItem_skips_stage_and_verb
    (recv : auditconsumer.receiver) (message : audit.Message) :
  audit.Stage message <> audit.StageResponseComplete
  \/ ~ In (audit.Verb message)
         [audit.VerbCreate; audit.VerbUpdate; audit.VerbPatch; audit.VerbDelete] ->
  auditconsumer.built (auditconsumer.handleItem recv message) = None
  /\ auditconsumer.sends (auditconsumer.handleItem recv message) = []
  /\ auditconsumer.HasTrace (auditconsumer.handleItem recv message) = false.
Proof.
  intros H. unfold auditconsumer.handleItem.
  destruct (auditconsumer.Has auditconsumer.supportedVerbs (audit.Verb message)) eqn:Hverb;
    cbn [negb]; [|repeat split].
  destruct (String.eqb_spec (audit.Stage message) audit.StageResponseComplete) as [Hstage|_];
    cbn [negb]; [|repeat split].
  exfalso. destruct H as [H|H]; [exact (H Hstage)|].
  apply H. apply Has_In in Hverb. cbn in Hverb |- *. tauto.
Qed.

Lemma handleItem_skips_witness :
  auditconsumer.built
    (auditconsumer.handleItem sample.receiver
       (sample.message "update" "RequestReceived" "100" sample.ok200)) = None
  /\ auditconsumer.sends
       (auditconsumer.handleItem sample.receiver
          (sample.message "update" "RequestReceived" "100" sample.ok200)) = []
  /\ auditconsumer.HasTrace
       (auditconsumer.handleItem sample.receiver
          (sample.message "update" "RequestReceived" "100" sample.ok200)) = false.
Proof.
  apply (handleItem_skips_stage_and_verb sample.receiver
           (sample.message "update" "RequestReceived" "100" sample.ok200)).
  left. cbn. discriminate.
Defined.

(** The same message at stage ResponseComplete is sent on. *)
Example handleItem_sends_response_complete :
  length (auditconsumer.sends
            (auditconsumer.handleItem sample.receiver
               (sample.message "update" "ResponseComplete" "100" sample.ok200))) = 1%nat
  /\ auditconsumer.HasTrace
       (auditconsumer.handleItem sample.receiver
          (sample.message "update" "ResponseComplete" "100" sample.ok200)) = true.
Proof. split; vm_compute; reflexivity. Qed.

(** ** The diff controller *)


Lemma storedPatches_onNeedSnapshot (m : diffcontroller.monitor)
    (obj : unstructured.Unstructured) (name : string) :
  diffcontroller.storedPatches (diffcontroller.onNeedSnapshot m obj name) = [].
Proof. reflexivity. Qed.



(** A pod without the label and outside the pattern gets the structural
    diff. *)
Example onUpdate_plain_pod :
  diffcontroller.storedPatches
    (diffcontroller.onUpdate sample.podMonitor (sample.pod "100") (sample.pod "101")) =
  [{| diffcache.InformerTime := 1704110822 * time.Second;
      diffcache.OldResourceVersion := "100";
      diffcache.NewResourceVersion := "101";
      diffcache.Redacted := false;
      diffcache.DiffList := sample.imageDiff |}].
Proof. vm_compute. reflexivity. Qed.

(** ** The redirect server *)

Lemma length_eqb_0 (s : string) : (String.length s =? 0)%nat = true <-> s = "".
Proof.
  destruct s; cbn; split; intros H; try reflexivity; discriminate H.
Qed.

Lemma hasCluster_acc (cluster : string) (known : list string) (acc : bool) :
  fold_left
    (fun has knownCluster =>
       if gostrings.EqualFold (gostrings.ToLower knownCluster) (gostrings.ToLower cluster)
       then true else has) known acc = true
  <-> acc = true
      \/ exists k, In k known
           /\ gostrings.EqualFold (gostrings.ToLower k) (gostrings.ToLower cluster) = true.
Proof.
  revert acc. induction known as [|k known IH]; intros acc; cbn [fold_left].
  - split; [tauto | intros [H|(k & [] & _)]; exact H].
  - rewrite IH. split.
    + intros [H|(k' & Hin & Hk')].
      * destruct (gostrings.EqualFold _ _) eqn:E; [right; exists k | left; exact H].
        split; [now left | exact E].
      * right. exists k'. split; [now right | exact Hk'].
    + intros [H|(k' & [->|Hin] & Hk')].
      * left. rewrite H. now destruct (gostrings.EqualFold _ _).
      * left. now rewrite Hk'.
      * right. exists k'. split; assumption.
Qed.

(** A cluster is known when some listed name equals it up to letter case. *)
Lemma hasCluster_spec (s : jaegerhttp.server) (cluster : string) :
  jaegerhttp.hasCluster s cluster = true <->
  exists k, In k (jaegerhttp.clusterList_List s)
    /\ gostrings.EqualFold (gostrings.ToLower k) (gostrings.ToLower cluster) = true.
Proof.
  unfold jaegerhttp.hasCluster. rewrite hasCluster_acc. split.
  - intros [H|H]; [discriminate H | exact H].
  - intros H. now right.
Qed.

(** [Truncate] to half hours: the bucket contains the instant. *)
Lemma Truncate_bucket (t : time.Time) :
  time.Truncate t (time.Minute * 30) <= t
  < time.Add (time.Truncate t (time.Minute * 30)) (time.Minute * 30).
Proof.
  unfold time.Truncate, time.Add.
  change (time.Minute * 30 <=? 0) with false. cbv iota.
  pose proof (Z.mod_pos_bound (t - time.zeroTime) (time.Minute * 30) eq_refl). lia.
Qed.

(** C7 (amended).  [GET /redirect] answers 400 when cluster, resource or
    name is empty; otherwise 404 when the cluster is not a listed one;
    otherwise 400 when [ts] does not parse as RFC 3339.  Otherwise it
    searches the trace store once, for the cluster as operation and the
    object as tags, over the half hour [truncate(ts, 30m),
    truncate(ts, 30m) + 30m) that contains [ts], and answers 302 to
    /trace/<id> on exactly one trace id, 200 with a one-span empty trace
    on none, 500 on more than one or on a failed search. *)
Theorem redirect_answers (s : jaegerhttp.server) (ctx : gin.Context) :
  let cluster := gin.Query ctx "cluster" in
  let resource := gin.Query ctx "resource" in
  let namespace := gin.Query ctx "namespace" in
  let name := gin.Query ctx "name" in
  let o := jaegerhttp.handleGet s ctx in
  ((cluster = "" \/ resource = "" \/ name = "") ->
     jaegerhttp.responseStatus o = 400 /\ jaegerhttp.searches o = [])
  /\ (cluster <> "" -> resource <> "" -> name <> "" ->
      (jaegerhttp.hasCluster s cluster = false ->
         jaegerhttp.responseStatus o = 404 /\ jaegerhttp.searches o = [])
      /\ (jaegerhttp.hasCluster s cluster = true ->
          (time.Parse_RFC3339 (gin.Query ctx "ts") = None ->
             jaegerhttp.responseStatus o = 400 /\ jaegerhttp.searches o = [])
          /\ (forall t, time.Parse_RFC3339 (gin.Query ctx "ts") = Some t ->
              exists q,
                jaegerhttp.searches o = [q]
                /\ jaegerhttp.OperationName q = cluster
                /\ jaegerhttp.Tags q !! "resource" = Some resource
                /\ jaegerhttp.Tags q !! "name" = Some name
                /\ jaegerhttp.Tags q !! "namespace" =
                     (if String.eqb namespace "" then None else Some namespace)
                /\ jaegerhttp.StartTimeMin q = time.Truncate t (time.Minute * 30)
                /\ jaegerhttp.StartTimeMax q =
                     time.Add (jaegerhttp.StartTimeMin q) (time.Minute * 30)
                /\ jaegerhttp.StartTimeMin q <= t < jaegerhttp.StartTimeMax q
                /\ match jaegerhttp.spanReader_FindTraceIDs s q with
                   | Ok [traceID] =>
                       jaegerhttp.responseStatus o = 302
                       /\ jaegerhttp.written o =
                            Some (jaegerhttp.Redirect 302
                                    ("/trace/" +:+ jaegerhttp.TraceID_String traceID))
                   | Ok [] =>
                       jaegerhttp.responseStatus o = 200
                       /\ exists span,
                            jaegerhttp.written o =
                              Some (jaegerhttp.JSON 200 {| jaegerhttp.Spans := [span] |})
                            /\ jaegerhttp.Warnings span = ["no events found"]
                   | Ok (_ :: _ :: _) => jaegerhttp.responseStatus o = 500
                   | Err _ => jaegerhttp.responseStatus o = 500
                   end))).
Proof.
  intros cluster resource namespace name o. subst o.
  unfold jaegerhttp.handleGet.
  fold cluster resource namespace name.
  split.
  - intros H.
    assert (E : (String.length cluster =? 0)%nat || (String.length resource =? 0)%nat
                || (String.length name =? 0)%nat = true).
    { rewrite !orb_true_iff, !length_eqb_0. tauto. }
    rewrite E. split; reflexivity.
  - intros Hc Hr Hn.
    assert (E : (String.length cluster =? 0)%nat || (String.length resource =? 0)%nat
                || (String.length name =? 0)%nat = false).
    { apply not_true_is_false. rewrite !orb_true_iff, !length_eqb_0. tauto. }
    rewrite E. split.
    + intros Hunknown. rewrite Hunknown. split; reflexivity.
    + intros Hknown. rewrite Hknown. cbn [negb]. split.
      * intros Hts. rewrite Hts. split; reflexivity.
      * intros t Hts. rewrite Hts. eexists. split.
        { destruct (jaegerhttp.spanReader_FindTraceIDs s _) as [[|id [|id' ids]]|e];
            reflexivity. }
        cbn [jaegerhttp.OperationName jaegerhttp.Tags jaegerhttp.StartTimeMin
             jaegerhttp.StartTimeMax].
        split; [reflexivity|].
        split.
        { destruct (String.eqb namespace ""); cbn [negb]; now simplify_map_eq. }
        split.
        { destruct (String.eqb namespace ""); cbn [negb]; now simplify_map_eq. }
        split.
        { destruct (String.eqb namespace ""); cbn [negb]; now simplify_map_eq. }
        split; [reflexivity|]. split; [reflexivity|].
        split; [apply Truncate_bucket|].
        destruct (jaegerhttp.spanReader_FindTraceIDs s _) as [[|id [|id' ids]]|e].
        -- split; [reflexivity|]. eexists. split; reflexivity.
        -- split; reflexivity.
        -- reflexivity.
        -- reflexivity.
Qed.

Lemma redirect_answers_witness :
  jaegerhttp.responseStatus
    (jaegerhttp.handleGet sample.redirectServer
       (sample.redirectRequest "clusterA" "2024-01-01T12:07:00Z")) = 302
  /\ jaegerhttp.written
       (jaegerhttp.handleGet sample.redirectServer
          (sample.redirectRequest "clusterA" "2024-01-01T12:07:00Z")) =
     Some (jaegerhttp.Redirect 302 "/trace/00000000000007af").
Proof.
  destruct (redirect_answers sample.redirectServer
              (sample.redirectRequest "clusterA" "2024-01-01T12:07:00Z")) as [_ H].
  destruct (H ltac:(discriminate) ltac:(discriminate) ltac:(discriminate)) as [_ Hknown].
  destruct (Hknown eq_refl) as [_ Hparsed].
  destruct (Hparsed (1704110820 * time.Second) eq_refl)
    as (q & Hq & _ & _ & _ & _ & _ & _ & _ & Hfound).
  vm_compute in Hq. injection Hq as <-.
  exact Hfound.
Defined.

(** C7 (counterexample).  With the cluster unknown and [ts] not a
    timestamp, the answer is 404, not 400: the cluster is looked up
    before [ts] is parsed. *)
Lemma redirect_unknown_cluster_before_timestamp :
  gin.Query (sample.redirectRequest "clusterB" "yesterday") "cluster" = "clusterB"
  /\ gin.Query (sample.redirectRequest "clusterB" "yesterday") "resource" = "pods"
  /\ gin.Query (sample.redirectRequest "clusterB" "yesterday") "name" = "p1"
  /\ time.Parse_RFC3339 (gin.Query (sample.redirectRequest "clusterB" "yesterday") "ts") = None
  /\ jaegerhttp.responseStatus
       (jaegerhttp.handleGet sample.redirectServer
          (sample.redirectRequest "clusterB" "yesterday")) = 404
  /\ ~ jaegerhttp.responseStatus
         (jaegerhttp.handleGet sample.redirectServer
            (sample.redirectRequest "clusterB" "yesterday")) = 400.
Proof.
  repeat split; try reflexivity. vm_compute. discriminate.
Qed.

(** No trace in the bucket: 200 with the synthetic empty trace. *)
Example redirect_no_trace :
  jaegerhttp.written
    (jaegerhttp.handleGet sample.redirectServer
       (sample.redirectRequest "clustera" "2024-01-01T13:07:00Z")) =
  Some (jaegerhttp.JSON 200
          {| jaegerhttp.Spans :=
               [{| jaegerhttp.StartTime := 1704114420000000;
                   jaegerhttp.Duration := 1800000000;
                   jaegerhttp.SpanTags :=
                     [{| jaegerhttp.Key := "cluster"; jaegerhttp.Value := "clustera" |};
                      {| jaegerhttp.Key := "resource"; jaegerhttp.Value := "pods" |};
                      {| jaegerhttp.Key := "namespace"; jaegerhttp.Value := "default" |};
                      {| jaegerhttp.Key := "name"; jaegerhttp.Value := "p1" |}];
                   jaegerhttp.Warnings := ["no events found"] |}] |}).
Proof. vm_compute. reflexivity. Qed.

(** ** The event informer *)

Lemma Truncate_Second (t : time.Time) :
  time.Truncate t time.Second = t - t mod time.Second.
Proof.
  unfold time.Truncate. change (time.Second <=? 0) with false. cbv iota.
  f_equal. unfold time.zeroTime.
  replace (t - -62135596800 * time.Second) with (t + 62135596800 * time.Second) by lia.
  apply Z_mod_plus_full.
Qed.

Lemma Truncate_Second_le (t : time.Time) : time.Truncate t time.Second <= t.
Proof.
  rewrite Truncate_Second. pose proof (Z.mod_pos_bound t time.Second eq_refl). lia.
Qed.

Lemma Truncate_Second_whole (t : time.Time) :
  time.Truncate t time.Second mod time.Second = 0.
Proof.
  rewrite Truncate_Second.
  rewrite Zminus_mod, Z.mod_mod, Z.sub_diag by discriminate. reflexivity.
Qed.

(** A whole second before [t] is not after [t] cut to the second. *)
Lemma whole_second_below (w t : time.Time) :
  w mod time.Second = 0 -> w < t -> w <= time.Truncate t time.Second.
Proof.
  intros Hw Hlt. rewrite Truncate_Second.
  pose proof (Z.mod_pos_bound t time.Second eq_refl) as Hr.
  pose proof (Z.div_mod t time.Second ltac:(discriminate)) as Ht.
  pose proof (Z.div_mod w time.Second ltac:(discriminate)) as Hwd.
  rewrite Hw in Hwd.
  assert (w / time.Second <= t / time.Second) by (apply Z.div_le_mono; [reflexivity|lia]).
  unfold time.Second in *. nia.
Qed.

Section watermark.

(** The event times that survive a round trip through the stored text,
    to the second: all those of the years 0 to 9999. *)
Let roundtrips (t : time.Time) : Prop :=
  time.Parse_RFC3339 (time.Format_RFC3339 t) = Some (time.Truncate t time.Second).

Lemma watermark_set (m : gmap string string) (text : string) :
  eventinformer.watermark
    {| eventinformer.Data := Some (<[eventinformer.configMapLastEventKey := text]> m) |}
  = time.Parse_RFC3339 text.
Proof.
  unfold eventinformer.watermark, eventinformer.get. cbn [eventinformer.Data].
  now rewrite lookup_insert_eq.
Qed.

(** One updater on a ConfigMap with a map: what it stores. *)
Lemma updater_step (m : gmap string string) (t : time.Time) :
  roundtrips t ->
  exists m',
    eventinformer.updater t {| eventinformer.Data := Some m |} =
      Some {| eventinformer.Data := Some m' |}
    /\ eventinformer.watermark {| eventinformer.Data := Some m' |} =
         match eventinformer.watermark {| eventinformer.Data := Some m |} with
         | Some w => if w <? t then Some (time.Truncate t time.Second) else Some w
         | None => Some (time.Truncate t time.Second)
         end.
Proof.
  intros Hrt. unfold eventinformer.updater.
  change (time.Parse_RFC3339
            (eventinformer.get {| eventinformer.Data := Some m |}
               eventinformer.configMapLastEventKey))
    with (eventinformer.watermark {| eventinformer.Data := Some m |}).
  destruct (eventinformer.watermark {| eventinformer.Data := Some m |}) as [w|] eqn:Ew.
  - unfold time.Before. destruct (w <? t).
    + eexists. split; [reflexivity|]. now rewrite watermark_set.
    + exists m. split; [reflexivity | exact Ew].
  - eexists. split; [reflexivity|]. now rewrite watermark_set.
Qed.

(** The updaters of a list of event times, applied in order. *)
Lemma updaters_monotone (ts : list time.Time) (m : gmap string string) :
  Forall roundtrips ts ->
  (forall w, eventinformer.watermark {| eventinformer.Data := Some m |} = Some w ->
             w mod time.Second = 0) ->
  exists m',
    eventinformer.applyUpdaters (map eventinformer.updater ts)
      {| eventinformer.Data := Some m |} = Some {| eventinformer.Data := Some m' |}
    /\ (forall w, eventinformer.watermark {| eventinformer.Data := Some m' |} = Some w ->
                  w mod time.Second = 0)
    /\ (forall w, eventinformer.watermark {| eventinformer.Data := Some m |} = Some w ->
          exists w', eventinformer.watermark {| eventinformer.Data := Some m' |} = Some w'
                     /\ w <= w')
    /\ (forall t, In t ts ->
          exists w', eventinformer.watermark {| eventinformer.Data := Some m' |} = Some w'
                     /\ time.Truncate t time.Second <= w').
Proof.
  revert m. induction ts as [|t ts IH]; intros m Hrt Hwhole.
  - exists m. cbn. repeat split; [exact Hwhole | eauto with zarith | intros ? []].
  - inversion Hrt as [|? ? Ht Hts]; subst.
    destruct (updater_step m t Ht) as (m1 & Hstep & Hw1).
    assert (Hwhole1 : forall w,
               eventinformer.watermark {| eventinformer.Data := Some m1 |} = Some w ->
               w mod time.Second = 0).
    { intros w Hw. rewrite Hw1 in Hw.
      destruct (eventinformer.watermark {| eventinformer.Data := Some m |}) as [w0|] eqn:E0.
      - destruct (w0 <? t); injection Hw as <-;
          [apply Truncate_Second_whole | now apply Hwhole].
      - injection Hw as <-. apply Truncate_Second_whole. }
    destruct (IH m1 Hts Hwhole1) as (m' & Happly & Hwhole' & Hmono & Hcover).
    exists m'. cbn [map eventinformer.applyUpdaters]. rewrite Hstep.
    split; [exact Happly|]. split; [exact Hwhole'|]. split.
    + intros w Hw. rewrite Hw in Hw1.
      destruct (Z.ltb_spec w t) as [Hlt|Hge].
      * destruct (Hmono _ Hw1) as (w' & Hw' & Hle). exists w'. split; [exact Hw'|].
        pose proof (whole_second_below w t (Hwhole w Hw) Hlt). lia.
      * exact (Hmono _ Hw1).
    + intros t' [<-|Hin]; [|exact (Hcover t' Hin)].
      destruct (eventinformer.watermark {| eventinformer.Data := Some m |}) as [w|] eqn:Ew.
      * destruct (Z.ltb_spec w t) as [Hlt|Hge].
        -- exact (Hmono _ Hw1).
        -- destruct (Hmono _ Hw1) as (w' & Hw' & Hle). exists w'. split; [exact Hw'|].
           pose proof (Truncate_Second_le t). lia.
      * exact (Hmono _ Hw1).
Qed.

(** C8 (amended).  (1) An event of the leader that has a timestamp [T]
    not before the loaded watermark and at most five minutes old
    enqueues exactly the updater of [T].  (2) That updater leaves the
    ConfigMap alone when the stored timestamp parses and is not earlier
    than [T].  (3) On a ConfigMap with a data map whose stored
    timestamp is unparsable or a whole second, applying the updaters
    of any list of event times succeeds, never lowers the watermark,
    and leaves it no lower than each [T] cut to the whole second (the
    stored form has no fraction of a second).  (4) An event of the
    leader whose timestamp is earlier than the loaded watermark is
    dropped with outcome BeforeRestart, nothing enqueued and nothing
    sent. *)
Theorem watermark_is_monotone :
  (forall (c : eventinformer.controller) (ev : eventinformer.Event),
      let T := if time.IsZero (eventinformer.EventTime ev)
               then eventinformer.LastTimestamp ev else eventinformer.EventTime ev in
      eventinformer.isLeader c <> 0 ->
      time.IsZero T = false ->
      eventinformer.lastEventTime c <= T ->
      time.Sub (eventinformer.clock_Now c) T <= time.Minute * 5 ->
      eventinformer.enqueued (eventinformer.handleEvent c ev) = [eventinformer.updater T])
  /\ (forall (cm : eventinformer.ConfigMap) (T w : time.Time),
        eventinformer.watermark cm = Some w -> T <= w ->
        eventinformer.updater T cm = Some cm)
  /\ (forall (m : gmap string string) (ts : list time.Time),
        Forall (fun t => time.Parse_RFC3339 (time.Format_RFC3339 t)
                         = Some (time.Truncate t time.Second)) ts ->
        (forall w, eventinformer.watermark {| eventinformer.Data := Some m |} = Some w ->
                   w mod time.Second = 0) ->
        exists cm',
          eventinformer.applyUpdaters (map eventinformer.updater ts)
            {| eventinformer.Data := Some m |} = Some cm'
          /\ (forall w,
                eventinformer.watermark {| eventinformer.Data := Some m |} = Some w ->
                exists w', eventinformer.watermark cm' = Some w' /\ w <= w')
          /\ (forall t, In t ts ->
                exists w', eventinformer.watermark cm' = Some w'
                           /\ time.Truncate t time.Second <= w'))
  /\ (forall (c : eventinformer.controller) (ev : eventinformer.Event),
        let T := if time.IsZero (eventinformer.EventTime ev)
                 then eventinformer.LastTimestamp ev else eventinformer.EventTime ev in
        eventinformer.isLeader c <> 0 ->
        time.IsZero T = false ->
        T < eventinformer.lastEventTime c ->
        eventinformer.enqueued (eventinformer.handleEvent c ev) = []
        /\ eventinformer.sends (eventinformer.handleEvent c ev) = []
        /\ eventinformer.Error <$> eventinformer.metric (eventinformer.handleEvent c ev)
           = Some (Some "BeforeRestart")).
Proof.
  split; [|split; [|split]].
  - intros c ev T Hleader Hnz Hle Hage. subst T.
    unfold eventinformer.handleEvent.
    destruct (Z.eqb_spec (eventinformer.isLeader c) 0) as [E|_]; [contradiction|].
    destruct (time.IsZero (eventinformer.EventTime ev)); cbv zeta iota beta;
      rewrite Hnz; unfold time.Before;
      rewrite (proj2 (Z.ltb_ge _ _) Hle), (proj2 (Z.ltb_ge _ _) Hage);
      (destruct (negb _); [reflexivity|]);
      (destruct (eventinformer.discovery_ForCluster c _) as [cdc|]; [|reflexivity]);
      (destruct (cdc _); [|reflexivity]);
      destruct (eventinformer.aggregator_Send c _ _); reflexivity.
  - intros cm T w Hw Hle. unfold eventinformer.updater.
    change (time.Parse_RFC3339 (eventinformer.get cm eventinformer.configMapLastEventKey))
      with (eventinformer.watermark cm).
    rewrite Hw. unfold time.Before.
    destruct (Z.ltb_spec w T); [lia | reflexivity].
  - intros m ts Hrt Hwhole.
    destruct (updaters_monotone ts m Hrt Hwhole) as (m' & Happly & _ & Hmono & Hcover).
    eexists. split; [exact Happly|]. split; assumption.
  - intros c ev T Hleader Hnz Hlt. subst T.
    unfold eventinformer.handleEvent.
    destruct (Z.eqb_spec (eventinformer.isLeader c) 0) as [E|_]; [contradiction|].
    destruct (time.IsZero (eventinformer.EventTime ev)); cbv zeta iota beta;
      rewrite Hnz; unfold time.Before;
      rewrite (proj2 (Z.ltb_lt _ _) Hlt); repeat split.
Qed.

End watermark.

Lemma watermark_is_monotone_witness :
  eventinformer.enqueued
    (eventinformer.handleEvent sample.informer (sample.clusterEvent sample.twelveOhThree))
  = [eventinformer.updater sample.twelveOhThree]
  /\ eventinformer.updater sample.halfPastOneSecond (sample.configMap "2024-01-01T12:03:20Z")
     = Some (sample.configMap "2024-01-01T12:03:20Z")
  /\ (exists cm',
        eventinformer.applyUpdaters
          (map eventinformer.updater [sample.twelveOhThree; sample.halfPastOneSecond])
          (sample.configMap "2024-01-01T12:00:00Z") = Some cm'
        /\ (exists w', eventinformer.watermark cm' = Some w'
                       /\ 1704110400 * time.Second <= w')
        /\ (exists w', eventinformer.watermark cm' = Some w'
                       /\ time.Truncate sample.halfPastOneSecond time.Second <= w'))
  /\ eventinformer.Error
       <$> eventinformer.metric
             (eventinformer.handleEvent sample.informer
                (sample.clusterEvent (1704110399 * time.Second)))
     = Some (Some "BeforeRestart").
Proof.
  destruct watermark_is_monotone as (Henqueue & Hkeep & Hfold & Hdrop).
  split; [|split; [|split]].
  - apply (Henqueue sample.informer (sample.clusterEvent sample.twelveOhThree)).
    + vm_compute. discriminate.
    + vm_compute. reflexivity.
    + vm_compute. discriminate.
    + vm_compute. discriminate.
  - apply (Hkeep (sample.configMap "2024-01-01T12:03:20Z") sample.halfPastOneSecond
             (1704110600 * time.Second)).
    + vm_compute. reflexivity.
    + vm_compute. discriminate.
  - destruct (Hfold {[ eventinformer.configMapLastEventKey := "2024-01-01T12:00:00Z" ]}
                [sample.twelveOhThree; sample.halfPastOneSecond])
      as (cm' & Happly & Hmono & Hcover).
    + repeat constructor; vm_compute; reflexivity.
    + intros w Hw. vm_compute in Hw. injection Hw as <-. reflexivity.
    + exists cm'. split; [exact Happly|]. split.
      * apply Hmono. vm_compute. reflexivity.
      * apply Hcover. right. left. reflexivity.
  - apply (Hdrop sample.informer (sample.clusterEvent (1704110399 * time.Second))).
    + vm_compute. discriminate.
    + vm_compute. reflexivity.
    + vm_compute. reflexivity.
Defined.

(** C8 (counterexample).  The event time 12:00:01.5 is accepted and its
    updater applied to a ConfigMap that stores 12:00:00; what is stored
    then is 12:00:01, and the watermark is lower than the event time. *)
Lemma watermark_below_event_time :
  eventinformer.enqueued
    (eventinformer.handleEvent sample.informer (sample.clusterEvent sample.halfPastOneSecond))
  = [eventinformer.updater sample.halfPastOneSecond]
  /\ eventinformer.updater sample.halfPastOneSecond (sample.configMap "2024-01-01T12:00:00Z")
     = Some (sample.configMap "2024-01-01T12:00:01Z")
  /\ eventinformer.watermark (sample.configMap "2024-01-01T12:00:01Z")
     = Some (1704110401 * time.Second)
  /\ ~ sample.halfPastOneSecond <= 1704110401 * time.Second.
Proof.
  split; [reflexivity|].
  split; [vm_compute; reflexivity|].
  split; [vm_compute; reflexivity|].
  vm_compute. intros H. apply H. reflexivity.
Qed.

(** ** The in-process queue *)

Lemma int32_small (z : Z) : 0 <= z < 2 ^ 31 -> goint.int32 z = z.
Proof.
  intros H. unfold goint.int32, goint.wrap_signed.
  change (2 ^ (32 - 1)) with (2 ^ 31). rewrite Z.mod_small; lia.
Qed.

Lemma uint32_small (z : Z) : 0 <= z < 2 ^ 32 -> goint.uint32 z = z.
Proof. intros H. unfold goint.uint32, goint.wrap_unsigned. now apply Z.mod_small. Qed.

(** [Send] delivers to the partition [selectPartition] gives, in every
    consumer group. *)
Lemma Send_delivers (q q' : mqlocal.localQueue) (key : option (list byte))
    (value : list byte) (drawn : Z) :
  mqlocal.Send q key value drawn = Some q' ->
  exists p,
    mqlocal.selectPartition q key drawn = Some p
    /\ forall group,
         mqlocal.consumers q' !! group =
         alter (fun uq => (uq ++ [{| mqlocal.offset := mqlocal.offsetCounter q';
                                     mqlocal.key := key;
                                     mqlocal.value := value |}])%list) p
           <$> mqlocal.consumers q !! group.
Proof.
  unfold mqlocal.Send. intros H.
  destruct (mqlocal.selectPartition q key drawn) as [p|]; [|discriminate H].
  cbn [mbind option_bind] in H. unfold mqlocal.deliver in H.
  destruct (forallb _ _); [|discriminate H].
  cbn [mbind option_bind] in H. injection H as <-.
  exists p. split; [reflexivity|]. intros group.
  cbn [mqlocal.consumers mqlocal.offsetCounter]. now rewrite lookup_fmap.
Qed.

(** What [Start] makes the partition count: the number of partitions
    of any consumer group, as an [int32]. *)
Lemma Start_numPartitions (q q' : mqlocal.localQueue) (group : string)
    (cs : gmap Z (list mqlocal.localMessage)) :
  mqlocal.Start q = Ok q' ->
  mqlocal.consumers q !! group = Some cs ->
  mqlocal.numPartitions q' = goint.int32 (Z.of_nat (size cs)).
Proof.
  unfold mqlocal.Start. intros HS Hg.
  apply elem_of_map_to_list in Hg.
  destruct (map_to_list (mqlocal.consumers q)) as [|[g0 cs0] rest];
    [now apply elem_of_nil in Hg|].
  cbn [fmap list_fmap snd] in HS.
  destruct (forallb _ _) eqn:Hall; [|discriminate HS].
  injection HS as <-. cbn [mqlocal.numPartitions].
  apply elem_of_cons in Hg. destruct Hg as [Hg|Hg].
  - injection Hg as -> ->. reflexivity.
  - rewrite forallb_forall in Hall. specialize (Hall (Z.of_nat (size cs))).
    rewrite Z.eqb_eq in Hall. rewrite Hall; [reflexivity|].
    apply in_map_iff. exists (group, cs). split; [reflexivity|].
    now apply list_elem_of_In.
Qed.

(** C9 (amended).  With partition-by-object enabled and a non-nil key,
    the partition selected is a function of the key and the partition
    count [N] alone: two sends with equal keys and equal [N] select the
    same index, or both panic, whatever the random draw and the rest of
    the queue.  The index lies in [0, N) when [0 < N]; and [Start]
    makes [N] positive when some consumer group exists whose number of
    partitions is positive (and an [int32]).  Nothing in [Send] checks
    [N]: see the counterexample for a producer without consumers. *)
Theorem partition_by_object_deterministic
    (q1 q2 : mqlocal.localQueue) (key : list byte) (drawn1 drawn2 : Z) :
  mqlocal.partitionByObject q1 = true ->
  mqlocal.partitionByObject q2 = true ->
  mqlocal.numPartitions q1 = mqlocal.numPartitions q2 ->
  mqlocal.selectPartition q1 (Some key) drawn1 =
    mqlocal.selectPartition q2 (Some key) drawn2
  /\ (0 < mqlocal.numPartitions q1 < 2 ^ 31 ->
      exists p,
        mqlocal.selectPartition q1 (Some key) drawn1 = Some p
        /\ mqlocal.selectPartition q2 (Some key) drawn2 = Some p
        /\ 0 <= p < mqlocal.numPartitions q1)
  /\ (forall (q : mqlocal.localQueue) (group : string)
             (cs : gmap Z (list mqlocal.localMessage)),
        mqlocal.Start q = Ok q1 ->
        mqlocal.consumers q !! group = Some cs ->
        0 < Z.of_nat (size cs) < 2 ^ 31 ->
        0 < mqlocal.numPartitions q1 < 2 ^ 31).
Proof.
  intros Hby1 Hby2 HN.
  assert (Hsame : mqlocal.selectPartition q1 (Some key) drawn1 =
                  mqlocal.selectPartition q2 (Some key) drawn2).
  { unfold mqlocal.selectPartition. now rewrite Hby1, Hby2, HN. }
  split; [exact Hsame|]. split.
  - intros Hrange.
    exists (mqlocal.fnv32 key mod mqlocal.numPartitions q1).
    pose proof (Z.mod_pos_bound (mqlocal.fnv32 key) (mqlocal.numPartitions q1) ltac:(lia))
      as Hp.
    assert (Hsel : mqlocal.selectPartition q1 (Some key) drawn1
                   = Some (mqlocal.fnv32 key mod mqlocal.numPartitions q1)).
    { unfold mqlocal.selectPartition. rewrite Hby1.
      rewrite uint32_small by lia.
      destruct (Z.eqb_spec (mqlocal.numPartitions q1) 0); [lia|].
      f_equal. apply int32_small. lia. }
    split; [exact Hsel|]. split; [now rewrite <- Hsame | exact Hp].
  - intros q group cs HS Hg Hsize.
    rewrite (Start_numPartitions q q1 group cs HS Hg).
    rewrite int32_small; lia.
Qed.

Lemma partition_by_object_witness :
  mqlocal.selectPartition (sample.queue 0) (Some sample.p1Key) 3 =
    mqlocal.selectPartition (sample.queue 41) (Some sample.p1Key) 5
  /\ exists p,
       mqlocal.selectPartition (sample.queue 0) (Some sample.p1Key) 3 = Some p
       /\ mqlocal.selectPartition (sample.queue 41) (Some sample.p1Key) 5 = Some p
       /\ 0 <= p < 8.
Proof.
  destruct (partition_by_object_deterministic (sample.queue 0) (sample.queue 41)
              sample.p1Key 3 5 eq_refl eq_refl eq_refl) as (Hsame & Hrange & _).
  split; [exact Hsame|].
  apply Hrange. vm_compute. split; reflexivity.
Defined.

(** C9 (counterexample).  A process that only produces has no consumer
    group.  [Start] then sets the partition count to -1, and a [Send]
    with partition-by-object and a key returns without an error after
    selecting the index [int32(hash % uint32(-1))], here -574749976:
    an index outside [0, N). *)
Lemma partition_without_consumers_out_of_range :
  mqlocal.partitionByObject sample.producerOnly = true
  /\ exists started,
       mqlocal.Start sample.producerOnly = Ok started
       /\ mqlocal.numPartitions started = -1
       /\ mqlocal.selectPartition started (Some sample.p1Key) 3 = Some (-574749976)
       /\ is_Some (mqlocal.Send started (Some sample.p1Key) (bytes_of "{}") 3)
       /\ ~ (exists p,
               mqlocal.selectPartition started (Some sample.p1Key) 3 = Some p
               /\ 0 <= p < mqlocal.numPartitions started).
Proof.
  split; [reflexivity|]. eexists. split; [reflexivity|].
  split; [reflexivity|]. split; [vm_compute; reflexivity|].
  split; [vm_compute; eauto|].
  intros (p & Hp & Hrange). vm_compute in Hp. injection Hp as <-.
  cbn in Hrange. lia.
Qed.

(** The published FNV-1 value of the one-byte input "a". *)
Example fnv32_a : mqlocal.fnv32 (bytes_of "a") = 84696446.
Proof. vm_compute. reflexivity. Qed.

(** A send lands in the queue of the selected partition. *)
Example Send_p1 :
  match mqlocal.Send (sample.queue 0) (Some sample.p1Key) (bytes_of "{}") 3 with
  | Some q' =>
      g ← mqlocal.consumers q' !! "kelemetry";
      g !! (mqlocal.fnv32 sample.p1Key mod 8)
  | None => None
  end
  = Some [{| mqlocal.offset := 1; mqlocal.key := Some sample.p1Key;
             mqlocal.value := bytes_of "{}" |}].
Proof. vm_compute. reflexivity. Qed.

(** Without partition-by-object the draw decides. *)
Example selectPartition_random :
  mqlocal.selectPartition
    {| mqlocal.partitionByObject := false; mqlocal.numPartitions := 8;
       mqlocal.consumers := ∅; mqlocal.offsetCounter := 0 |} (Some sample.p1Key) 13
  = Some 5.
Proof. reflexivity. Qed.


(* ===================================================================== *)
(** * Part III.  Further properties of the code                           *)
(* ===================================================================== *)

(** ** The diff decorator: the polling loop *)

(** One attempt counts once and asks the cache once. *)
Lemma attempt_counts
    (tryOnce : nat -> event.Event -> bool * option string * event.Event)
    (call : decorator.CacheCall) (s : decorator.pollState) :
  decorator.retryCount (decorator.attempt tryOnce call s) = decorator.retryCount s + 1
  /\ decorator.made (decorator.attempt tryOnce call s) = (decorator.made s ++ [call])%list.
Proof.
  unfold decorator.attempt. destruct (tryOnce _ _) as [[h e] ev']. split; reflexivity.
Qed.

(** A run of the polling loop makes between one and [runs] attempts,
    each the same cache call, and stops before [runs] only on a hit. *)
Lemma poll_run (runs : nat)
    (tryOnce : nat -> event.Event -> bool * option string * event.Event)
    (call : decorator.CacheCall) (s : decorator.pollState) :
  exists k : nat,
    (k <= runs)%nat
    /\ (runs = 0%nat \/ (1 <= k)%nat)
    /\ decorator.retryCount (decorator.poll runs tryOnce call s) =
         decorator.retryCount s + Z.of_nat k
    /\ decorator.made (decorator.poll runs tryOnce call s) =
         (decorator.made s ++ repeat call k)%list
    /\ (runs = 0%nat
        \/ decorator.cacheHit (decorator.poll runs tryOnce call s) = true
        \/ k = runs).
Proof.
  revert s. induction runs as [|runs IH]; intros s.
  - exists 0%nat. cbn [decorator.poll repeat]. rewrite app_nil_r, Z.add_0_r.
    repeat split; auto.
  - cbn [decorator.poll].
    destruct (attempt_counts tryOnce call s) as [Hc1 Hm1].
    destruct (decorator.cacheHit (decorator.attempt tryOnce call s)) eqn:Hhit.
    + exists 1%nat. rewrite Hc1, Hm1. cbn [repeat].
      split; [lia|]. split; [right; lia|]. split; [reflexivity|]. split; [reflexivity|].
      right. left. exact Hhit.
    + destruct (IH (decorator.attempt tryOnce call s)) as (k & Hk & Hk1 & Hc & Hm & Hh).
      exists (S k). rewrite Hc, Hm, Hc1, Hm1.
      rewrite <- app_assoc. cbn [repeat app].
      split; [lia|]. split; [right; lia|]. split; [lia|]. split; [reflexivity|].
      destruct Hh as [Hr | [Hh | Hk']].
      * right. right. lia.
      * right. left. exact Hh.
      * right. right. lia.
Qed.

(** The loop as [tryDecorate] starts it. *)
Lemma polled_shape (ticks : nat)
    (tryOnce : nat -> event.Event -> bool * option string * event.Event)
    (call : decorator.CacheCall) (ev0 : event.Event) :
  let s := decorator.PollImmediateUntil ticks tryOnce call
             {| decorator.retryCount := 0; decorator.cacheHit := false;
                decorator.err := None; decorator.ev := ev0; decorator.made := [] |} in
  1 <= decorator.retryCount s <= Z.of_nat ticks + 1
  /\ decorator.made s = repeat call (Z.to_nat (decorator.retryCount s))
  /\ (decorator.cacheHit s = true \/ decorator.retryCount s = Z.of_nat ticks + 1).
Proof.
  intros s. subst s. unfold decorator.PollImmediateUntil.
  destruct (poll_run (S ticks) tryOnce call
              {| decorator.retryCount := 0; decorator.cacheHit := false;
                 decorator.err := None; decorator.ev := ev0; decorator.made := [] |})
    as (k & Hk & Hk1 & Hc & Hm & Hh).
  cbn [decorator.retryCount decorator.made app] in Hc, Hm.
  rewrite Hc, Hm. rewrite Z.add_0_l, Nat2Z.id.
  destruct Hk1 as [Hk1|Hk1]; [discriminate Hk1|].
  repeat split; try lia.
  destruct Hh as [Hh | [Hh | ->]]; [discriminate Hh | now left | right; lia].
Qed.

(** X1.  Whatever the message and the answers of the cache, [tryDecorate]
    either makes no cache call and observes no retry count (and its
    outcome then is neither [true] nor [false]), or it polls: the
    retry count [n] observed lies between 1 and the number of back-off
    ticks before the deadline plus one, the cache is asked exactly [n]
    times with one and the same request, and the outcome is [true]
    without an error, or [false] after the last attempt the deadline
    allows. *)
Theorem tryDecorate_polls_within_deadline
    (d : decorator.decorator) (message : audit.Message) (ev0 : event.Event) :
  let r := decorator.tryDecorate d message ev0 in
  let ticks := Z.of_nat (decorator.retryTicks d message) in
  match decorator.retryHistogram r with
  | None =>
      decorator.cacheCalls r = []
      /\ decorator.hit r <> decorator.cacheHitTypeTrue
      /\ decorator.hit r <> decorator.cacheHitTypeFalse
  | Some n =>
      1 <= n <= ticks + 1
      /\ (exists call, decorator.cacheCalls r = repeat call (Z.to_nat n))
      /\ (decorator.hit r = decorator.cacheHitTypeTrue /\ decorator.error r = None
          \/ decorator.hit r = decorator.cacheHitTypeFalse /\ n = ticks + 1)
  end.
Proof.
  intros r ticks. subst r ticks.
  assert (Hpolled :
    forall tryOnce call,
      let s := decorator.PollImmediateUntil (decorator.retryTicks d message) tryOnce call
                 {| decorator.retryCount := 0; decorator.cacheHit := false;
                    decorator.err := None; decorator.ev := ev0; decorator.made := [] |} in
      1 <= decorator.retryCount s <= Z.of_nat (decorator.retryTicks d message) + 1
      /\ (exists call', decorator.made s = repeat call' (Z.to_nat (decorator.retryCount s)))
      /\ ((if decorator.cacheHit s then decorator.cacheHitTypeTrue
           else decorator.cacheHitTypeFalse) = decorator.cacheHitTypeTrue
          /\ (if decorator.cacheHit s then None else decorator.err s) = None
          \/ (if decorator.cacheHit s then decorator.cacheHitTypeTrue
              else decorator.cacheHitTypeFalse) = decorator.cacheHitTypeFalse
             /\ decorator.retryCount s = Z.of_nat (decorator.retryTicks d message) + 1)).
  { intros tryOnce call s.
    destruct (polled_shape (decorator.retryTicks d message) tryOnce call ev0)
      as (Hn & Hm & Hh).
    fold s in Hn, Hm, Hh.
    split; [exact Hn|]. split; [exists call; exact Hm|].
    destruct (decorator.cacheHit s).
    - left. split; reflexivity.
    - right. split; [reflexivity|]. destruct Hh as [Hh|Hh]; [discriminate Hh | exact Hh]. }
  unfold decorator.tryDecorate.
  destruct (match audit.ResponseStatus message with
            | Some status => if 300 <=? audit.Code status then Some status else None
            | None => None
            end); [cbn; repeat split; discriminate|].
  destruct (audit.ObjectRef message) as [ref|]; [|cbn; repeat split; discriminate].
  destruct (match audit.ResponseObject message with
            | Some {| audit.RawJSON := Some raw |} => decorator.Unmarshal d raw
            | _ => Ok None
            end) as [respObj|e]; [|cbn; repeat split; discriminate].
  destruct (_ && _); [cbn; repeat split; discriminate|].
  destruct (negb (decorator.decoratesResource message)); [cbn; repeat split; discriminate|].
  destruct (String.eqb (audit.Verb message) audit.VerbUpdate
            || String.eqb (audit.Verb message) audit.VerbPatch).
  - destruct (String.eqb _ ""); [cbn [decorator.retryHistogram decorator.cacheCalls
                                       decorator.hit decorator.error]; apply Hpolled|].
    destruct (String.eqb (audit.ResourceVersion ref) _);
      [cbn; repeat split; discriminate|].
    cbn [decorator.retryHistogram decorator.cacheCalls decorator.hit decorator.error].
    apply Hpolled.
  - destruct (String.eqb (audit.Verb message) audit.VerbCreate
              || String.eqb (audit.Verb message) audit.VerbDelete);
      [|cbn; repeat split; discriminate].
    destruct (diffcache.VerbToSnapshotName (audit.Verb message));
      [|cbn; repeat split; discriminate].
    cbn [decorator.retryHistogram decorator.cacheCalls decorator.hit decorator.error].
    apply Hpolled.
Qed.


(** ** The diff decorator: what a decoration does to the event *)

Section decoration.

Let header (ev : event.Event) :=
  (event.Field ev, event.Title ev, event.Time ev, event.EndTime ev, event.TraceSource ev).

(** [ev'] is [ev] with at most [n] logs appended and, at most, the tag
    "informer latency" set. *)
Let keeps (n : nat) (ev ev' : event.Event) : Prop :=
  header ev' = header ev
  /\ (exists added, event.Logs ev' = (event.Logs ev ++ added)%list /\ (length added <= n)%nat)
  /\ forall key, key <> "informer latency" -> event.Tags ev' !! key = event.Tags ev !! key.

Lemma keeps_refl (n : nat) (ev : event.Event) : keeps n ev ev.
Proof.
  split; [reflexivity|]. split; [|reflexivity].
  exists []. rewrite app_nil_r. split; [reflexivity | cbn; lia].
Qed.

Lemma keeps_Log (ty : zconstants.LogType) (value : string) (ev : event.Event) :
  keeps 1 ev (event.Log ty value ev).
Proof.
  split; [reflexivity|]. split; [|reflexivity].
  exists [(ty, value)]. split; [reflexivity | cbn; lia].
Qed.

Lemma keeps_fold_Log {A : Type} (ty : zconstants.LogType) (line : A -> string)
    (l : list A) (ev : event.Event) :
  keeps (length l) ev (fold_left (fun ev x => event.Log ty (line x) ev) l ev).
Proof.
  split; [|split].
  - revert ev. induction l as [|x l IH]; intros ev; cbn [fold_left]; [reflexivity|].
    now rewrite IH.
  - rewrite Logs_fold_Log. eexists. split; [reflexivity|]. now rewrite length_map.
  - intros key _. now rewrite Tags_fold_Log.
Qed.

(** What one attempt may do: nothing on a miss; on a hit, no error and
    at most one log more. *)
Let attempts_well
    (tryOnce : nat -> event.Event -> bool * option string * event.Event) : Prop :=
  forall i ev,
    (tryOnce i ev).1.1 = false /\ (tryOnce i ev).2 = ev
    \/ (tryOnce i ev).1.1 = true /\ (tryOnce i ev).1.2 = None /\ keeps 1 ev (tryOnce i ev).2.

Lemma tryUpdateOnce_well (d : decorator.decorator) (object : util.ObjectRef)
    (oldRv : string) (newRv : option string) (message : audit.Message) :
  attempts_well (fun i ev => decorator.tryUpdateOnce d i object oldRv newRv ev message).
Proof.
  intros i ev. unfold decorator.tryUpdateOnce.
  destruct (decorator.cache_Fetch d i object oldRv newRv) as [[patch|]|e];
    [|left; split; reflexivity..].
  right. destruct (diffcache.Redacted patch); cbn [fst snd].
  - split; [reflexivity|]. split; [reflexivity|]. apply keeps_Log.
  - split; [reflexivity|]. split; [reflexivity|].
    split; [reflexivity|]. split.
    + eexists. split; [reflexivity | cbn; lia].
    + intros key Hkey. cbn [event.WithTag event.Log event.Tags].
      now rewrite lookup_insert_ne.
Qed.

Lemma tryCreateDeleteOnce_well (d : decorator.decorator) (object : util.ObjectRef)
    (snapshotName : string) :
  attempts_well (fun i ev => decorator.tryCreateDeleteOnce d i object snapshotName ev).
Proof.
  intros i ev. unfold decorator.tryCreateDeleteOnce.
  destruct (decorator.cache_FetchSnapshot d i object snapshotName) as [[snapshot|]|e];
    [|left; split; reflexivity..].
  right. destruct (negb (diffcache.SnapRedacted snapshot)); cbn [fst snd].
  - split; [reflexivity|]. split; [reflexivity|]. apply keeps_Log.
  - split; [reflexivity|]. split; [reflexivity|]. apply keeps_refl.
Qed.

Lemma attempt_eq
    (tryOnce : nat -> event.Event -> bool * option string * event.Event)
    (call : decorator.CacheCall) (s : decorator.pollState) :
  decorator.attempt tryOnce call s =
  {| decorator.retryCount := decorator.retryCount s + 1;
     decorator.cacheHit := (tryOnce (Z.to_nat (decorator.retryCount s)) (decorator.ev s)).1.1;
     decorator.err := (tryOnce (Z.to_nat (decorator.retryCount s)) (decorator.ev s)).1.2;
     decorator.ev := (tryOnce (Z.to_nat (decorator.retryCount s)) (decorator.ev s)).2;
     decorator.made := (decorator.made s ++ [call])%list |}.
Proof.
  unfold decorator.attempt. destruct (tryOnce _ _) as [[h e] ev']. reflexivity.
Qed.

(** The loop leaves the event as it was until an attempt hits, and the
    hit ends it. *)
Lemma poll_event (runs : nat)
    (tryOnce : nat -> event.Event -> bool * option string * event.Event)
    (call : decorator.CacheCall) (s : decorator.pollState) :
  attempts_well tryOnce ->
  let s' := decorator.poll (S runs) tryOnce call s in
  decorator.cacheHit s' = false /\ decorator.ev s' = decorator.ev s
  \/ decorator.cacheHit s' = true /\ decorator.err s' = None
     /\ keeps 1 (decorator.ev s) (decorator.ev s').
Proof.
  intros Hwell. revert s. induction runs as [|runs IH]; intros s.
  - cbn [decorator.poll]. rewrite attempt_eq. cbn [decorator.cacheHit].
    destruct (Hwell (Z.to_nat (decorator.retryCount s)) (decorator.ev s))
      as [[Hh He] | (Hh & He & Hk)]; rewrite Hh; cbn [decorator.cacheHit decorator.ev decorator.err].
    + left. split; [reflexivity | exact He].
    + right. split; [reflexivity|]. split; [exact He | exact Hk].
  - specialize (IH (decorator.attempt tryOnce call s)).
    change (decorator.poll (S (S runs)) tryOnce call s)
      with (if decorator.cacheHit (decorator.attempt tryOnce call s)
            then decorator.attempt tryOnce call s
            else decorator.poll (S runs) tryOnce call (decorator.attempt tryOnce call s)).
    cbv zeta in IH |- *.
    destruct (Hwell (Z.to_nat (decorator.retryCount s)) (decorator.ev s))
      as [[Hh He] | (Hh & He & Hk)].
    + assert (E : decorator.cacheHit (decorator.attempt tryOnce call s) = false)
        by (rewrite attempt_eq; exact Hh).
      assert (E' : decorator.ev (decorator.attempt tryOnce call s) = decorator.ev s)
        by (rewrite attempt_eq; exact He).
      rewrite E. rewrite E' in IH. exact IH.
    + assert (E : decorator.cacheHit (decorator.attempt tryOnce call s) = true)
        by (rewrite attempt_eq; exact Hh).
      rewrite E. rewrite attempt_eq. cbn [decorator.cacheHit decorator.ev decorator.err].
      right. split; [exact Hh|]. split; [exact He | exact Hk].
Qed.

(** X2.  A decoration never rewrites the event: field, title, times and
    trace source stay, every tag but "informer latency" stays, and the
    logs of the event before are a prefix of its logs after.  Unless the
    request failed (outcome [failedRequest], one log per status cause)
    at most one log is added; and when the cache never answered
    (outcome [false]) the event is left exactly as it was. *)
Theorem tryDecorate_only_appends
    (d : decorator.decorator) (message : audit.Message) (ev0 : event.Event) :
  let r := decorator.tryDecorate d message ev0 in
  let ev := decorator.decorated r in
  event.Field ev = event.Field ev0
  /\ event.Title ev = event.Title ev0
  /\ event.Time ev = event.Time ev0
  /\ event.EndTime ev = event.EndTime ev0
  /\ event.TraceSource ev = event.TraceSource ev0
  /\ (exists added,
        event.Logs ev = (event.Logs ev0 ++ added)%list
        /\ (decorator.hit r <> decorator.cacheHitTypeError -> (length added <= 1)%nat))
  /\ (forall key, key <> "informer latency" -> event.Tags ev !! key = event.Tags ev0 !! key)
  /\ (decorator.hit r = decorator.cacheHitTypeFalse -> ev = ev0).
Proof.
  intros r ev. subst r ev.
  assert (Hshape : forall r n,
            keeps n ev0 (decorator.decorated r) ->
            (decorator.hit r <> decorator.cacheHitTypeError -> (n <= 1)%nat) ->
            (decorator.hit r = decorator.cacheHitTypeFalse -> decorator.decorated r = ev0) ->
            event.Field (decorator.decorated r) = event.Field ev0
            /\ event.Title (decorator.decorated r) = event.Title ev0
            /\ event.Time (decorator.decorated r) = event.Time ev0
            /\ event.EndTime (decorator.decorated r) = event.EndTime ev0
            /\ event.TraceSource (decorator.decorated r) = event.TraceSource ev0
            /\ (exists added,
                  event.Logs (decorator.decorated r) = (event.Logs ev0 ++ added)%list
                  /\ (decorator.hit r <> decorator.cacheHitTypeError
                      -> (length added <= 1)%nat))
            /\ (forall key, key <> "informer latency" ->
                  event.Tags (decorator.decorated r) !! key = event.Tags ev0 !! key)
            /\ (decorator.hit r = decorator.cacheHitTypeFalse -> decorator.decorated r = ev0)).
  { intros r n (Hh & (added & Hl & Hn) & Ht) Hone Hmiss.
    unfold header in Hh. injection Hh as -> -> -> -> ->.
    repeat split; try reflexivity; try assumption.
    exists added. split; [exact Hl|]. intros Hne. specialize (Hone Hne). lia. }
  assert (Hpolled :
    forall tryOnce call,
      attempts_well tryOnce ->
      let s := decorator.PollImmediateUntil (decorator.retryTicks d message) tryOnce call
                 {| decorator.retryCount := 0; decorator.cacheHit := false;
                    decorator.err := None; decorator.ev := ev0; decorator.made := [] |} in
      keeps 1 ev0 (decorator.ev s)
      /\ (decorator.cacheHit s = false -> decorator.ev s = ev0)).
  { intros tryOnce call Hwell s. subst s. unfold decorator.PollImmediateUntil.
    destruct (poll_event (decorator.retryTicks d message) tryOnce call
                {| decorator.retryCount := 0; decorator.cacheHit := false;
                   decorator.err := None; decorator.ev := ev0; decorator.made := [] |} Hwell)
      as [[Hh He] | (Hh & _ & Hk)]; cbn [decorator.ev] in *.
    - rewrite He. split; [apply keeps_refl | reflexivity].
    - split; [exact Hk|]. intros Hf. rewrite Hf in Hh. discriminate Hh. }
  unfold decorator.tryDecorate.
  destruct (match audit.ResponseStatus message with
            | Some status => if 300 <=? audit.Code status then Some status else None
            | None => None
            end) as [status|].
  { destruct (audit.Details status) as [details|].
    - apply (Hshape _ (S (length (audit.Causes details))));
        cbn [decorator.decorated decorator.hit].
      + destruct (keeps_fold_Log zconstants.LogTypeRealError
                    (fun detail => audit.CauseType detail +:+ ": " +:+ audit.CauseMessage detail)
                    (audit.Causes details)
                    (event.Log zconstants.LogTypeRealError
                       (audit.Reason status +:+ ": " +:+ audit.StatusMessage status) ev0))
          as (Hh & (added & Hl & Hn) & Ht).
        split; [exact Hh|]. split; [|exact Ht].
        exists ((zconstants.LogTypeRealError,
                 audit.Reason status +:+ ": " +:+ audit.StatusMessage status) :: added).
        split; [rewrite Hl; cbn [event.Log event.Logs]; now rewrite <- app_assoc|].
        cbn [length]. lia.
      + intros Hne. now destruct Hne.
      + discriminate.
    - eapply Hshape; cbn [decorator.decorated decorator.hit];
        [apply keeps_Log | reflexivity | discriminate]. }
  destruct (audit.ObjectRef message) as [ref|];
    [|eapply Hshape; cbn [decorator.decorated decorator.hit];
      [apply (keeps_refl 1) | reflexivity | reflexivity]].
  destruct (match audit.ResponseObject message with
            | Some {| audit.RawJSON := Some raw |} => decorator.Unmarshal d raw
            | _ => Ok None
            end) as [respObj|e];
    [|eapply Hshape; cbn [decorator.decorated decorator.hit];
      [apply keeps_Log | reflexivity | discriminate]].
  destruct (_ && _);
    [eapply Hshape; cbn [decorator.decorated decorator.hit];
     [apply keeps_Log | reflexivity | discriminate]|].
  destruct (negb (decorator.decoratesResource message));
    [eapply Hshape; cbn [decorator.decorated decorator.hit];
     [apply (keeps_refl 1) | reflexivity | reflexivity]|].
  assert (Hloop :
    forall tryOnce call,
      attempts_well tryOnce ->
      let s := decorator.PollImmediateUntil (decorator.retryTicks d message) tryOnce call
                 {| decorator.retryCount := 0; decorator.cacheHit := false;
                    decorator.err := None; decorator.ev := ev0; decorator.made := [] |} in
      let r := {| decorator.hit := if decorator.cacheHit s then decorator.cacheHitTypeTrue
                                   else decorator.cacheHitTypeFalse;
                  decorator.error := if decorator.cacheHit s then None else decorator.err s;
                  decorator.decorated := decorator.ev s;
                  decorator.cacheCalls := decorator.made s;
                  decorator.retryHistogram := Some (decorator.retryCount s) |} in
      keeps 1 ev0 (decorator.decorated r)
      /\ (decorator.hit r = decorator.cacheHitTypeFalse -> decorator.decorated r = ev0)).
  { intros tryOnce call Hwell s r0.
    destruct (Hpolled tryOnce call Hwell) as [Hk Hm]. fold s in Hk, Hm.
    split; [exact Hk|]. subst r0. cbn [decorator.hit decorator.decorated].
    destruct (decorator.cacheHit s); [discriminate | intros _; now apply Hm]. }
  destruct (String.eqb (audit.Verb message) audit.VerbUpdate
            || String.eqb (audit.Verb message) audit.VerbPatch).
  - destruct (String.eqb _ "").
    + match goal with |- context [decorator.PollImmediateUntil _ ?f ?c _] =>
        destruct (Hloop f c (tryUpdateOnce_well d _ _ _ message)) as [Hk Hm] end.
      eapply Hshape; [exact Hk | reflexivity | exact Hm].
    + destruct (String.eqb (audit.ResourceVersion ref) _);
        [eapply Hshape; cbn [decorator.decorated decorator.hit];
         [apply keeps_Log | reflexivity | discriminate]|].
      match goal with |- context [decorator.PollImmediateUntil _ ?f ?c _] =>
        destruct (Hloop f c (tryUpdateOnce_well d _ _ _ message)) as [Hk Hm] end.
      eapply Hshape; [exact Hk | reflexivity | exact Hm].
  - destruct (String.eqb (audit.Verb message) audit.VerbCreate
              || String.eqb (audit.Verb message) audit.VerbDelete);
      [|eapply Hshape; cbn [decorator.decorated decorator.hit];
        [apply (keeps_refl 1) | reflexivity | discriminate]].
    destruct (diffcache.VerbToSnapshotName (audit.Verb message)) as [snapshotName|];
      [|eapply Hshape; cbn [decorator.decorated decorator.hit];
        [apply (keeps_refl 1) | reflexivity | discriminate]].
    match goal with |- context [decorator.PollImmediateUntil _ ?f ?c _] =>
      destruct (Hloop f c (tryCreateDeleteOnce_well d _ snapshotName)) as [Hk Hm] end.
    eapply Hshape; [exact Hk | reflexivity | exact Hm].
Qed.

End decoration.


(** ** The diff decorator: racing the informer *)

(** While the attempts miss the loop goes on; the first hit, if the
    deadline allows it, ends the loop with what that attempt did. *)
Lemma poll_first_hit (k : nat) :
  forall (runs : nat)
    (tryOnce : nat -> event.Event -> bool * option string * event.Event)
    (call : decorator.CacheCall) (s : decorator.pollState),
  (k < runs)%nat ->
  0 <= decorator.retryCount s ->
  (forall i, (i < k)%nat ->
     (tryOnce (Z.to_nat (decorator.retryCount s) + i)%nat (decorator.ev s)).1.1 = false
     /\ (tryOnce (Z.to_nat (decorator.retryCount s) + i)%nat (decorator.ev s)).2
        = decorator.ev s) ->
  (tryOnce (Z.to_nat (decorator.retryCount s) + k)%nat (decorator.ev s)).1.1 = true ->
  decorator.poll runs tryOnce call s =
  {| decorator.retryCount := decorator.retryCount s + Z.of_nat k + 1;
     decorator.cacheHit := true;
     decorator.err :=
       (tryOnce (Z.to_nat (decorator.retryCount s) + k)%nat (decorator.ev s)).1.2;
     decorator.ev :=
       (tryOnce (Z.to_nat (decorator.retryCount s) + k)%nat (decorator.ev s)).2;
     decorator.made := (decorator.made s ++ repeat call (S k))%list |}.
Proof.
  induction k as [|k IH]; intros runs tryOnce call s Hruns Hcount Hmiss Hhit.
  - destruct runs as [|runs]; [lia|]. cbn [decorator.poll].
    rewrite attempt_eq. cbn [decorator.cacheHit].
    rewrite Nat.add_0_r in Hhit |- *. rewrite Hhit. cbn [repeat].
    f_equal. lia.
  - destruct runs as [|runs]; [lia|]. cbn [decorator.poll].
    destruct (Hmiss 0%nat ltac:(lia)) as [Hh0 He0]. rewrite Nat.add_0_r in Hh0, He0.
    assert (E : decorator.attempt tryOnce call s =
                {| decorator.retryCount := decorator.retryCount s + 1;
                   decorator.cacheHit := false;
                   decorator.err :=
                     (tryOnce (Z.to_nat (decorator.retryCount s)) (decorator.ev s)).1.2;
                   decorator.ev := decorator.ev s;
                   decorator.made := (decorator.made s ++ [call])%list |}).
    { rewrite attempt_eq. now rewrite Hh0, He0. }
    rewrite E. cbn [decorator.cacheHit].
    rewrite (IH runs tryOnce call); cbn [decorator.retryCount decorator.ev decorator.made].
    + replace (Z.to_nat (decorator.retryCount s + 1) + k)%nat
        with (Z.to_nat (decorator.retryCount s) + S k)%nat by lia.
      rewrite <- app_assoc. cbn [repeat app]. f_equal. lia.
    + lia.
    + lia.
    + intros i Hi.
      replace (Z.to_nat (decorator.retryCount s + 1) + i)%nat
        with (Z.to_nat (decorator.retryCount s) + S i)%nat by lia.
      apply Hmiss. lia.
    + replace (Z.to_nat (decorator.retryCount s + 1) + k)%nat
        with (Z.to_nat (decorator.retryCount s) + S k)%nat by lia.
      exact Hhit.
Qed.

(** X3.  The audit message of an update may arrive before the informer
    has stored the patch.  When the cache has no patch for the attempts
    before the [k]-th (counted from 0) and the patch at the [k]-th, and
    the deadline allows [k] retries, [tryDecorate] asks the cache
    [k + 1] times for the patch from the old resource version (to the
    new one, when the response carries it), observes the retry count
    [k + 1], and reports [true] without an error.  The event gets one
    log: the redaction notice for a redacted patch, else the diff, one
    line per changed path, and then also the tag "informer latency". *)
Theorem update_polls_until_patch
    (d : decorator.decorator) (message : audit.Message) (ev0 : event.Event)
    (ref : audit.ObjectReference) (respObj : option audit.PartialObjectMetadata)
    (k : nat) (patch : diffcache.Patch) :
  audit.Verb message = audit.VerbUpdate ->
  (forall status, audit.ResponseStatus message = Some status -> audit.Code status < 300) ->
  audit.ObjectRef message = Some ref ->
  match audit.ResponseObject message with
  | Some {| audit.RawJSON := Some raw |} => decorator.Unmarshal d raw
  | _ => Ok None
  end = Ok respObj ->
  (forall o, respObj = Some o -> audit.ResourceVersion ref <> audit.PResourceVersion o) ->
  let object :=
    decorator.ObjectRefFromAudit ref (audit.Cluster message) (audit.UID ref) in
  let oldRv := audit.ResourceVersion ref in
  let newRv :=
    match respObj with
    | Some o =>
        if String.eqb (audit.PResourceVersion o) "" then None
        else Some (audit.PResourceVersion o)
    | None => None
    end in
  (k <= decorator.retryTicks d message)%nat ->
  (forall i p, (i < k)%nat -> decorator.cache_Fetch d i object oldRv newRv <> Ok (Some p)) ->
  decorator.cache_Fetch d k object oldRv newRv = Ok (Some patch) ->
  decorator.tryDecorate d message ev0 =
    {| decorator.hit := decorator.cacheHitTypeTrue;
       decorator.error := None;
       decorator.decorated :=
         if diffcache.Redacted patch then
           event.Log zconstants.LogTypeKelemetryError
             "Sensitive object content has been redacted" ev0
         else
           event.WithTag "informer latency"
             (event.TagDuration
                (time.Sub (diffcache.InformerTime patch) (audit.StageTimestamp message)))
             (event.Log zconstants.LogTypeObjectDiff
                (fold_left
                   (fun acc diff =>
                      acc +:+ diffcache.JsonPath diff +:+ " "
                          +:+ decorator.GoSyntax d (diffcache.Old diff) +:+ " -> "
                          +:+ decorator.GoSyntax d (diffcache.New diff)
                          +:+ decorator.newline)
                   (diffcache.DiffList patch) "")
                ev0);
       decorator.cacheCalls := repeat (decorator.Fetch object oldRv newRv) (S k);
       decorator.retryHistogram := Some (Z.of_nat k + 1) |}.
Proof.
  intros Hverb Hst Href Hdec Hrv object oldRv newRv Hk Hmiss Hhit.
  assert (Hloop :
    decorator.PollImmediateUntil (decorator.retryTicks d message)
      (fun i ev => decorator.tryUpdateOnce d i object oldRv newRv ev message)
      (decorator.Fetch object oldRv newRv)
      {| decorator.retryCount := 0; decorator.cacheHit := false;
         decorator.err := None; decorator.ev := ev0; decorator.made := [] |} =
    {| decorator.retryCount := Z.of_nat k + 1;
       decorator.cacheHit := true;
       decorator.err := None;
       decorator.ev := (decorator.tryUpdateOnce d k object oldRv newRv ev0 message).2;
       decorator.made := repeat (decorator.Fetch object oldRv newRv) (S k) |}).
  { unfold decorator.PollImmediateUntil.
    rewrite (poll_first_hit k); cbn [decorator.retryCount decorator.ev decorator.made].
    - change (Z.to_nat 0 + k)%nat with k. rewrite Z.add_0_l, app_nil_l.
      unfold decorator.tryUpdateOnce. rewrite Hhit.
      destruct (diffcache.Redacted patch); reflexivity.
    - lia.
    - lia.
    - intros i Hi. change (Z.to_nat 0 + i)%nat with i.
      unfold decorator.tryUpdateOnce.
      destruct (decorator.cache_Fetch d i object oldRv newRv) as [[p|]|e] eqn:E;
        [destruct (Hmiss i p Hi E) | split; reflexivity..].
    - change (Z.to_nat 0 + k)%nat with k. unfold decorator.tryUpdateOnce. rewrite Hhit.
      destruct (diffcache.Redacted patch); reflexivity. }
  assert (Hev : (decorator.tryUpdateOnce d k object oldRv newRv ev0 message).2 =
                if diffcache.Redacted patch then
                  event.Log zconstants.LogTypeKelemetryError
                    "Sensitive object content has been redacted" ev0
                else
                  event.WithTag "informer latency"
                    (event.TagDuration
                       (time.Sub (diffcache.InformerTime patch)
                          (audit.StageTimestamp message)))
                    (event.Log zconstants.LogTypeObjectDiff
                       (fold_left
                          (fun acc diff =>
                             acc +:+ diffcache.JsonPath diff +:+ " "
                                 +:+ decorator.GoSyntax d (diffcache.Old diff) +:+ " -> "
                                 +:+ decorator.GoSyntax d (diffcache.New diff)
                                 +:+ decorator.newline)
                          (diffcache.DiffList patch) "")
                       ev0)).
  { unfold decorator.tryUpdateOnce. rewrite Hhit.
    destruct (diffcache.Redacted patch); reflexivity. }
  rewrite Hev in Hloop. clear Hev.
  unfold decorator.tryDecorate.
  rewrite (status_not_failed _ Hst), Href, Hdec.
  unfold decorator.decoratesResource. rewrite Hverb.
  change (String.eqb audit.VerbUpdate audit.VerbUpdate || String.eqb audit.VerbUpdate audit.VerbPatch)
    with true.
  change (negb (negb (String.eqb audit.VerbUpdate audit.VerbPatch))) with false.
  cbv iota. cbn [andb].
  subst object oldRv newRv.
  destruct respObj as [o|].
  - destruct (String.eqb_spec (audit.ResourceVersion ref) (audit.PResourceVersion o)) as [E|_];
      [destruct (Hrv o eq_refl E)|].
    destruct (String.eqb (audit.PResourceVersion o) "") eqn:Hempty.
    + rewrite Hloop. reflexivity.
    + destruct (String.eqb_spec (audit.ResourceVersion ref) (audit.PResourceVersion o))
        as [E|_]; [destruct (Hrv o eq_refl E)|].
      rewrite Hloop. reflexivity.
  - cbn [String.eqb]. rewrite Hloop. reflexivity.
Qed.

Lemma update_polls_until_patch_witness :
  decorator.tryDecorate (sample.lateDecorator "101")
    (sample.message "update" "ResponseComplete" "100" sample.ok200) sample.blank =
    {| decorator.hit := decorator.cacheHitTypeTrue;
       decorator.error := None;
       decorator.decorated :=
         event.WithTag "informer latency" (event.TagDuration (-1704110821000000000))
           (event.Log zconstants.LogTypeObjectDiff
              ("spec.containers.0.image " +:+ sample.quote +:+ "a" +:+ sample.quote
                 +:+ " -> " +:+ sample.quote +:+ "b" +:+ sample.quote +:+ decorator.newline)
              sample.blank);
       decorator.cacheCalls :=
         [decorator.Fetch
            (decorator.ObjectRefFromAudit (sample.p1Ref "100") "clusterA" "u-1")
            "100" (Some "101");
          decorator.Fetch
            (decorator.ObjectRefFromAudit (sample.p1Ref "100") "clusterA" "u-1")
            "100" (Some "101")];
       decorator.retryHistogram := Some 2 |}.
Proof.
  apply (update_polls_until_patch (sample.lateDecorator "101")
           (sample.message "update" "ResponseComplete" "100" sample.ok200) sample.blank
           (sample.p1Ref "100") (Some (sample.p1Meta "101")) 1 (sample.patch "100" "101")).
  - reflexivity.
  - intros status H; inversion H; subst; simpl; lia.
  - reflexivity.
  - reflexivity.
  - intros o H; inversion H; subst; simpl; discriminate.
  - simpl; lia.
  - intros i p Hi. destruct i as [|i]; [simpl; discriminate | lia].
  - reflexivity.
Defined.

(** X4.  The same race for a create or delete message: with no snapshot
    named after the verb ([creation], [deletion]) in the cache for the
    attempts before the [k]-th and one at the [k]-th, within the
    deadline, the cache is asked [k + 1] times for that snapshot and
    the outcome is [true]; the body of the snapshot is logged on the
    event unless the snapshot is redacted, in which case the event is
    left as it was. *)
Theorem create_delete_polls_until_snapshot
    (d : decorator.decorator) (message : audit.Message) (ev0 : event.Event)
    (ref : audit.ObjectReference) (respObj : option audit.PartialObjectMetadata)
    (snapshotName : string) (k : nat) (snapshot : diffcache.Snapshot) :
  (audit.Verb message = audit.VerbCreate /\ snapshotName = diffcache.SnapshotNameCreation
   \/ audit.Verb message = audit.VerbDelete /\ snapshotName = diffcache.SnapshotNameDeletion) ->
  (forall status, audit.ResponseStatus message = Some status -> audit.Code status < 300) ->
  audit.ObjectRef message = Some ref ->
  match audit.ResponseObject message with
  | Some {| audit.RawJSON := Some raw |} => decorator.Unmarshal d raw
  | _ => Ok None
  end = Ok respObj ->
  let object :=
    decorator.ObjectRefFromAudit ref (audit.Cluster message) (audit.UID ref) in
  (k <= decorator.retryTicks d message)%nat ->
  (forall i s, (i < k)%nat ->
     decorator.cache_FetchSnapshot d i object snapshotName <> Ok (Some s)) ->
  decorator.cache_FetchSnapshot d k object snapshotName = Ok (Some snapshot) ->
  decorator.tryDecorate d message ev0 =
    {| decorator.hit := decorator.cacheHitTypeTrue;
       decorator.error := None;
       decorator.decorated :=
         if diffcache.SnapRedacted snapshot then ev0
         else event.Log zconstants.LogTypeObjectSnapshot
                (decorator.string_of_bytes d (default [] (diffcache.Value snapshot))) ev0;
       decorator.cacheCalls := repeat (decorator.FetchSnapshot object snapshotName) (S k);
       decorator.retryHistogram := Some (Z.of_nat k + 1) |}.
Proof.
  intros Hverb Hst Href Hdec object Hk Hmiss Hhit.
  assert (Hloop :
    decorator.PollImmediateUntil (decorator.retryTicks d message)
      (fun i ev => decorator.tryCreateDeleteOnce d i object snapshotName ev)
      (decorator.FetchSnapshot object snapshotName)
      {| decorator.retryCount := 0; decorator.cacheHit := false;
         decorator.err := None; decorator.ev := ev0; decorator.made := [] |} =
    {| decorator.retryCount := Z.of_nat k + 1;
       decorator.cacheHit := true;
       decorator.err := None;
       decorator.ev :=
         if diffcache.SnapRedacted snapshot then ev0
         else event.Log zconstants.LogTypeObjectSnapshot
                (decorator.string_of_bytes d (default [] (diffcache.Value snapshot))) ev0;
       decorator.made := repeat (decorator.FetchSnapshot object snapshotName) (S k) |}).
  { unfold decorator.PollImmediateUntil.
    rewrite (poll_first_hit k); cbn [decorator.retryCount decorator.ev decorator.made].
    - change (Z.to_nat 0 + k)%nat with k. rewrite Z.add_0_l, app_nil_l.
      unfold decorator.tryCreateDeleteOnce. rewrite Hhit.
      destruct (diffcache.SnapRedacted snapshot); reflexivity.
    - lia.
    - lia.
    - intros i Hi. change (Z.to_nat 0 + i)%nat with i.
      unfold decorator.tryCreateDeleteOnce.
      destruct (decorator.cache_FetchSnapshot d i object snapshotName) as [[s|]|e] eqn:E;
        [destruct (Hmiss i s Hi E) | split; reflexivity..].
    - change (Z.to_nat 0 + k)%nat with k. unfold decorator.tryCreateDeleteOnce.
      rewrite Hhit. destruct (diffcache.SnapRedacted snapshot); reflexivity. }
  unfold decorator.tryDecorate.
  rewrite (status_not_failed _ Hst), Href, Hdec.
  unfold decorator.decoratesResource.
  subst object.
  destruct Hverb as [[Hverb ->] | [Hverb ->]]; rewrite Hverb.
  - change (String.eqb audit.VerbCreate audit.VerbUpdate
            || String.eqb audit.VerbCreate audit.VerbPatch) with false.
    change (negb (negb (String.eqb audit.VerbCreate audit.VerbPatch))) with false.
    change (String.eqb audit.VerbCreate audit.VerbCreate
            || String.eqb audit.VerbCreate audit.VerbDelete) with true.
    change (diffcache.VerbToSnapshotName audit.VerbCreate)
      with (Some diffcache.SnapshotNameCreation).
    cbn [andb]. cbv iota. rewrite Hloop. reflexivity.
  - change (String.eqb audit.VerbDelete audit.VerbUpdate
            || String.eqb audit.VerbDelete audit.VerbPatch) with false.
    change (negb (negb (String.eqb audit.VerbDelete audit.VerbPatch))) with false.
    change (String.eqb audit.VerbDelete audit.VerbCreate
            || String.eqb audit.VerbDelete audit.VerbDelete) with true.
    change (diffcache.VerbToSnapshotName audit.VerbDelete)
      with (Some diffcache.SnapshotNameDeletion).
    cbn [andb]. cbv iota. rewrite Hloop. reflexivity.
Qed.

Lemma create_delete_polls_until_snapshot_witness :
  decorator.tryDecorate sample.snapshotDecorator
    (sample.message "delete" "ResponseComplete" "103" sample.ok200) sample.blank =
    {| decorator.hit := decorator.cacheHitTypeTrue;
       decorator.error := None;
       decorator.decorated :=
         event.Log zconstants.LogTypeObjectSnapshot "{}" sample.blank;
       decorator.cacheCalls :=
         repeat
           (decorator.FetchSnapshot
              (decorator.ObjectRefFromAudit (sample.p1Ref "103") "clusterA" "u-1")
              "deletion") 3;
       decorator.retryHistogram := Some 3 |}.
Proof.
  apply (create_delete_polls_until_snapshot sample.snapshotDecorator
           (sample.message "delete" "ResponseComplete" "103" sample.ok200) sample.blank
           (sample.p1Ref "103") None "deletion" 2
           {| diffcache.ResourceVersion := "103";
              diffcache.SnapRedacted := false;
              diffcache.Value := Some (bytes_of "{}") |}).
  - right; split; reflexivity.
  - intros status H; inversion H; subst; simpl; lia.
  - reflexivity.
  - reflexivity.
  - simpl; lia.
  - intros i s Hi. destruct i as [|[|i]]; [simpl; discriminate | simpl; discriminate | lia].
  - reflexivity.
Defined.


(** ** The diff decorator: what is reported *)

(** The branches of [tryDecorate] that return at once. *)
Lemma tryDecorate_with_ref
    (d : decorator.decorator) (message : audit.Message) (ev0 : event.Event)
    (ref : audit.ObjectReference) :
  audit.ObjectRef message = Some ref ->
  let r := decorator.tryDecorate d message ev0 in
  decorator.hit r <> decorator.cacheHitTypeNoObjectRef
  /\ (decorator.error r <> None ->
      decorator.hit r = decorator.cacheHitTypeRawJsonDecode
      \/ decorator.hit r = decorator.cacheHitTypeFalse).
Proof.
  intros Href r. subst r. unfold decorator.tryDecorate. rewrite Href.
  destruct (match audit.ResponseStatus message with
            | Some status => if 300 <=? audit.Code status then Some status else None
            | None => None
            end); [cbn; split; [discriminate | intros H; now destruct H]|].
  destruct (match audit.ResponseObject message with
            | Some {| audit.RawJSON := Some raw |} => decorator.Unmarshal d raw
            | _ => Ok None
            end) as [respObj|e]; [|cbn; split; [discriminate | intros _; now left]].
  destruct (_ && _); [cbn; split; [discriminate | intros H; now destruct H]|].
  destruct (negb (decorator.decoratesResource message));
    [cbn; split; [discriminate | intros H; now destruct H]|].
  destruct (String.eqb (audit.Verb message) audit.VerbUpdate
            || String.eqb (audit.Verb message) audit.VerbPatch).
  - destruct (String.eqb _ "").
    + cbn [decorator.hit decorator.error].
      destruct (decorator.cacheHit _); split; try discriminate;
        [intros H; now destruct H | intros _; now right].
    + destruct (String.eqb (audit.ResourceVersion ref) _);
        [cbn; split; [discriminate | intros H; now destruct H]|].
      cbn [decorator.hit decorator.error].
      destruct (decorator.cacheHit _); split; try discriminate;
        [intros H; now destruct H | intros _; now right].
  - destruct (String.eqb (audit.Verb message) audit.VerbCreate
              || String.eqb (audit.Verb message) audit.VerbDelete);
      [|cbn; split; [discriminate | intros H; now destruct H]].
    destruct (diffcache.VerbToSnapshotName (audit.Verb message));
      [|cbn; split; [discriminate | intros H; now destruct H]].
    cbn [decorator.hit decorator.error].
    destruct (decorator.cacheHit _); split; try discriminate;
      [intros H; now destruct H | intros _; now right].
Qed.

(** X5.  [Decorate] builds its metric from the object reference of the
    message before anything else: on a message without one it panics,
    whatever the response status, and so the outcome [noObjectRef] of
    [tryDecorate] is never counted; nor is [sameRv].  On every other
    message the metric carries the label of the outcome and the error
    of [tryDecorate]; an error is logged on the event as one more log
    line, and an error only ever comes with the outcomes
    [rawJsonDecodeError] and [false]. *)
Theorem Decorate_reports
    (d : decorator.decorator) (message : audit.Message) (ev0 : event.Event) :
  match decorator.Decorate d message ev0 with
  | None => audit.ObjectRef message = None
  | Some (ev, metric, r) =>
      r = decorator.tryDecorate d message ev0
      /\ (exists ref,
            audit.ObjectRef message = Some ref
            /\ decorator.ApiGroup metric = (audit.APIGroup ref, audit.APIVersion ref)
            /\ decorator.MResource metric = audit.Resource ref)
      /\ decorator.CacheHit metric = decorator.label (decorator.hit r)
      /\ decorator.CacheHit metric <> "noObjectRef"
      /\ decorator.CacheHit metric <> "sameRv"
      /\ decorator.MError metric = decorator.error r
      /\ (decorator.error r = None -> ev = decorator.decorated r)
      /\ (forall e, decorator.error r = Some e ->
            ev = event.Log zconstants.LogTypeKelemetryError e (decorator.decorated r)
            /\ (decorator.CacheHit metric = "rawJsonDecodeError"
                \/ decorator.CacheHit metric = "false"))
  end.
Proof.
  unfold decorator.Decorate.
  destruct (audit.ObjectRef message) as [ref|] eqn:Href; [|reflexivity].
  destruct (tryDecorate_with_ref d message ev0 ref Href) as [Hno Herr].
  pose proof (sameRv_unreachable d message ev0) as Hsame.
  cbv zeta in Hno, Herr.
  cbn [decorator.CacheHit decorator.MError decorator.ApiGroup decorator.MResource].
  split; [reflexivity|].
  split; [exists ref; repeat split; reflexivity|].
  split; [reflexivity|].
  split; [destruct (decorator.hit _); try discriminate; now destruct Hno|].
  split; [destruct (decorator.hit _); try discriminate; now destruct Hsame|].
  split; [reflexivity|].
  split; [intros ->; reflexivity|].
  intros e He. rewrite He in Herr |- *. split; [reflexivity|].
  destruct (Herr ltac:(discriminate)) as [-> | ->]; [left | right]; reflexivity.
Qed.

(** X6.  Only update, create and delete messages are ever looked up in
    the diff cache: for a message with any other verb [tryDecorate]
    makes no cache call, enters no polling loop, returns no error
    but that of decoding the response, and leaves the tags of the event
    as they were. *)
Theorem other_verbs_are_not_looked_up
    (d : decorator.decorator) (message : audit.Message) (ev0 : event.Event) :
  audit.Verb message <> audit.VerbUpdate ->
  audit.Verb message <> audit.VerbCreate ->
  audit.Verb message <> audit.VerbDelete ->
  let r := decorator.tryDecorate d message ev0 in
  decorator.cacheCalls r = []
  /\ decorator.retryHistogram r = None
  /\ event.Tags (decorator.decorated r) = event.Tags ev0
  /\ (decorator.error r <> None -> decorator.hit r = decorator.cacheHitTypeRawJsonDecode).
Proof.
  intros Hu Hc Hd r. subst r. unfold decorator.tryDecorate.
  destruct (match audit.ResponseStatus message with
            | Some status => if 300 <=? audit.Code status then Some status else None
            | None => None
            end) as [status|].
  { cbn [decorator.cacheCalls decorator.retryHistogram decorator.decorated decorator.error].
    repeat split; try reflexivity; [|intros H; now destruct H].
    destruct (audit.Details status) as [details|]; [|reflexivity].
    now rewrite (Tags_fold_Log zconstants.LogTypeRealError
                   (fun detail => audit.CauseType detail +:+ ": " +:+ audit.CauseMessage detail)). }
  destruct (audit.ObjectRef message) as [ref|];
    [|cbn; repeat split; try reflexivity; intros H; now destruct H].
  destruct (match audit.ResponseObject message with
            | Some {| audit.RawJSON := Some raw |} => decorator.Unmarshal d raw
            | _ => Ok None
            end) as [respObj|e]; [|cbn; repeat split; reflexivity].
  destruct (_ && _); [cbn; repeat split; try reflexivity; intros H; now destruct H|].
  unfold decorator.decoratesResource.
  destruct (String.eqb_spec (audit.Verb message) audit.VerbPatch) as [Hp|Hp];
    [cbn; repeat split; try reflexivity; intros H; now destruct H|].
  destruct (String.eqb_spec (audit.Verb message) audit.VerbUpdate) as [E|_];
    [destruct (Hu E)|].
  destruct (String.eqb_spec (audit.Verb message) audit.VerbCreate) as [E|_];
    [destruct (Hc E)|].
  destruct (String.eqb_spec (audit.Verb message) audit.VerbDelete) as [E|_];
    [destruct (Hd E)|].
  cbn. repeat split; try reflexivity. intros H; now destruct H.
Qed.

Lemma other_verbs_are_not_looked_up_witness :
  decorator.cacheCalls
    (decorator.tryDecorate (sample.diffDecorator "101")
       (sample.message "deletecollection" "ResponseComplete" "100" sample.ok200)
       sample.blank) = []
  /\ decorator.retryHistogram
       (decorator.tryDecorate (sample.diffDecorator "101")
          (sample.message "deletecollection" "ResponseComplete" "100" sample.ok200)
          sample.blank) = None.
Proof.
  destruct (other_verbs_are_not_looked_up (sample.diffDecorator "101")
              (sample.message "deletecollection" "ResponseComplete" "100" sample.ok200)
              sample.blank
              ltac:(simpl; discriminate) ltac:(simpl; discriminate)
              ltac:(simpl; discriminate))
    as (Hcalls & Hhist & _).
  split; [exact Hcalls | exact Hhist].
Defined.


(** ** The diff API: [GET /diff/.../:rv] *)

(** X7.  [handleGet] answers 200 with a patch exactly when the object
    cache holds the object and the diff cache returns a patch for it;
    the patch is the one returned.  The resource version of the path
    is passed as the old version when the cache is keyed by the old
    resource version and as the new one otherwise, never as both.
    Every other answer it writes is a 404 whose text is the error
    returned; the diff cache is asked at most once, after the object
    was found, and for the identity of the object found. *)
Theorem handleGet_answers (a : diffapi.api) (ctx : gin.Context) :
  let o := diffapi.handleGet a ctx in
  let rv := gin.Param ctx "rv" in
  let oldRv := if diffapi.UseOldResourceVersion a then rv else "" in
  let newRv := if diffapi.UseOldResourceVersion a then None else Some rv in
  (forall patch,
     diffapi.response o = Some (diffapi.JSONPatch 200 patch) <->
     exists raw,
       diffapi.objectCache_Get a (diffapi.requestObject ctx) = Ok (Some raw)
       /\ diffapi.diffCache_Fetch a
            (util.ObjectRefFromUnstructured raw (diffapi.clusterName a)
               (diffapi.requestGvr ctx)) oldRv newRv = Ok (Some patch))
  /\ (forall resp,
        diffapi.response o = Some resp ->
        (exists patch, resp = diffapi.JSONPatch 200 patch /\ diffapi.returned o = None)
        \/ (exists msg, resp = diffapi.AbortWithError 404 msg
                        /\ diffapi.returned o = Some msg))
  /\ (diffapi.response o = None <->
      exists e, diffapi.objectCache_Get a (diffapi.requestObject ctx) = Err e)
  /\ (exists rest,
        diffapi.calls o = diffapi.ObjectCacheGet (diffapi.requestObject ctx) :: rest
        /\ (rest = []
            \/ exists raw,
                 diffapi.objectCache_Get a (diffapi.requestObject ctx) = Ok (Some raw)
                 /\ rest =
                      [diffapi.DiffCacheFetch
                         (util.ObjectRefFromUnstructured raw (diffapi.clusterName a)
                            (diffapi.requestGvr ctx)) oldRv newRv])).
Proof.
  intros o rv oldRv newRv. subst o. unfold diffapi.handleGet. fold rv oldRv newRv.
  destruct (diffapi.objectCache_Get a (diffapi.requestObject ctx)) as [[raw|]|e].
  - destruct (diffapi.diffCache_Fetch a _ oldRv newRv) as [[patch|]|e] eqn:Hfetch;
      cbn [diffapi.response diffapi.returned diffapi.calls].
    + split; [|split; [|split]].
      * intros p. split.
        -- intros H. injection H as <-. exists raw. split; [reflexivity | exact Hfetch].
        -- intros (raw' & Hraw & Hp). injection Hraw as <-.
           rewrite Hfetch in Hp. injection Hp as <-. reflexivity.
      * intros resp H. injection H as <-. left. exists patch. split; reflexivity.
      * split; [discriminate | intros (e & He); discriminate He].
      * eexists. split; [reflexivity|]. right. exists raw. split; reflexivity.
    + split; [|split; [|split]].
      * intros p. split; [discriminate|].
        intros (raw' & Hraw & Hp). injection Hraw as <-.
        rewrite Hfetch in Hp. discriminate Hp.
      * intros resp H. injection H as <-. right. eexists. split; reflexivity.
      * split; [discriminate | intros (e & He); discriminate He].
      * eexists. split; [reflexivity|]. right. exists raw. split; reflexivity.
    + split; [|split; [|split]].
      * intros p. split; [discriminate|].
        intros (raw' & Hraw & Hp). injection Hraw as <-.
        rewrite Hfetch in Hp. discriminate Hp.
      * intros resp H. injection H as <-. right. eexists. split; reflexivity.
      * split; [discriminate | intros (e' & He); discriminate He].
      * eexists. split; [reflexivity|]. right. exists raw. split; reflexivity.
  - cbn [diffapi.response diffapi.returned diffapi.calls]. split; [|split; [|split]].
    + intros p. split; [discriminate | intros (raw' & Hraw & _); discriminate Hraw].
    + intros resp H. injection H as <-. right. eexists. split; reflexivity.
    + split; [discriminate | intros (e & He); discriminate He].
    + eexists. split; [reflexivity|]. now left.
  - cbn [diffapi.response diffapi.returned diffapi.calls]. split; [|split; [|split]].
    + intros p. split; [discriminate | intros (raw' & Hraw & _); discriminate Hraw].
    + intros resp H. discriminate H.
    + split; [intros _; now exists e | reflexivity].
    + eexists. split; [reflexivity|]. now left.
Qed.


(** ** The transform steps over a whole tree *)

(** Below the root a visitor does to every span what it does to one. *)
Lemma spans_visit_below (v : tfstep.TreeVisitor) (t : tfstep.SpanTree) :
  tfstep.spans (tfstep.visit v false t) =
  map (fun span => tfstep.Exit v false (tfstep.Enter v false span)) (tfstep.spans t).
Proof.
  induction t as [span children IH] using SpanTree_rect_Forall.
  cbn [tfstep.visit tfstep.spans map]. f_equal.
  induction children as [|c cs IHcs]; [reflexivity|].
  cbn [map flat_map]. rewrite map_app.
  inversion IH as [|? ? Hc Hcs]; subst. rewrite Hc. f_equal. now apply IHcs.
Qed.

Lemma descendants_visit (v : tfstep.TreeVisitor) (isRoot : bool) (t : tfstep.SpanTree) :
  tfstep.descendants (tfstep.visit v isRoot t) =
  map (fun span => tfstep.Exit v false (tfstep.Enter v false span)) (tfstep.descendants t).
Proof.
  destruct t as [span children]. cbn [tfstep.visit tfstep.descendants].
  induction children as [|c cs IH]; [reflexivity|].
  cbn [map flat_map]. now rewrite map_app, spans_visit_below, IH.
Qed.

Lemma rootSpan_visit (v : tfstep.TreeVisitor) (isRoot : bool) (t : tfstep.SpanTree) :
  tfstep.rootSpan (tfstep.visit v isRoot t) =
  tfstep.Exit v isRoot (tfstep.Enter v isRoot (tfstep.rootSpan t)).
Proof. destruct t; reflexivity. Qed.

Lemma spans_root_descendants (t : tfstep.SpanTree) :
  tfstep.spans t = tfstep.rootSpan t :: tfstep.descendants t.
Proof. destruct t; reflexivity. Qed.

(** X8.  After the PruneTags step every span of the tree, the root
    included, has its tags and the fields of each of its logs without
    the keys that start with the internal prefix; the tags and fields
    that stay are all the others, in their order, and nothing else of a
    span changes.  No key with the prefix is left anywhere in the
    tree. *)
Theorem PruneTags_removes_exactly_the_internal_keys
    (k : zconstants.TagKeys) (t : tfstep.SpanTree) :
  let kept (tag : tfstep.KeyValue) :=
    negb (gostrings.HasPrefix (tfstep.Key tag) (zconstants.Prefix k)) in
  let pruned := tfstep.Visit (tfstep.PruneTagsVisitor k) t in
  tfstep.spans pruned =
    map (fun span =>
           tfstep.with_Logs
             (map (fun log =>
                     {| tfstep.Timestamp := tfstep.Timestamp log;
                        tfstep.Fields := List.filter kept (tfstep.Fields log) |})
                  (tfstep.Logs span))
             (tfstep.with_Tags (List.filter kept (tfstep.Tags span)) span))
        (tfstep.spans t)
  /\ Forall
       (fun span =>
          Forall (fun tag => gostrings.HasPrefix (tfstep.Key tag) (zconstants.Prefix k) = false)
            (tfstep.Tags span)
          /\ Forall
               (fun log =>
                  Forall (fun tag =>
                            gostrings.HasPrefix (tfstep.Key tag) (zconstants.Prefix k) = false)
                    (tfstep.Fields log))
               (tfstep.Logs span))
       (tfstep.spans pruned).
Proof.
  intros kept pruned.
  assert (Hfilter : forall tags,
            Forall (fun tag => gostrings.HasPrefix (tfstep.Key tag) (zconstants.Prefix k) = false)
              (List.filter kept tags)).
  { intros tags. apply Forall_forall. intros tag Hin.
    apply list_elem_of_In, filter_In in Hin. destruct Hin as [_ Hkept].
    unfold kept in Hkept. now apply negb_true_iff in Hkept. }
  assert (Hspans :
    tfstep.spans pruned =
    map (fun span =>
           tfstep.with_Logs
             (map (fun log =>
                     {| tfstep.Timestamp := tfstep.Timestamp log;
                        tfstep.Fields := List.filter kept (tfstep.Fields log) |})
                  (tfstep.Logs span))
             (tfstep.with_Tags (List.filter kept (tfstep.Tags span)) span))
        (tfstep.spans t)).
  { subst pruned. unfold tfstep.Visit.
    rewrite (spans_root_descendants (tfstep.visit _ _ _)), rootSpan_visit, descendants_visit.
    rewrite (spans_root_descendants t). cbn [map].
    cbn [tfstep.PruneTagsVisitor tfstep.Enter tfstep.Exit].
    unfold tfstep.PruneTags_Enter. cbn [tfstep.with_Tags tfstep.Logs tfstep.Tags].
    f_equal.
    - rewrite removeZconstantKeys_filter. f_equal.
      apply map_ext. intros log. now rewrite removeZconstantKeys_filter.
    - apply map_ext. intros span. rewrite removeZconstantKeys_filter. f_equal.
      apply map_ext. intros log. now rewrite removeZconstantKeys_filter. }
  split; [exact Hspans|].
  rewrite Hspans. apply Forall_forall. intros span' Hin.
  apply list_elem_of_In, in_map_iff in Hin. destruct Hin as (span & <- & _).
  cbn [tfstep.with_Logs tfstep.with_Tags tfstep.Tags tfstep.Logs].
  split; [apply Hfilter|].
  apply Forall_forall. intros log' Hin.
  apply list_elem_of_In, in_map_iff in Hin. destruct Hin as (log & <- & _).
  cbn [tfstep.Fields]. apply Hfilter.
Qed.

(** X9.  The ReplaceName step changes operation names and nothing
    else.  A span below the root is named by its first tag under the
    span-name key and keeps its name when it has no such tag; the root
    is named the same way and then gets the time range of the trace
    appended to its name. *)
Theorem ReplaceName_renames_only (k : zconstants.TagKeys) (t : tfstep.SpanTree) :
  let renamed := tfstep.Visit (tfstep.ReplaceNameVisitor k) t in
  let name (span : tfstep.Span) :=
    default (tfstep.OperationName span) (tfstep.spanNameTag k (tfstep.Tags span)) in
  let root := tfstep.rootSpan t in
  tfstep.descendants renamed =
    map (fun span => tfstep.with_OperationName (name span) span) (tfstep.descendants t)
  /\ tfstep.rootSpan renamed =
       tfstep.with_OperationName
         (name root +:+ " / " +:+ time.Format_1504 (tfstep.StartTime root) +:+ ".."
            +:+ time.Format_1504 (time.Add (tfstep.StartTime root) (tfstep.Duration root)))
         root.
Proof.
  intros renamed name root. subst renamed. unfold tfstep.Visit.
  rewrite descendants_visit, rootSpan_visit.
  cbn [tfstep.ReplaceNameVisitor tfstep.Enter tfstep.Exit].
  unfold tfstep.ReplaceName_Enter, name. split.
  - apply map_ext. intros span.
    destruct (tfstep.spanNameTag k (tfstep.Tags span)); [reflexivity|].
    now destruct span.
  - fold root. destruct (tfstep.spanNameTag k (tfstep.Tags root)); reflexivity.
Qed.

(** X10.  The order of the two steps matters.  When the span-name key
    itself starts with the internal prefix, pruning first removes the
    name tags, and a ReplaceName that runs afterwards renames no span
    below the root; ReplaceName followed by PruneTags names them by
    their tag. *)
Theorem PruneTags_before_ReplaceName_loses_names
    (k : zconstants.TagKeys) (t : tfstep.SpanTree) :
  gostrings.HasPrefix (zconstants.SpanName k) (zconstants.Prefix k) = true ->
  map tfstep.OperationName
    (tfstep.descendants
       (tfstep.pipeline (tfstep.configured k [tfstep.StepPruneTags; tfstep.StepReplaceName]) t))
  = map tfstep.OperationName (tfstep.descendants t)
  /\ map tfstep.OperationName
       (tfstep.descendants
          (tfstep.pipeline (tfstep.configured k [tfstep.StepReplaceName; tfstep.StepPruneTags])
             t))
     = map (fun span =>
              default (tfstep.OperationName span)
                (tfstep.spanNameTag k (tfstep.Tags span)))
           (tfstep.descendants t).
Proof.
  intros Hint.
  change (tfstep.pipeline (tfstep.configured k [tfstep.StepPruneTags; tfstep.StepReplaceName]) t)
    with (tfstep.visit (tfstep.ReplaceNameVisitor k) true
            (tfstep.visit (tfstep.PruneTagsVisitor k) true t)).
  change (tfstep.pipeline (tfstep.configured k [tfstep.StepReplaceName; tfstep.StepPruneTags]) t)
    with (tfstep.visit (tfstep.PruneTagsVisitor k) true
            (tfstep.visit (tfstep.ReplaceNameVisitor k) true t)).
  rewrite !descendants_visit, !map_map.
  cbn [tfstep.ReplaceNameVisitor tfstep.PruneTagsVisitor tfstep.Enter tfstep.Exit].
  split; apply map_ext; intros span.
  - unfold tfstep.ReplaceName_Enter, tfstep.PruneTags_Enter.
    cbn [tfstep.with_Logs tfstep.with_Tags tfstep.Tags tfstep.Logs].
    rewrite removeZconstantKeys_filter, (spanNameTag_pruned_none k (tfstep.Tags span) Hint).
    reflexivity.
  - unfold tfstep.ReplaceName_Enter, tfstep.PruneTags_Enter.
    destruct (tfstep.spanNameTag k (tfstep.Tags span)); reflexivity.
Qed.

Lemma PruneTags_before_ReplaceName_witness :
  map tfstep.OperationName
    (tfstep.descendants
       (tfstep.pipeline
          (tfstep.configured sample.tagKeys [tfstep.StepPruneTags; tfstep.StepReplaceName])
          sample.namedTree))
  = map tfstep.OperationName (tfstep.descendants sample.namedTree)
  /\ map tfstep.OperationName
       (tfstep.descendants
          (tfstep.pipeline
             (tfstep.configured sample.tagKeys [tfstep.StepReplaceName; tfstep.StepPruneTags])
             sample.namedTree))
     = map (fun span =>
              default (tfstep.OperationName span)
                (tfstep.spanNameTag sample.tagKeys (tfstep.Tags span)))
           (tfstep.descendants sample.namedTree).
Proof.
  apply (PruneTags_before_ReplaceName_loses_names sample.tagKeys sample.namedTree).
  reflexivity.
Defined.


(** ** The audit consumer: what reaches the aggregator *)

(** A successful inference replaces the object reference and nothing
    else; the reference found has no resource version and no
    subresource. *)
Lemma inferObjectRef_Ok (recv : auditconsumer.receiver) (message message' : audit.Message) :
  auditconsumer.inferObjectRef recv message = Ok message' ->
  exists ref,
    message' = audit.with_ObjectRef (Some ref) message
    /\ audit.ResourceVersion ref = ""
    /\ audit.Subresource ref = ""
    /\ exists resp partial,
         audit.ResponseObject message = Some resp
         /\ auditconsumer.Unmarshal_Partial recv (default [] (audit.RawJSON resp)) = Ok partial
         /\ audit.Namespace ref = audit.PNamespace partial
         /\ audit.Name ref = audit.PName partial
         /\ audit.UID ref = audit.PUID partial.
Proof.
  unfold auditconsumer.inferObjectRef.
  destruct (audit.ResponseObject message) as [resp|]; [|discriminate].
  destruct (auditconsumer.Unmarshal_Partial recv _) as [partial|e] eqn:Hp; [|discriminate].
  destruct (schema.ParseGroupVersion _) as [[g v]|e]; [|discriminate].
  destruct (auditconsumer.discovery_ForCluster recv _) as [cdc|e]; [|discriminate].
  destruct (cdc _) as [gvr|]; [|discriminate].
  intros H. injection H as <-. eexists. split; [reflexivity|].
  split; [reflexivity|]. split; [reflexivity|].
  exists resp, partial. repeat split; [exact Hp].
Qed.

(** The steps of [handleItem] after the inference of the object
    reference, for the proof below. *)
Ltac handleItem_tail ref :=
  unfold audit.with_ObjectRef;
  cbn [audit.AuditID audit.Stage audit.Verb audit.User audit.ImpersonatedUser
       audit.UserAgent audit.ObjectRef audit.ResponseStatus audit.ResponseObject
       audit.RequestReceivedTimestamp audit.StageTimestamp audit.Cluster audit.SourceAddr];
  let resp := fresh "resp" in
  let Hresp := fresh "Hresp" in
  destruct (audit.ResponseObject _) as [resp|] eqn:Hresp;
  [destruct (auditconsumer.Unmarshal_Object _ _); [|left; split; reflexivity]|];
  (destruct (audit.ResponseStatus _) as [status|]; [|left; split; reflexivity]);
  (destruct (auditconsumer.decoratorList_Decorate _ _ _); [|left; split; reflexivity]);
  right;
  cbn [auditconsumer.HasTrace auditconsumer.panicked auditconsumer.sends auditconsumer.built];
  (split; [reflexivity|]); (split; [reflexivity|]);
  (split; [first [reflexivity | assumption]|]);
  (split; [first [reflexivity | assumption]|]);
  (split; [first [reflexivity | assumption]|]);
  exists status, ref; eexists;
  (split; [reflexivity|]); (split; [reflexivity|]);
  cbn [auditconsumer.sentEvent auditconsumer.object auditconsumer.subObjectId
       util.Cluster util.Namespace util.Name util.Uid util.Raw];
  repeat split; try reflexivity; try assumption; try discriminate;
  first [ reflexivity | eexists; split; reflexivity ].

(** The message [handleItem] works on after the inference step differs
    from the one received in its object reference only. *)
Lemma handleItem_sends_inv (recv : auditconsumer.receiver) (message : audit.Message) :
  let h := auditconsumer.handleItem recv message in
  (auditconsumer.HasTrace h = false /\ auditconsumer.sends h = [])
  \/ (auditconsumer.HasTrace h = true
      /\ auditconsumer.panicked h = false
      /\ auditconsumer.Has auditconsumer.supportedVerbs (audit.Verb message) = true
      /\ audit.Stage message = audit.StageResponseComplete
      /\ auditconsumer.filter_TestAuditEvent recv message = true
      /\ exists (status : audit.Status) (ref : audit.ObjectReference) (s : auditconsumer.SendCall),
           audit.ResponseStatus message = Some status
           /\ auditconsumer.sends h = [s]
           /\ auditconsumer.built h = Some (auditconsumer.sentEvent s)
           /\ match audit.ObjectRef message with
              | Some ref0 =>
                  if String.eqb (audit.Name ref0) "" then
                    exists message',
                      auditconsumer.inferObjectRef recv message = Ok message'
                      /\ audit.ObjectRef message' = Some ref
                  else ref = ref0
              | None =>
                  exists message',
                    auditconsumer.inferObjectRef recv message = Ok message'
                    /\ audit.ObjectRef message' = Some ref
              end
           /\ util.Cluster (auditconsumer.object s) = audit.Cluster message
           /\ util.Namespace (auditconsumer.object s) = audit.Namespace ref
           /\ util.Name (auditconsumer.object s) = audit.Name ref
           /\ util.Uid (auditconsumer.object s) = audit.UID ref
           /\ (util.Raw (auditconsumer.object s) = None <-> audit.ResponseObject message = None)
           /\ auditconsumer.subObjectId s =
                if auditconsumer.enableSubObject (auditconsumer.opts recv)
                   && (String.eqb (audit.Verb message) audit.VerbUpdate
                       || String.eqb (audit.Verb message) audit.VerbPatch)
                then Some {| auditconsumer.Id := "rv=" +:+ audit.ResourceVersion ref;
                             auditconsumer.Primary := audit.Code status <? 300 |}
                else None).
Proof.
  intros h. subst h. unfold auditconsumer.handleItem.
  destruct (auditconsumer.Has _ _) eqn:Hverb; cbn [negb]; [|left; split; reflexivity].
  destruct (String.eqb_spec (audit.Stage message) audit.StageResponseComplete) as [Hstage|_];
    cbn [negb]; [|left; split; reflexivity].
  destruct (auditconsumer.filter_TestAuditEvent recv message) eqn:Hfilter; cbn [negb];
    [|left; split; reflexivity].
  destruct (audit.ObjectRef message) as [ref0|] eqn:Href0.
  - destruct (String.eqb_spec (audit.Name ref0) "") as [Hname|Hname].
    + destruct (auditconsumer.inferObjectRef recv message) as [message'|e] eqn:Hinf;
        [|left; split; reflexivity].
      destruct (inferObjectRef_Ok recv message message' Hinf) as (ref & -> & _).
      handleItem_tail ref.
    + rewrite Href0. handleItem_tail ref0.
  - destruct (auditconsumer.inferObjectRef recv message) as [message'|e] eqn:Hinf;
      [|left; split; reflexivity].
    destruct (inferObjectRef_Ok recv message message' Hinf) as (ref & -> & _).
    handleItem_tail ref.
Qed.

(** X11.  A message of the queue is counted as traced only if its key
    names the cluster the consumer is restricted to (when it is
    restricted), its value decodes to an audit message of a create,
    update, delete or patch request at stage ResponseComplete that
    passes the filter and has a response status, and no panic occurred;
    the aggregator is then sent exactly one event, the one built.  A
    message that is not counted as traced sends nothing.  The cluster
    label of the metric is the text of the key before the first
    slash. *)
Theorem handleMessage_traces_only_completed_writes
    (recv : auditconsumer.receiver) (msgKey msgValue : list byte)
    (string_of_bytes : list byte -> string) :
  let cluster := (schema.cut_slash (string_of_bytes msgKey)).1 in
  let metric := (auditconsumer.handleMessage recv msgKey msgValue string_of_bytes).1 in
  let h := (auditconsumer.handleMessage recv msgKey msgValue string_of_bytes).2 in
  auditconsumer.MetricCluster metric = cluster
  /\ auditconsumer.MetricHasTrace metric = auditconsumer.HasTrace h
  /\ (auditconsumer.HasTrace h = false -> auditconsumer.sends h = [])
  /\ (auditconsumer.HasTrace h = true ->
      (auditconsumer.clusterFilter (auditconsumer.opts recv) = ""
       \/ auditconsumer.clusterFilter (auditconsumer.opts recv) = cluster)
      /\ exists (message : audit.Message) (status : audit.Status)
           (s : auditconsumer.SendCall),
           auditconsumer.Unmarshal_Message recv msgValue = Ok message
           /\ In (audit.Verb message)
                [audit.VerbCreate; audit.VerbUpdate; audit.VerbDelete; audit.VerbPatch]
           /\ audit.Stage message = audit.StageResponseComplete
           /\ auditconsumer.filter_TestAuditEvent recv message = true
           /\ audit.ResponseStatus message = Some status
           /\ auditconsumer.panicked h = false
           /\ auditconsumer.sends h = [s]
           /\ auditconsumer.built h = Some (auditconsumer.sentEvent s)
           /\ util.Cluster (auditconsumer.object s) = audit.Cluster message).
Proof.
  intros cluster metric h. subst metric h. unfold auditconsumer.handleMessage.
  fold cluster.
  destruct (String.eqb_spec (auditconsumer.clusterFilter (auditconsumer.opts recv)) "")
    as [Hany|Hone]; cbn [negb andb].
  - destruct (auditconsumer.Unmarshal_Message recv msgValue) as [message|e]; cbn [fst snd].
    + split; [reflexivity|]. split; [reflexivity|].
      destruct (handleItem_sends_inv recv message)
        as [[Hf Hs] | (Ht & Hp & Hv & Hst & Hfl & status & ref & s & Hrs & Hss & Hb & _ & Hc & _)].
      * split; [intros _; exact Hs|]. rewrite Hf. discriminate.
      * split; [rewrite Ht; discriminate|]. intros _. split; [now left|].
        exists message, status, s. apply Has_In in Hv. repeat split; assumption.
    + split; [reflexivity|]. split; [reflexivity|]. split; [reflexivity | discriminate].
  - destruct (String.eqb_spec (auditconsumer.clusterFilter (auditconsumer.opts recv)) cluster)
      as [Hsame|Hother]; cbn [negb].
    + destruct (auditconsumer.Unmarshal_Message recv msgValue) as [message|e]; cbn [fst snd].
      * split; [reflexivity|]. split; [reflexivity|].
        destruct (handleItem_sends_inv recv message)
          as [[Hf Hs] | (Ht & Hp & Hv & Hst & Hfl & status & ref & s & Hrs & Hss & Hb & _ & Hc & _)].
        -- split; [intros _; exact Hs|]. rewrite Hf. discriminate.
        -- split; [rewrite Ht; discriminate|]. intros _. split; [now right|].
           exists message, status, s. apply Has_In in Hv. repeat split; assumption.
      * split; [reflexivity|]. split; [reflexivity|]. split; [reflexivity | discriminate].
    + cbn [fst snd]. split; [reflexivity|]. split; [reflexivity|].
      split; [reflexivity | discriminate].
Qed.

(** X12.  Grouping of requests by resource version.  Every event
    [handleItem] sends carries a sub-object id exactly when grouping is
    enabled and the verb is update or patch.  The id is "rv=" followed
    by the resource version of the object reference, which is empty
    when the reference was inferred from the response, and it is
    primary exactly when the response code is below 300. *)
Theorem updates_are_grouped_by_resource_version
    (recv : auditconsumer.receiver) (message : audit.Message) :
  Forall
    (fun s =>
       match auditconsumer.subObjectId s with
       | Some id =>
           auditconsumer.enableSubObject (auditconsumer.opts recv) = true
           /\ (audit.Verb message = audit.VerbUpdate \/ audit.Verb message = audit.VerbPatch)
           /\ (exists status,
                 audit.ResponseStatus message = Some status
                 /\ auditconsumer.Primary id = (audit.Code status <? 300))
           /\ match audit.ObjectRef message with
              | Some ref =>
                  if String.eqb (audit.Name ref) "" then auditconsumer.Id id = "rv="
                  else auditconsumer.Id id = "rv=" +:+ audit.ResourceVersion ref
              | None => auditconsumer.Id id = "rv="
              end
       | None =>
           auditconsumer.enableSubObject (auditconsumer.opts recv) = false
           \/ (audit.Verb message <> audit.VerbUpdate
               /\ audit.Verb message <> audit.VerbPatch)
       end)
    (auditconsumer.sends (auditconsumer.handleItem recv message)).
Proof.
  destruct (handleItem_sends_inv recv message)
    as [[_ Hs] | (_ & _ & _ & _ & _ & status & ref & s & Hrs & Hss & _ & Horigin & _ & _ & _ & _
                  & _ & Hsub)].
  - rewrite Hs. constructor.
  - rewrite Hss. constructor; [|constructor]. rewrite Hsub.
    destruct (auditconsumer.enableSubObject (auditconsumer.opts recv)); cbn [andb];
      [|now left].
    assert (Hid :
      match audit.ObjectRef message with
      | Some ref0 =>
          if String.eqb (audit.Name ref0) "" then "rv=" +:+ audit.ResourceVersion ref = "rv="
          else "rv=" +:+ audit.ResourceVersion ref = "rv=" +:+ audit.ResourceVersion ref0
      | None => "rv=" +:+ audit.ResourceVersion ref = "rv="
      end).
    { destruct (audit.ObjectRef message) as [ref0|].
      - destruct (String.eqb (audit.Name ref0) "").
        + destruct Horigin as (m & Hinf & Href).
          destruct (inferObjectRef_Ok recv message m Hinf) as (ref' & -> & Hrv & _).
          cbn in Href. injection Href as <-. now rewrite Hrv.
        + now subst ref0.
      - destruct Horigin as (m & Hinf & Href).
        destruct (inferObjectRef_Ok recv message m Hinf) as (ref' & -> & Hrv & _).
        cbn in Href. injection Href as <-. now rewrite Hrv. }
    destruct (String.eqb_spec (audit.Verb message) audit.VerbUpdate) as [Hu|Hu];
      [|destruct (String.eqb_spec (audit.Verb message) audit.VerbPatch) as [Hp|Hp]];
      cbn [orb].
    + split; [reflexivity|]. split; [now left|]. split; [exists status; now split|].
      cbn [auditconsumer.Id]. exact Hid.
    + split; [reflexivity|]. split; [now right|]. split; [exists status; now split|].
      cbn [auditconsumer.Id]. exact Hid.
    + right. split; assumption.
Qed.

(** X13.  An object reference inferred from the response object has no
    resource version ("otherwise diff decorator will think this is a
    no-op").  So when the response object decodes with a resource
    version, the diff decorator never reports [noopUpdate] for a message
    whose reference was inferred, and for an update it asks the cache
    for the patch with an empty old version and the version of the
    response as the new one. *)
Theorem inferred_reference_is_not_a_noop
    (recv : auditconsumer.receiver) (d : decorator.decorator)
    (message message' : audit.Message) (ev : event.Event)
    (raw : list byte) (o : audit.PartialObjectMetadata) :
  auditconsumer.inferObjectRef recv message = Ok message' ->
  audit.ResponseObject message = Some {| audit.RawJSON := Some raw |} ->
  decorator.Unmarshal d raw = Ok (Some o) ->
  audit.PResourceVersion o <> "" ->
  let r := decorator.tryDecorate d message' ev in
  decorator.hit r <> decorator.cacheHitTypeNoop
  /\ (audit.Verb message = audit.VerbUpdate ->
      Forall
        (fun call =>
           exists object, call = decorator.Fetch object "" (Some (audit.PResourceVersion o)))
        (decorator.cacheCalls r)).
Proof.
  intros Hinf Hresp Hdec Hrv r. subst r.
  destruct (inferObjectRef_Ok recv message message' Hinf) as (ref & -> & Hnorv & _).
  unfold decorator.tryDecorate, audit.with_ObjectRef.
  cbn [audit.AuditID audit.Stage audit.Verb audit.User audit.ImpersonatedUser
       audit.UserAgent audit.ObjectRef audit.ResponseStatus audit.ResponseObject
       audit.RequestReceivedTimestamp audit.StageTimestamp audit.Cluster audit.SourceAddr].
  rewrite Hresp, Hdec, Hnorv.
  destruct (match audit.ResponseStatus message with
            | Some status => if 300 <=? audit.Code status then Some status else None
            | None => None
            end); [cbn; split; [discriminate | constructor]|].
  destruct (String.eqb_spec "" (audit.PResourceVersion o)) as [E|_];
    [destruct (Hrv (eq_sym E))|].
  rewrite andb_false_r.
  destruct (negb (decorator.decoratesResource _));
    [cbn; split; [discriminate | constructor]|].
  destruct (String.eqb_spec (audit.PResourceVersion o) "") as [E|_]; [destruct (Hrv E)|].
  destruct (String.eqb (audit.Verb message) audit.VerbUpdate
            || String.eqb (audit.Verb message) audit.VerbPatch).
  - destruct (String.eqb_spec "" (audit.PResourceVersion o)) as [E|_];
      [destruct (Hrv (eq_sym E))|].
    cbn [decorator.hit decorator.cacheCalls].
    split; [destruct (decorator.cacheHit _); discriminate|].
    intros _.
    match goal with |- context [decorator.PollImmediateUntil ?t ?f ?c ?s] =>
      destruct (polled_shape t f c ev) as (_ & Hm & _) end.
    cbv zeta in Hm. rewrite Hm. apply Forall_forall. intros call Hin.
    apply list_elem_of_In, repeat_spec in Hin. subst call. eexists. reflexivity.
  - destruct (String.eqb_spec (audit.Verb message) audit.VerbUpdate) as [Hu|Hu].
    + rewrite Hu.
      change (String.eqb audit.VerbUpdate audit.VerbCreate
              || String.eqb audit.VerbUpdate audit.VerbDelete) with false.
      cbn. split; [discriminate | constructor].
    + destruct (String.eqb (audit.Verb message) audit.VerbCreate
                || String.eqb (audit.Verb message) audit.VerbDelete);
        [|cbn; split; [discriminate | intros H; destruct (Hu H)]].
      destruct (diffcache.VerbToSnapshotName (audit.Verb message));
        [|cbn; split; [discriminate | intros H; destruct (Hu H)]].
      cbn [decorator.hit]. split; [destruct (decorator.cacheHit _); discriminate|].
      intros H; destruct (Hu H).
Qed.

Lemma inferred_reference_witness :
  decorator.hit
    (decorator.tryDecorate (sample.diffDecorator "101")
       (audit.with_ObjectRef
          (Some {| audit.Resource := "pods"; audit.Namespace := "default";
                   audit.Name := "p1"; audit.UID := "u-1"; audit.APIGroup := "";
                   audit.APIVersion := "v1"; audit.ResourceVersion := "";
                   audit.Subresource := "" |})
          sample.unnamedUpdate)
       sample.blank)
  <> decorator.cacheHitTypeNoop.
Proof.
  apply (inferred_reference_is_not_a_noop sample.receiver (sample.diffDecorator "101")
           sample.unnamedUpdate _ sample.blank (bytes_of "{}") (sample.p1Meta "101")).
  - reflexivity.
  - reflexivity.
  - reflexivity.
  - simpl; discriminate.
Defined.


(** ** The in-process queue: consumers, start-up and delivery *)

(** The consumer of a group and partition, if it was created. *)
Lemma queued_lookup (q : mqlocal.localQueue) (group : string) (partition : Z) :
  mqlocal.queued q group partition =
  default [] (mqlocal.consumers q !! group ≫= (fun g => g !! partition)).
Proof.
  unfold mqlocal.queued. destruct (mqlocal.consumers q !! group); reflexivity.
Qed.

(** X14.  [CreateConsumer] registers one consumer per group and
    partition.  It fails exactly when that consumer exists already, and
    then changes nothing; otherwise the new consumer starts with an
    empty queue, every other consumer keeps its queue, the options and
    the offset counter are untouched, and asking for the same consumer
    once more fails. *)
Theorem CreateConsumer_once_per_partition
    (q : mqlocal.localQueue) (group : string) (partition : Z) :
  let existing (q : mqlocal.localQueue) (g : string) (p : Z) :=
    mqlocal.consumers q !! g ≫= (fun c => c !! p) in
  match mqlocal.CreateConsumer q group partition with
  | Err _ => is_Some (existing q group partition)
  | Ok q' =>
      existing q group partition = None
      /\ existing q' group partition = Some []
      /\ (forall g p, (g, p) <> (group, partition) -> existing q' g p = existing q g p)
      /\ mqlocal.partitionByObject q' = mqlocal.partitionByObject q
      /\ mqlocal.numPartitions q' = mqlocal.numPartitions q
      /\ mqlocal.offsetCounter q' = mqlocal.offsetCounter q
      /\ exists e, mqlocal.CreateConsumer q' group partition = Err e
  end.
Proof.
  intros existing. unfold mqlocal.CreateConsumer, existing.
  destruct (default ∅ (mqlocal.consumers q !! group) !! partition) as [uq|] eqn:E.
  - destruct (mqlocal.consumers q !! group) as [g|]; cbn in E |- *.
    + rewrite E. eauto.
    + rewrite lookup_empty in E. discriminate E.
  - cbn [mqlocal.consumers mqlocal.partitionByObject mqlocal.numPartitions
         mqlocal.offsetCounter].
    split; [|split; [|split]].
    + destruct (mqlocal.consumers q !! group) as [g|]; cbn in E |- *; [exact E | reflexivity].
    + rewrite lookup_insert_eq. cbn. now rewrite lookup_insert_eq.
    + intros g p Hne. destruct (decide (g = group)) as [->|Hg].
      * rewrite lookup_insert_eq. cbn.
        rewrite lookup_insert_ne by congruence.
        destruct (mqlocal.consumers q !! group); cbn; [reflexivity | apply lookup_empty].
      * now rewrite lookup_insert_ne by congruence.
    + repeat split. rewrite lookup_insert_eq. cbn. rewrite lookup_insert_eq. eauto.
Qed.

(** [Init] over the local queue: distinct partitions that the group
    does not have yet are all created, with empty queues. *)
Lemma Init_local_Ok (group : string) (partitions : list Z) :
  forall q : mqlocal.localQueue,
  NoDup partitions ->
  (forall p, p ∈ partitions -> default ∅ (mqlocal.consumers q !! group) !! p = None) ->
  exists q',
    auditconsumer.Init mqlocal.CreateConsumer group partitions q = Ok q'
    /\ mqlocal.partitionByObject q' = mqlocal.partitionByObject q
    /\ mqlocal.numPartitions q' = mqlocal.numPartitions q
    /\ mqlocal.offsetCounter q' = mqlocal.offsetCounter q
    /\ (forall g, g <> group -> mqlocal.consumers q' !! g = mqlocal.consumers q !! g)
    /\ (forall p, default ∅ (mqlocal.consumers q' !! group) !! p =
                  if bool_decide (p ∈ partitions) then Some []
                  else default ∅ (mqlocal.consumers q !! group) !! p)
    /\ size (default ∅ (mqlocal.consumers q' !! group)) =
         (size (default ∅ (mqlocal.consumers q !! group)) + length partitions)%nat
    /\ (partitions <> [] -> is_Some (mqlocal.consumers q' !! group)).
Proof.
  induction partitions as [|p ps IH]; intros q Hnd Hnew.
  - exists q. cbn [auditconsumer.Init length].
    split; [reflexivity|]. split; [reflexivity|]. split; [reflexivity|].
    split; [reflexivity|]. split; [reflexivity|].
    split; [intros p; reflexivity|]. split; [lia|].
    intros H. now destruct H.
  - apply NoDup_cons in Hnd. destruct Hnd as [Hp Hnd].
    cbn [auditconsumer.Init]. unfold mqlocal.CreateConsumer at 1.
    rewrite (Hnew p) by (left).
    set (q1 := {| mqlocal.partitionByObject := mqlocal.partitionByObject q;
                  mqlocal.numPartitions := mqlocal.numPartitions q;
                  mqlocal.consumers :=
                    <[group := <[p := []]> (default ∅ (mqlocal.consumers q !! group))]>
                      (mqlocal.consumers q);
                  mqlocal.offsetCounter := mqlocal.offsetCounter q |}).
    assert (Hg1 : default ∅ (mqlocal.consumers q1 !! group) =
                  <[p := []]> (default ∅ (mqlocal.consumers q !! group))).
    { subst q1. cbn [mqlocal.consumers]. now rewrite lookup_insert_eq. }
    destruct (IH q1 Hnd) as (q' & HI & Hb & Hn & Ho & Hother & Hthis & Hsize & _).
    { intros p' Hp'. rewrite Hg1. rewrite lookup_insert_ne.
      - apply Hnew. now right.
      - intros ->. contradiction. }
    exists q'. split; [exact HI|]. split; [exact Hb|]. split; [exact Hn|].
    split; [exact Ho|]. split; [|split; [|split]].
    + intros g Hg. rewrite (Hother g Hg). subst q1. cbn [mqlocal.consumers].
      now rewrite lookup_insert_ne by congruence.
    + intros p'. rewrite Hthis, Hg1.
      destruct (decide (p' = p)) as [->|Hne].
      * rewrite (bool_decide_eq_true_2 (p ∈ p :: ps)) by left.
        rewrite lookup_insert_eq. now destruct (bool_decide (p ∈ ps)).
      * rewrite lookup_insert_ne by congruence.
        destruct (bool_decide_reflect (p' ∈ ps)) as [Hin|Hin].
        -- now rewrite bool_decide_eq_true_2 by (now right).
        -- rewrite bool_decide_eq_false_2; [reflexivity|].
           intros H. apply elem_of_cons in H. destruct H as [H|H]; contradiction.
    + rewrite Hsize, Hg1. rewrite map_size_insert_None by (apply Hnew; left).
      cbn [length]. lia.
    + intros _. pose proof (Hthis p) as Hp'. rewrite Hg1, lookup_insert_eq in Hp'.
      destruct (mqlocal.consumers q' !! group) as [g|]; [eauto|].
      exfalso. cbn in Hp'. rewrite lookup_empty in Hp'.
      now destruct (bool_decide (p ∈ ps)).
Qed.

(** X15.  [Init] of the audit consumer over a new local queue succeeds
    exactly when the configured partitions are pairwise distinct: a
    partition named twice is the duplicate registration that
    [CreateConsumer] refuses. *)
Theorem Init_refuses_a_partition_named_twice
    (partitionByObject : bool) (group : string) (partitions : list Z) :
  (exists q, auditconsumer.Init mqlocal.CreateConsumer group partitions
               (mqlocal.newLocal partitionByObject) = Ok q)
  <-> NoDup partitions.
Proof.
  split.
  - assert (H : forall ps (q q' : mqlocal.localQueue),
              auditconsumer.Init mqlocal.CreateConsumer group ps q = Ok q' ->
              NoDup ps
              /\ forall p, p ∈ ps -> default ∅ (mqlocal.consumers q !! group) !! p = None).
    { induction ps as [|p ps IH]; intros q q' HI.
      - split; [constructor | intros p Hp; now apply elem_of_nil in Hp].
      - cbn [auditconsumer.Init] in HI. unfold mqlocal.CreateConsumer at 1 in HI.
        destruct (default ∅ (mqlocal.consumers q !! group) !! p) eqn:E; [discriminate HI|].
        apply IH in HI. destruct HI as [Hnd Hnew]. cbn [mqlocal.consumers] in Hnew.
        rewrite lookup_insert_eq in Hnew. cbn in Hnew.
        assert (Hp : p ∉ ps).
        { intros Hin. specialize (Hnew p Hin). rewrite lookup_insert_eq in Hnew.
          discriminate Hnew. }
        split; [now constructor|].
        intros p' Hp'. apply elem_of_cons in Hp'. destruct Hp' as [->|Hp']; [exact E|].
        specialize (Hnew p' Hp'). rewrite lookup_insert_ne in Hnew; [exact Hnew|].
        intros ->. contradiction. }
    intros (q & HI). exact (proj1 (H _ _ _ HI)).
  - intros Hnd.
    destruct (Init_local_Ok group partitions (mqlocal.newLocal partitionByObject) Hnd)
      as (q' & HI & _).
    + intros p _. cbn. apply lookup_empty.
    + now exists q'.
Qed.

(** With a positive partition count [Send] selects a partition below
    it, by hash or by draw. *)
Lemma selectPartition_in_range (q : mqlocal.localQueue) (key : option (list byte))
    (drawn : Z) :
  0 < mqlocal.numPartitions q < 2 ^ 31 ->
  exists p,
    mqlocal.selectPartition q key drawn = Some p
    /\ 0 <= p < mqlocal.numPartitions q.
Proof.
  intros HN. unfold mqlocal.selectPartition, mqlocal.Int31n.
  assert (Hrandom :
    exists p,
      (if mqlocal.numPartitions q <=? 0 then None
       else Some (drawn mod mqlocal.numPartitions q)) = Some p
      /\ 0 <= p < mqlocal.numPartitions q).
  { destruct (Z.leb_spec (mqlocal.numPartitions q) 0); [lia|].
    eexists. split; [reflexivity|]. apply Z.mod_pos_bound. lia. }
  destruct (mqlocal.partitionByObject q); [|exact Hrandom].
  destruct key as [k|]; [|exact Hrandom].
  rewrite uint32_small by lia.
  destruct (Z.eqb_spec (mqlocal.numPartitions q) 0); [lia|].
  pose proof (Z.mod_pos_bound (mqlocal.fnv32 k) (mqlocal.numPartitions q) ltac:(lia)).
  eexists. split; [reflexivity|]. rewrite int32_small; lia.
Qed.

(** X16.  The audit consumer and the local queue fit together.  When
    the consumer is configured with the partitions [0 .. N-1] (in any
    order, each once; the default is 0 to 4), [Init] creates its
    consumers, [Start] fixes the partition count at [N], and from then
    on no [Send] panics: whatever the key, the value and the random
    draw, the message gets offset 1 and is queued for exactly one
    partition of the group, a partition in [0, N), and for no other. *)
Theorem consumed_partitions_receive_every_message
    (partitionByObject : bool) (group : string) (partitions : list Z) :
  NoDup partitions ->
  partitions <> [] ->
  Z.of_nat (length partitions) < 2 ^ 31 ->
  (forall p, 0 <= p < Z.of_nat (length partitions) -> In p partitions) ->
  exists q1 q2,
    auditconsumer.Init mqlocal.CreateConsumer group partitions
      (mqlocal.newLocal partitionByObject) = Ok q1
    /\ mqlocal.Start q1 = Ok q2
    /\ mqlocal.numPartitions q2 = Z.of_nat (length partitions)
    /\ forall (key : option (list byte)) (value : list byte) (drawn : Z),
         exists q3 p,
           mqlocal.Send q2 key value drawn = Some q3
           /\ 0 <= p < Z.of_nat (length partitions)
           /\ mqlocal.queued q3 group p =
                [{| mqlocal.offset := 1; mqlocal.key := key; mqlocal.value := value |}]
           /\ (forall p', p' <> p -> mqlocal.queued q3 group p' = [])
           /\ mqlocal.offsetCounter q3 = 1.
Proof.
  intros Hnd Hne Hlen Hall.
  destruct (Init_local_Ok group partitions (mqlocal.newLocal partitionByObject) Hnd)
    as (q1 & HI & Hb & _ & Ho & Hother & Hthis & Hsize & Hsome).
  { intros p _. cbn. apply lookup_empty. }
  destruct (Hsome Hne) as [cs Hcs]. rewrite Hcs in Hthis, Hsize. cbn in Hthis, Hsize.
  assert (Hq1 : mqlocal.consumers q1 = {[ group := cs ]}).
  { apply map_eq. intros g. destruct (decide (g = group)) as [->|Hg].
    - now rewrite lookup_singleton_eq.
    - rewrite lookup_singleton_ne by congruence. rewrite (Hother g Hg). apply lookup_empty. }
  assert (Hcs_in : forall p, 0 <= p < Z.of_nat (length partitions) -> cs !! p = Some []).
  { intros p Hp. rewrite Hthis, bool_decide_eq_true_2; [reflexivity|].
    apply list_elem_of_In, Hall, Hp. }
  assert (Hcs_other : forall p, cs !! p = Some [] \/ cs !! p = None).
  { intros p. rewrite Hthis. destruct (bool_decide (p ∈ partitions)); [now left | now right]. }
  assert (Hsize' : Z.of_nat (size cs) = Z.of_nat (length partitions)).
  { rewrite Hsize, ?map_size_empty. reflexivity. }
  assert (Hlen0 : 0 < Z.of_nat (length partitions)).
  { destruct partitions; [now destruct Hne | cbn [length]; lia]. }
  exists q1.
  exists {| mqlocal.partitionByObject := mqlocal.partitionByObject q1;
            mqlocal.numPartitions := Z.of_nat (length partitions);
            mqlocal.consumers := {[ group := cs ]};
            mqlocal.offsetCounter := 0 |}.
  split; [exact HI|]. split.
  { unfold mqlocal.Start. rewrite Hq1, map_to_list_singleton.
    cbn [fmap list_fmap forallb snd]. rewrite Hsize', int32_small by lia.
    rewrite Ho. reflexivity. }
  split; [reflexivity|].
  intros key value drawn.
  destruct (selectPartition_in_range
              {| mqlocal.partitionByObject := mqlocal.partitionByObject q1;
                 mqlocal.numPartitions := Z.of_nat (length partitions);
                 mqlocal.consumers := {[ group := cs ]};
                 mqlocal.offsetCounter := 0 |} key drawn)
    as (p & Hsel & Hp); [cbn [mqlocal.numPartitions]; lia|].
  cbn [mqlocal.numPartitions] in Hp.
  eexists. exists p. unfold mqlocal.Send. rewrite Hsel. cbn [mbind option_bind].
  cbn [mqlocal.consumers mqlocal.offsetCounter].
  unfold mqlocal.deliver. rewrite map_to_list_singleton.
  cbn [forallb snd]. rewrite (Hcs_in p Hp).
  rewrite bool_decide_eq_true_2 by eauto. cbn [andb mbind option_bind].
  split; [reflexivity|]. split; [exact Hp|].
  unfold mqlocal.queued. cbn [mqlocal.consumers mqlocal.offsetCounter].
  rewrite map_fmap_singleton, lookup_singleton_eq. cbn [default from_option id].
  split; [|split; [|reflexivity]].
  - rewrite lookup_alter_eq, (Hcs_in p Hp). reflexivity.
  - intros p' Hp'. rewrite lookup_alter_ne by congruence.
    destruct (Hcs_other p') as [-> | ->]; reflexivity.
Qed.

Lemma consumed_partitions_witness :
  exists q1 q2,
    auditconsumer.Init mqlocal.CreateConsumer "kelemetry" [0; 1; 2; 3; 4]
      (mqlocal.newLocal true) = Ok q1
    /\ mqlocal.Start q1 = Ok q2
    /\ mqlocal.numPartitions q2 = 5
    /\ forall (key : option (list byte)) (value : list byte) (drawn : Z),
         exists q3 p,
           mqlocal.Send q2 key value drawn = Some q3
           /\ 0 <= p < 5
           /\ mqlocal.queued q3 "kelemetry" p =
                [{| mqlocal.offset := 1; mqlocal.key := key; mqlocal.value := value |}]
           /\ (forall p', p' <> p -> mqlocal.queued q3 "kelemetry" p' = [])
           /\ mqlocal.offsetCounter q3 = 1.
Proof.
  apply (consumed_partitions_receive_every_message true "kelemetry" [0; 1; 2; 3; 4]).
  - repeat constructor; cbn; rewrite ?elem_of_cons, ?elem_of_nil; lia.
  - discriminate.
  - simpl; lia.
  - intros p Hp. simpl in Hp |- *. lia.
Defined.

Lemma forallb_false {A : Type} (f : A -> bool) (l : list A) :
  forallb f l = false -> exists x, In x l /\ f x = false.
Proof.
  induction l as [|x l IH]; cbn [forallb]; [discriminate|].
  destruct (f x) eqn:E; cbn [andb].
  - intros H. destruct (IH H) as (y & Hy & Hf). exists y. split; [now right | exact Hf].
  - intros _. exists x. split; [now left | exact E].
Qed.

(** X17.  [Start] succeeds exactly when all consumer groups have the
    same number of partitions, and then that number is the partition
    count of the producer (-1 when there is no group at all); consumers,
    options and offsets are as before.  It fails exactly when two
    groups differ in their number of partitions. *)
Theorem Start_agrees_on_the_partition_count (q : mqlocal.localQueue) :
  match mqlocal.Start q with
  | Ok q' =>
      mqlocal.consumers q' = mqlocal.consumers q
      /\ mqlocal.offsetCounter q' = mqlocal.offsetCounter q
      /\ mqlocal.partitionByObject q' = mqlocal.partitionByObject q
      /\ (forall group cs,
            mqlocal.consumers q !! group = Some cs ->
            mqlocal.numPartitions q' = goint.int32 (Z.of_nat (size cs)))
      /\ (mqlocal.consumers q = ∅ -> mqlocal.numPartitions q' = -1)
  | Err _ =>
      exists g1 cs1 g2 cs2,
        mqlocal.consumers q !! g1 = Some cs1
        /\ mqlocal.consumers q !! g2 = Some cs2
        /\ size cs1 <> size cs2
  end.
Proof.
  unfold mqlocal.Start.
  destruct (map_to_list (mqlocal.consumers q)) as [|[g0 cs0] rest] eqn:El;
    cbn [fmap list_fmap snd].
  - apply map_to_list_empty_iff in El.
    cbn [mqlocal.consumers mqlocal.offsetCounter mqlocal.partitionByObject
         mqlocal.numPartitions].
    repeat split; try reflexivity.
    intros group cs H. rewrite El, lookup_empty in H. discriminate H.
  - assert (H0 : mqlocal.consumers q !! g0 = Some cs0).
    { apply elem_of_map_to_list. rewrite El. left. }
    destruct (forallb _ _) eqn:Hall.
    + cbn [mqlocal.consumers mqlocal.offsetCounter mqlocal.partitionByObject
           mqlocal.numPartitions].
      repeat split; try reflexivity.
      * intros group cs H. apply elem_of_map_to_list in H. rewrite El in H.
        apply elem_of_cons in H. destruct H as [H|H].
        -- injection H as -> ->. reflexivity.
        -- rewrite forallb_forall in Hall.
           specialize (Hall (Z.of_nat (size cs))).
           rewrite Z.eqb_eq in Hall. rewrite Hall; [reflexivity|].
           apply in_map_iff. exists (group, cs). split; [reflexivity|].
           now apply list_elem_of_In.
      * intros He. rewrite He, lookup_empty in H0. discriminate H0.
    + apply forallb_false in Hall. destruct Hall as (n & Hin & Hn).
      apply in_map_iff in Hin. destruct Hin as ([g cs] & <- & Hin). cbn [snd] in Hn.
      exists g0, cs0, g, cs. split; [exact H0|]. split.
      * apply elem_of_map_to_list. rewrite El. right. now apply list_elem_of_In.
      * apply Z.eqb_neq in Hn. lia.
Qed.

(** X18.  A producer without any consumer group.  [Start] then leaves
    the partition count at -1, and [Send] panics in [rand.Int31n]
    unless the queue partitions by object and the message has a key; in
    that case the hash is reduced modulo [uint32(-1)], the message is
    delivered to nobody, and only the offset counter moves. *)
Theorem Send_without_consumers
    (q : mqlocal.localQueue) (key : option (list byte)) (value : list byte) (drawn : Z) :
  mqlocal.consumers q = ∅ ->
  exists q',
    mqlocal.Start q = Ok q'
    /\ mqlocal.numPartitions q' = -1
    /\ mqlocal.Send q' key value drawn =
         match mqlocal.partitionByObject q, key with
         | true, Some _ =>
             Some {| mqlocal.partitionByObject := true;
                     mqlocal.numPartitions := -1;
                     mqlocal.consumers := ∅;
                     mqlocal.offsetCounter := goint.int64 (mqlocal.offsetCounter q + 1) |}
         | _, _ => None
         end.
Proof.
  intros He. unfold mqlocal.Start. rewrite He, map_to_list_empty. cbn [fmap list_fmap].
  eexists. split; [reflexivity|]. split; [reflexivity|].
  unfold mqlocal.Send, mqlocal.selectPartition.
  cbn [mqlocal.partitionByObject mqlocal.numPartitions mqlocal.consumers
       mqlocal.offsetCounter].
  change (goint.int32 (-1)) with (-1).
  destruct (mqlocal.partitionByObject q); [destruct key as [k|]|]; reflexivity.
Qed.

Lemma Send_without_consumers_witness :
  exists q',
    mqlocal.Start (mqlocal.newLocal false) = Ok q'
    /\ mqlocal.numPartitions q' = -1
    /\ mqlocal.Send q' (Some sample.p1Key) (bytes_of "{}") 3 = None.
Proof.
  apply (Send_without_consumers (mqlocal.newLocal false) (Some sample.p1Key)
           (bytes_of "{}") 3).
  reflexivity.
Defined.

(** X19.  Delivery is first-in first-out per partition.  A [Send] that
    returns gives the message the next offset and appends it to the
    queue of the selected partition in every consumer group, each of
    which has a consumer for it; no queue loses a message or is
    reordered, and no other queue changes.  A [Send] panics exactly
    when no partition can be selected or some group has no consumer for
    the selected one. *)
Theorem Send_appends_in_order
    (q : mqlocal.localQueue) (key : option (list byte)) (value : list byte) (drawn : Z) :
  match mqlocal.Send q key value drawn with
  | Some q' =>
      exists p,
        mqlocal.selectPartition q key drawn = Some p
        /\ mqlocal.offsetCounter q' = goint.int64 (mqlocal.offsetCounter q + 1)
        /\ mqlocal.numPartitions q' = mqlocal.numPartitions q
        /\ (forall group cs,
              mqlocal.consumers q !! group = Some cs -> is_Some (cs !! p))
        /\ forall group,
             is_Some (mqlocal.consumers q !! group) ->
             mqlocal.queued q' group p =
               (mqlocal.queued q group p
                  ++ [{| mqlocal.offset := mqlocal.offsetCounter q';
                         mqlocal.key := key; mqlocal.value := value |}])%list
             /\ forall p', p' <> p -> mqlocal.queued q' group p' = mqlocal.queued q group p'
  | None =>
      mqlocal.selectPartition q key drawn = None
      \/ exists p group cs,
           mqlocal.selectPartition q key drawn = Some p
           /\ mqlocal.consumers q !! group = Some cs
           /\ cs !! p = None
  end.
Proof.
  destruct (mqlocal.Send q key value drawn) as [q'|] eqn:HS.
  - destruct (Send_delivers q q' key value drawn HS) as (p & Hsel & Hq').
    exists p. split; [exact Hsel|].
    assert (Hp : forall group cs, mqlocal.consumers q !! group = Some cs -> is_Some (cs !! p)).
    { unfold mqlocal.Send in HS. rewrite Hsel in HS. cbn [mbind option_bind] in HS.
      unfold mqlocal.deliver in HS.
      destruct (forallb _ _) eqn:Hall; [|discriminate HS].
      intros group cs Hg. rewrite forallb_forall in Hall.
      assert (Hin : In (group, cs) (map_to_list (mqlocal.consumers q))).
      { now apply list_elem_of_In, elem_of_map_to_list. }
      specialize (Hall (group, cs) Hin). cbn [snd] in Hall.
      now rewrite bool_decide_eq_true in Hall. }
    unfold mqlocal.Send in HS. rewrite Hsel in HS. cbn [mbind option_bind] in HS.
    destruct (mqlocal.deliver _ _ _); [|discriminate HS].
    cbn [mbind option_bind] in HS. injection HS as <-.
    cbn [mqlocal.offsetCounter mqlocal.numPartitions] in *.
    split; [reflexivity|]. split; [reflexivity|]. split; [exact Hp|].
    intros group [cs Hcs]. unfold mqlocal.queued. rewrite (Hq' group), Hcs.
    cbn [fmap option_fmap option_map default from_option id].
    destruct (Hp group cs Hcs) as [uq Huq]. split.
    + rewrite lookup_alter_eq, Huq. reflexivity.
    + intros p' Hp'. now rewrite lookup_alter_ne by congruence.
  - unfold mqlocal.Send in HS.
    destruct (mqlocal.selectPartition q key drawn) as [p|]; [|now left].
    right. cbn [mbind option_bind] in HS. unfold mqlocal.deliver in HS.
    destruct (forallb _ _) eqn:Hall; [discriminate HS|].
    apply forallb_false in Hall. destruct Hall as ([group cs] & Hin & Hf).
    cbn [snd] in Hf. rewrite bool_decide_eq_false in Hf.
    exists p, group, cs. split; [reflexivity|]. split.
    + now apply elem_of_map_to_list, list_elem_of_In.
    + destruct (cs !! p) eqn:E; [|reflexivity]. destruct Hf. eauto.
Qed.


(** ** The diff controller: which types are monitored *)

(** The counter of [shouldMonitorType] is the number of verbs that are
    "list" or "watch". *)
Lemma canListWatch_count (verbs : list string) (n : Z) :
  fold_left
    (fun canListWatch verb =>
       if String.eqb verb "list" || String.eqb verb "watch"
       then canListWatch + 1 else canListWatch) verbs n =
  n + Z.of_nat
        (length (List.filter
                   (fun verb => String.eqb verb "list" || String.eqb verb "watch") verbs)).
Proof.
  revert n. induction verbs as [|verb verbs IH]; intros n; cbn [fold_left List.filter].
  - cbn. lia.
  - rewrite IH. destruct (String.eqb verb "list" || String.eqb verb "watch"); cbn [length]; lia.
Qed.

Lemma listWatch_NoDup (verbs : list string) :
  NoDup verbs ->
  length (List.filter
            (fun verb => String.eqb verb "list" || String.eqb verb "watch") verbs) =
  ((if bool_decide ("list" ∈ verbs) then 1 else 0)
   + (if bool_decide ("watch" ∈ verbs) then 1 else 0))%nat.
Proof.
  induction verbs as [|verb verbs IH]; intros Hnd; [reflexivity|].
  apply NoDup_cons in Hnd. destruct Hnd as [Hverb Hnd]. specialize (IH Hnd).
  cbn [List.filter].
  destruct (String.eqb_spec verb "list") as [->|Hl].
  - cbn [orb length]. rewrite IH.
    rewrite (bool_decide_eq_true_2 ("list" ∈ "list" :: verbs)) by left.
    rewrite (bool_decide_eq_false_2 ("list" ∈ verbs)) by exact Hverb.
    destruct (bool_decide_reflect ("watch" ∈ verbs)) as [Hw|Hw].
    + rewrite bool_decide_eq_true_2 by (now right). reflexivity.
    + rewrite bool_decide_eq_false_2; [reflexivity|].
      intros H. apply elem_of_cons in H. destruct H as [H|H]; [discriminate H | contradiction].
  - destruct (String.eqb_spec verb "watch") as [->|Hw].
    + cbn [orb length]. rewrite IH.
      rewrite (bool_decide_eq_true_2 ("watch" ∈ "watch" :: verbs)) by left.
      rewrite (bool_decide_eq_false_2 ("watch" ∈ verbs)) by exact Hverb.
      destruct (bool_decide_reflect ("list" ∈ verbs)) as [Hl'|Hl'].
      * rewrite bool_decide_eq_true_2 by (now right). reflexivity.
      * rewrite bool_decide_eq_false_2; [reflexivity|].
        intros H. apply elem_of_cons in H. destruct H as [H|H]; [discriminate H | contradiction].
    + cbn [orb]. rewrite IH.
      assert (E : forall v, v <> verb ->
                  bool_decide (v ∈ verb :: verbs) = bool_decide (v ∈ verbs)).
      { intros v Hv. apply bool_decide_ext. rewrite elem_of_cons. tauto. }
      rewrite (E "list"), (E "watch") by congruence. reflexivity.
Qed.

(** X20.  A resource type whose verbs are listed without repetition is
    monitored exactly when its verbs include both "list" and "watch"
    and the type passes the filter.  (The code counts the verbs that
    are "list" or "watch" and asks for the count to be two.) *)
Theorem shouldMonitorType_needs_list_and_watch
    (filter_TestGvr : util.GroupVersionResource -> bool)
    (gvr : util.GroupVersionResource) (apiResource : diffcontroller.APIResource) :
  NoDup (diffcontroller.Verbs apiResource) ->
  diffcontroller.shouldMonitorType filter_TestGvr gvr apiResource = true
  <-> In "list" (diffcontroller.Verbs apiResource)
      /\ In "watch" (diffcontroller.Verbs apiResource)
      /\ filter_TestGvr gvr = true.
Proof.
  intros Hnd. unfold diffcontroller.shouldMonitorType.
  rewrite canListWatch_count, (listWatch_NoDup _ Hnd), Z.add_0_l.
  rewrite <- !list_elem_of_In.
  destruct (bool_decide_reflect ("list" ∈ diffcontroller.Verbs apiResource)) as [Hl|Hl];
    destruct (bool_decide_reflect ("watch" ∈ diffcontroller.Verbs apiResource)) as [Hw|Hw];
    cbn [Nat.add Z.of_nat Pos.of_succ_nat Pos.succ Z.eqb Pos.eqb negb];
    try (split; [discriminate | tauto]).
  destruct (filter_TestGvr gvr); cbn [negb]; split; try tauto; try discriminate.
Qed.

Lemma shouldMonitorType_witness :
  diffcontroller.shouldMonitorType (fun _ => true) sample.podsGvr sample.podsResource = true
  <-> In "list" (diffcontroller.Verbs sample.podsResource)
      /\ In "watch" (diffcontroller.Verbs sample.podsResource)
      /\ true = true.
Proof.
  apply (shouldMonitorType_needs_list_and_watch (fun _ => true) sample.podsGvr
           sample.podsResource).
  repeat constructor; cbn; rewrite ?elem_of_cons, ?elem_of_nil;
    intros H; repeat (destruct H as [H|H]; [discriminate H|]); exact H.
Defined.

(** ** The diff controller: the reconcile step *)

Lemma fold_append_filter {A B : Type} (keep : A -> bool) (f : A -> B)
    (step : list B -> A -> list B) (l : list A) (acc : list B) :
  (forall acc x, step acc x = if keep x then (acc ++ [f x])%list else acc) ->
  fold_left step l acc = (acc ++ map f (List.filter keep l))%list.
Proof.
  intros Hstep. revert acc. induction l as [|x l IH]; intros acc; cbn [fold_left List.filter].
  - now rewrite app_nil_r.
  - rewrite IH, Hstep. destruct (keep x); [|reflexivity].
    cbn [map]. now rewrite <- app_assoc.
Qed.

Lemma NoDup_map_fst_filter {K A : Type} (keep : K * A -> bool) (l : list (K * A)) :
  NoDup (map fst l) -> NoDup (map fst (List.filter keep l)).
Proof.
  induction l as [|x l IH]; cbn [map List.filter]; [trivial|].
  intros Hnd. apply NoDup_cons in Hnd. destruct Hnd as [Hx Hnd].
  destruct (keep x); [|now apply IH].
  cbn [map]. apply NoDup_cons. split; [|now apply IH].
  intros Hin. apply Hx. apply list_elem_of_In in Hin. apply list_elem_of_In.
  apply in_map_iff in Hin. destruct Hin as (y & Hy & Hin).
  apply in_map_iff. exists y. split; [exact Hy|]. apply filter_In in Hin. tauto.
Qed.

(** [compareMonitors] computes the two set differences. *)
Lemma compareMonitors_spec
    (filter_TestGvr : util.GroupVersionResource -> bool)
    (monitors : gmap util.GroupVersionResource diffcontroller.monitor)
    (expected : gmap util.GroupVersionResource diffcontroller.APIResource) :
  let toStart := (diffcontroller.compareMonitors filter_TestGvr monitors expected).1 in
  let toStop := (diffcontroller.compareMonitors filter_TestGvr monitors expected).2 in
  (forall gvr,
     gvr ∈ toStart <->
     exists apiResource,
       expected !! gvr = Some apiResource
       /\ diffcontroller.shouldMonitorType filter_TestGvr gvr apiResource = true
       /\ monitors !! gvr = None)
  /\ (forall gvr, gvr ∈ toStop <-> is_Some (monitors !! gvr) /\ expected !! gvr = None)
  /\ NoDup toStart
  /\ NoDup toStop.
Proof.
  intros toStart toStop. subst toStart toStop. unfold diffcontroller.compareMonitors.
  cbn [fst snd].
  rewrite (fold_append_filter
             (fun entry : util.GroupVersionResource * diffcontroller.APIResource =>
                diffcontroller.shouldMonitorType filter_TestGvr entry.1 entry.2
                && negb (bool_decide (is_Some (monitors !! entry.1))))
             fst).
  2:{ intros acc x. destruct (diffcontroller.shouldMonitorType _ _ _); cbn [negb andb];
        [|reflexivity].
      destruct (bool_decide _); reflexivity. }
  rewrite (fold_append_filter
             (fun entry : util.GroupVersionResource * diffcontroller.monitor =>
                negb (bool_decide (is_Some (expected !! entry.1))))
             fst).
  2:{ intros acc x. reflexivity. }
  cbn [app]. split; [|split; [|split]].
  - intros gvr. rewrite list_elem_of_In, in_map_iff. split.
    + intros ([g api] & <- & Hin). apply filter_In in Hin. destruct Hin as [Hin Hkeep].
      cbn [fst snd] in *. apply andb_true_iff in Hkeep. destruct Hkeep as [Hs Hm].
      exists api. split; [now apply elem_of_map_to_list, list_elem_of_In|].
      split; [exact Hs|]. apply negb_true_iff, bool_decide_eq_false in Hm.
      destruct (monitors !! g); [destruct Hm; eauto | reflexivity].
    + intros (api & He & Hs & Hm). exists (gvr, api). split; [reflexivity|].
      apply filter_In. split; [now apply list_elem_of_In, elem_of_map_to_list|].
      cbn [fst snd]. rewrite Hs, Hm. reflexivity.
  - intros gvr. rewrite list_elem_of_In, in_map_iff. split.
    + intros ([g m] & <- & Hin). apply filter_In in Hin. destruct Hin as [Hin Hkeep].
      cbn [fst snd] in *. apply list_elem_of_In, elem_of_map_to_list in Hin.
      split; [eauto|]. apply negb_true_iff, bool_decide_eq_false in Hkeep.
      destruct (expected !! g); [destruct Hkeep; eauto | reflexivity].
    + intros ([m Hm] & He). exists (gvr, m). split; [reflexivity|].
      apply filter_In. split; [now apply list_elem_of_In, elem_of_map_to_list|].
      cbn [fst snd]. rewrite He. reflexivity.
  - apply NoDup_map_fst_filter, NoDup_fst_map_to_list.
  - apply NoDup_map_fst_filter, NoDup_fst_map_to_list.
Qed.

(** [addMonitors] of the monitors started for a list of types. *)
Lemma addMonitors_lookup (mk : util.GroupVersionResource -> diffcontroller.monitor)
    (gvrs : list util.GroupVersionResource) :
  (forall g, diffcontroller.gvr (mk g) = g) ->
  forall (monitors : gmap util.GroupVersionResource diffcontroller.monitor)
         (g : util.GroupVersionResource),
  diffcontroller.addMonitors (mk <$> gvrs) monitors !! g =
  if bool_decide (g ∈ gvrs) then Some (mk g) else monitors !! g.
Proof.
  intros Hmk. induction gvrs as [|a gvrs IH]; intros monitors g.
  - reflexivity.
  - change (diffcontroller.addMonitors (mk <$> a :: gvrs) monitors)
      with (diffcontroller.addMonitors (mk <$> gvrs) (<[diffcontroller.gvr (mk a) := mk a]> monitors)).
    rewrite IH, Hmk.
    destruct (bool_decide_reflect (g ∈ gvrs)) as [Hin|Hin].
    + now rewrite bool_decide_eq_true_2 by (now right).
    + destruct (decide (g = a)) as [->|Hne].
      * rewrite bool_decide_eq_true_2 by left. apply lookup_insert_eq.
      * rewrite bool_decide_eq_false_2.
        -- now apply lookup_insert_ne.
        -- intros H. apply elem_of_cons in H. destruct H; contradiction.
Qed.

(** [drainMonitors] of distinct types: each monitor as the map had it,
    and the map without them. *)
Lemma drainMonitors_fold (gvrs : list util.GroupVersionResource) :
  NoDup gvrs ->
  forall (acc : list (option diffcontroller.monitor))
         (monitors : gmap util.GroupVersionResource diffcontroller.monitor),
  let r := fold_left
             (fun acc gvr => ((acc.1 ++ [acc.2 !! gvr])%list, delete gvr acc.2))
             gvrs (acc, monitors) in
  r.1 = (acc ++ map (fun g => monitors !! g) gvrs)%list
  /\ forall g, r.2 !! g = if bool_decide (g ∈ gvrs) then None else monitors !! g.
Proof.
  induction gvrs as [|a gvrs IH]; intros Hnd acc monitors.
  - cbn. split; [now rewrite app_nil_r | reflexivity].
  - apply NoDup_cons in Hnd. destruct Hnd as [Ha Hnd].
    cbn [fold_left fst snd].
    destruct (IH Hnd (acc ++ [monitors !! a])%list (delete a monitors)) as [H1 H2].
    cbv zeta in H1, H2. split.
    + rewrite H1, <- app_assoc. cbn [app map]. do 2 f_equal.
      apply map_ext_in. intros g Hg. apply lookup_delete_ne.
      intros ->. apply Ha, list_elem_of_In, Hg.
    + intros g. rewrite H2.
      destruct (bool_decide_reflect (g ∈ gvrs)) as [Hin|Hin].
      * now rewrite bool_decide_eq_true_2 by (now right).
      * destruct (decide (g = a)) as [->|Hne].
        -- rewrite bool_decide_eq_true_2 by left. apply lookup_delete_eq.
        -- rewrite bool_decide_eq_false_2.
           ++ now apply lookup_delete_ne.
           ++ intros H. apply elem_of_cons in H. destruct H; contradiction.
Qed.

Lemma not_elem_of_nil_iff {A : Type} (l : list A) : (forall x, x ∉ l) -> l = [].
Proof.
  destruct l as [|x l]; [reflexivity|]. intros H. destruct (H x). left.
Qed.

(** X21.  One reconcile step ([resyncMonitors], with [compareMonitors],
    [addMonitors] and [drainMonitors]) against the types discovery
    expects.  A monitor that runs for a type discovery still lists is
    kept as it is (even if the type would not be chosen now); a type
    without a monitor gets one exactly when it is listed and
    [shouldMonitorType] accepts it; a monitor of a type that is no
    longer listed is taken out of the map and closed.  [close] is never
    called on a nil monitor, and a second step against the same
    expectation starts and closes nothing. *)
Theorem resyncMonitors_reconciles
    (c : diffcontroller.controller)
    (filter_TestGvr : util.GroupVersionResource -> bool)
    (expected : gmap util.GroupVersionResource diffcontroller.APIResource)
    (monitors : gmap util.GroupVersionResource diffcontroller.monitor) :
  exists r,
    diffcontroller.resyncMonitors c filter_TestGvr (Ok expected) monitors = Ok r
    /\ (forall gvr m,
          monitors !! gvr = Some m -> is_Some (expected !! gvr) ->
          diffcontroller.running r !! gvr = Some m)
    /\ (forall gvr,
          monitors !! gvr = None ->
          diffcontroller.running r !! gvr =
          match expected !! gvr with
          | Some apiResource =>
              if diffcontroller.shouldMonitorType filter_TestGvr gvr apiResource
              then Some {| diffcontroller.ctrl := c; diffcontroller.gvr := gvr |}
              else None
          | None => None
          end)
    /\ (forall gvr, expected !! gvr = None -> diffcontroller.running r !! gvr = None)
    /\ (forall m,
          In m (diffcontroller.started r) <->
          exists gvr apiResource,
            expected !! gvr = Some apiResource
            /\ diffcontroller.shouldMonitorType filter_TestGvr gvr apiResource = true
            /\ monitors !! gvr = None
            /\ m = {| diffcontroller.ctrl := c; diffcontroller.gvr := gvr |})
    /\ (forall closed,
          In closed (diffcontroller.closed r) <->
          exists gvr m,
            closed = Some m /\ monitors !! gvr = Some m /\ expected !! gvr = None)
    /\ diffcontroller.resyncMonitors c filter_TestGvr (Ok expected)
         (diffcontroller.running r) =
       Ok {| diffcontroller.running := diffcontroller.running r;
             diffcontroller.started := [];
             diffcontroller.closed := [] |}.
Proof.
  unfold diffcontroller.resyncMonitors.
  pose proof (compareMonitors_spec filter_TestGvr monitors expected) as Hspec.
  destruct (diffcontroller.compareMonitors filter_TestGvr monitors expected)
    as [toStart toStop].
  cbn [fst snd] in Hspec. destruct Hspec as (Hstart & Hstop & HndStart & HndStop).
  set (mk := fun gvr => diffcontroller.startMonitor c gvr (expected !! gvr)).
  pose proof (addMonitors_lookup mk toStart (fun g => eq_refl) monitors) as Hadd.
  unfold diffcontroller.drainMonitors.
  pose proof (drainMonitors_fold toStop HndStop []
                (diffcontroller.addMonitors (mk <$> toStart) monitors)) as Hdrain.
  destruct (fold_left _ toStop _) as [oldMonitors run].
  cbn [fst snd app] in Hdrain. destruct Hdrain as [Hold Hrun].
  assert (Hlookup : forall g,
            run !! g = if bool_decide (g ∈ toStop) then None
                       else if bool_decide (g ∈ toStart) then Some (mk g)
                            else monitors !! g).
  { intros g. now rewrite Hrun, Hadd. }
  clear Hrun Hadd.
  eexists. split; [reflexivity|].
  cbn [diffcontroller.running diffcontroller.started diffcontroller.closed].
  split; [|split; [|split; [|split; [|split]]]].
  - intros gvr m Hm [api He]. rewrite Hlookup.
    rewrite bool_decide_eq_false_2
      by (rewrite Hstop; intros [_ H]; congruence).
    rewrite bool_decide_eq_false_2; [exact Hm|].
    rewrite Hstart. intros (api' & _ & _ & H). rewrite Hm in H. discriminate H.
  - intros gvr Hm. rewrite Hlookup.
    rewrite bool_decide_eq_false_2
      by (rewrite Hstop; intros [[m H] _]; congruence).
    destruct (expected !! gvr) as [api|] eqn:He.
    + destruct (diffcontroller.shouldMonitorType filter_TestGvr gvr api) eqn:Hs.
      * rewrite bool_decide_eq_true_2 by (rewrite Hstart; eauto). reflexivity.
      * rewrite bool_decide_eq_false_2; [exact Hm|].
        rewrite Hstart. intros (api' & He' & Hs' & _). congruence.
    + rewrite bool_decide_eq_false_2; [exact Hm|].
      rewrite Hstart. intros (api' & He' & _). congruence.
  - intros gvr He. rewrite Hlookup.
    destruct (monitors !! gvr) as [m|] eqn:Hm.
    + rewrite bool_decide_eq_true_2 by (rewrite Hstop; eauto). reflexivity.
    + rewrite bool_decide_eq_false_2
        by (rewrite Hstop; intros [[m H] _]; congruence).
      rewrite bool_decide_eq_false_2; [reflexivity|].
      rewrite Hstart. intros (api' & He' & _). congruence.
  - intros m. rewrite in_map_iff. split.
    + intros (gvr & <- & Hin). apply list_elem_of_In, Hstart in Hin.
      destruct Hin as (api & He & Hs & Hm). exists gvr, api. repeat split; assumption.
    + intros (gvr & api & He & Hs & Hm & ->). exists gvr. split; [reflexivity|].
      apply list_elem_of_In, Hstart. eauto.
  - intros closed. rewrite Hold, in_map_iff. split.
    + intros (gvr & <- & Hin). apply list_elem_of_In in Hin.
      pose proof Hin as Hin'. apply Hstop in Hin'. destruct Hin' as [[m Hm] He].
      exists gvr, m. rewrite addMonitors_lookup by reflexivity.
      rewrite bool_decide_eq_false_2; [repeat split; assumption|].
      rewrite Hstart. intros (api' & He' & _). congruence.
    + intros (gvr & m & -> & Hm & He). exists gvr.
      assert (Hin : gvr ∈ toStop) by (apply Hstop; eauto).
      split; [|now apply list_elem_of_In].
      rewrite addMonitors_lookup by reflexivity.
      rewrite bool_decide_eq_false_2; [exact Hm|].
      rewrite Hstart. intros (api' & He' & _). congruence.
  - pose proof (compareMonitors_spec filter_TestGvr run expected) as Hspec'.
    destruct (diffcontroller.compareMonitors filter_TestGvr run expected)
      as [toStart' toStop'].
    cbn [fst snd] in Hspec'. destruct Hspec' as (Hstart' & Hstop' & _ & _).
    assert (E1 : toStart' = []).
    { apply not_elem_of_nil_iff. intros g Hg. apply Hstart' in Hg.
      destruct Hg as (api & He & Hs & Hr). rewrite Hlookup in Hr.
      rewrite bool_decide_eq_false_2 in Hr
        by (rewrite Hstop; intros [_ H]; congruence).
      destruct (monitors !! g) as [m|] eqn:Hm.
      - destruct (bool_decide (g ∈ toStart)); discriminate Hr.
      - rewrite bool_decide_eq_true_2 in Hr by (rewrite Hstart; eauto). discriminate Hr. }
    assert (E2 : toStop' = []).
    { apply not_elem_of_nil_iff. intros g Hg. apply Hstop' in Hg.
      destruct Hg as [[m Hr] He]. rewrite Hlookup in Hr.
      destruct (bool_decide_reflect (g ∈ toStop)) as [Hs|Hs]; [discriminate Hr|].
      destruct (bool_decide_reflect (g ∈ toStart)) as [Hin|Hin].
      - apply Hstart in Hin. destruct Hin as (api & He' & _). congruence.
      - apply Hs, Hstop. split; [eauto | exact He]. }
    subst toStart' toStop'. reflexivity.
Qed.

(** ** The diff controller: snapshots at deletion *)

(** X22.  [onUpdate] writes nothing when the two objects have the same
    resource version.  Otherwise it stores one patch for the new
    object, and before it, exactly when the deletion timestamp appears
    with this update (absent on the old object, set on the new one), a
    snapshot named "deletion" of the new object.  The snapshot carries
    the resource version of the new object and its redaction flag, and
    it is stored also when the object is redacted or cannot be
    marshalled (its value is nil then). *)
Theorem onUpdate_snapshots_a_deletion
    (m : diffcontroller.monitor) (oldObj newObj : unstructured.Unstructured) :
  let writes := diffcontroller.onUpdate m oldObj newObj in
  let object :=
    util.ObjectRefFromUnstructured newObj
      (diffcontroller.clusterName (diffcontroller.ctrl m)) (diffcontroller.gvr m) in
  let deleting :=
    unstructured.IsZero (unstructured.GetDeletionTimestamp oldObj)
    && negb (unstructured.IsZero (unstructured.GetDeletionTimestamp newObj)) in
  (unstructured.GetResourceVersion oldObj = unstructured.GetResourceVersion newObj ->
   writes = [])
  /\ (unstructured.GetResourceVersion oldObj <> unstructured.GetResourceVersion newObj ->
      exists patch,
        diffcache.InformerTime patch = diffcontroller.clock_Now (diffcontroller.ctrl m)
        /\ diffcache.OldResourceVersion patch = unstructured.GetResourceVersion oldObj
        /\ diffcache.NewResourceVersion patch = unstructured.GetResourceVersion newObj
        /\ writes =
             ((if deleting then
                 [diffcontroller.StoreSnapshot object "deletion"
                    {| diffcache.ResourceVersion := unstructured.GetResourceVersion newObj;
                       diffcache.SnapRedacted := diffcontroller.testRedacted m newObj;
                       diffcache.Value :=
                         match diffcontroller.json_Marshal (diffcontroller.ctrl m) newObj with
                         | Ok raw => Some raw
                         | Err _ => None
                         end |}]
               else [])
              ++ [diffcontroller.Store object patch])%list).
Proof.
  intros writes object deleting. subst writes object deleting.
  unfold diffcontroller.onUpdate. split.
  - intros ->. now rewrite String.eqb_refl.
  - intros Hne.
    destruct (String.eqb_spec (unstructured.GetResourceVersion oldObj)
                (unstructured.GetResourceVersion newObj)) as [E|_]; [contradiction|].
    eexists. split; [|split; [|split]]; [| | |reflexivity]; reflexivity.
Qed.


(** ** The event informer: which events move the watermark *)

(** The outcomes of [handleEvent] that send nothing. *)
Ltac handleEvent_drops Hmetric :=
  cbn [eventinformer.enqueued eventinformer.sends eventinformer.metric];
  split; [reflexivity|];
  split; [first [reflexivity | discriminate]|];
  split; [now left | apply Hmetric].

(** X23.  An event moves the persisted watermark exactly when the
    controller is the leader, a timestamp can be inferred (the event
    time, or else the last timestamp), the timestamp is not before the
    watermark loaded at start-up and not more than five minutes old.
    The updater is then enqueued before the filter and the discovery
    cache are consulted, so an event that is filtered out or whose kind
    is unknown still moves the watermark.  An event is sent to the
    aggregator at most once and only after its updater was enqueued;
    it carries the inferred timestamp and names the involved object in
    the target cluster.  A controller that is not the leader counts no
    metric. *)
Theorem handleEvent_moves_the_watermark
    (c : eventinformer.controller) (ev : eventinformer.Event) :
  let h := eventinformer.handleEvent c ev in
  let eventTime :=
    if time.IsZero (eventinformer.EventTime ev) then eventinformer.LastTimestamp ev
    else eventinformer.EventTime ev in
  let accepted :=
    negb (eventinformer.isLeader c =? 0)
    && negb (time.IsZero eventTime)
    && negb (time.Before eventTime (eventinformer.lastEventTime c))
    && negb (time.Minute * 5 <? time.Sub (eventinformer.clock_Now c) eventTime) in
  eventinformer.enqueued h =
    (if accepted then [eventinformer.updater eventTime] else [])
  /\ (accepted = false -> eventinformer.sends h = [])
  /\ (eventinformer.sends h = []
      \/ exists object e gvr,
           eventinformer.sends h = [(object, e)]
           /\ eventinformer.filter_TestGvk c (eventinformer.clusterName c)
                (eventinformer.GroupVersionKind (eventinformer.InvolvedObject ev)) = true
           /\ event.Time e = eventTime
           /\ event.Title e = eventinformer.Reason ev
           /\ event.Logs e = [(zconstants.LogTypeEventMessage, eventinformer.Message ev)]
           /\ util.Cluster object = eventinformer.clusterName c
           /\ util.Gvr object = gvr
           /\ util.Namespace object =
                eventinformer.Namespace (eventinformer.InvolvedObject ev)
           /\ util.Name object = eventinformer.Name (eventinformer.InvolvedObject ev)
           /\ util.Uid object = eventinformer.UID (eventinformer.InvolvedObject ev))
  /\ (eventinformer.metric h = None <-> eventinformer.isLeader c = 0).
Proof.
  intros h eventTime accepted. subst h accepted. unfold eventinformer.handleEvent.
  destruct (Z.eqb_spec (eventinformer.isLeader c) 0) as [Hl|Hl]; cbn [negb andb].
  { split; [reflexivity|]. split; [reflexivity|]. split; [now left|].
    split; [intros _; exact Hl | reflexivity]. }
  assert (Hmetric : forall m : eventinformer.eventHandleMetric,
            Some m = None <-> eventinformer.isLeader c = 0).
  { intros m. split; [discriminate | contradiction]. }
  replace (if time.IsZero (eventinformer.EventTime ev)
           then (eventinformer.LastTimestamp ev, "LastTimestamp")
           else (eventinformer.EventTime ev, "EventTime"))
    with (eventTime, if time.IsZero (eventinformer.EventTime ev)
                     then "LastTimestamp" else "EventTime")
    by (subst eventTime; now destruct (time.IsZero (eventinformer.EventTime ev))).
  destruct (time.IsZero eventTime); cbn [negb andb]; [handleEvent_drops Hmetric|].
  destruct (time.Before eventTime (eventinformer.lastEventTime c)); cbn [negb andb];
    [handleEvent_drops Hmetric|].
  destruct (time.Minute * 5 <? time.Sub (eventinformer.clock_Now c) eventTime);
    cbn [negb andb]; [handleEvent_drops Hmetric|].
  destruct (eventinformer.filter_TestGvk c _ _) eqn:Hfilter; cbn [negb];
    [|handleEvent_drops Hmetric].
  destruct (eventinformer.discovery_ForCluster c _) as [cdc|e];
    [|handleEvent_drops Hmetric].
  destruct (cdc _) as [gvr|]; [|handleEvent_drops Hmetric].
  destruct (eventinformer.aggregator_Send c _ _);
    cbn [eventinformer.enqueued eventinformer.sends eventinformer.metric];
    (split; [reflexivity|]); (split; [discriminate|]);
    (split; [|apply Hmetric]);
    right; do 2 eexists; exists gvr; repeat split; reflexivity.
Qed.

(** X24.  A ConfigMap without a data map.  Its stored timestamp reads
    as the empty string, which is no RFC 3339 time: the watermark
    loaded at start-up is the current time, and every updater, whatever
    the time of its event, assigns to the nil map and panics, which
    ends the loop that applies the updaters. *)
Theorem updater_panics_without_data
    (cm : eventinformer.ConfigMap) (eventTime now : time.Time)
    (rest : list (eventinformer.ConfigMap -> option eventinformer.ConfigMap)) :
  eventinformer.Data cm = None ->
  eventinformer.startEventTime cm now = now
  /\ eventinformer.updater eventTime cm = None
  /\ eventinformer.applyUpdaters (eventinformer.updater eventTime :: rest) cm = None.
Proof.
  intros Hnil.
  assert (Hget : eventinformer.get cm eventinformer.configMapLastEventKey = "").
  { unfold eventinformer.get. now rewrite Hnil. }
  assert (Hu : eventinformer.updater eventTime cm = None).
  { unfold eventinformer.updater. rewrite Hget.
    change (time.Parse_RFC3339 "") with (@None time.Time).
    unfold eventinformer.set. now rewrite Hnil. }
  split; [|split].
  - unfold eventinformer.startEventTime. rewrite Hget. reflexivity.
  - exact Hu.
  - cbn [eventinformer.applyUpdaters]. now rewrite Hu.
Qed.

Lemma updater_panics_without_data_witness :
  eventinformer.startEventTime {| eventinformer.Data := None |} sample.twelveOhThree
    = sample.twelveOhThree
  /\ eventinformer.updater sample.halfPastOneSecond {| eventinformer.Data := None |} = None
  /\ eventinformer.applyUpdaters [eventinformer.updater sample.halfPastOneSecond]
       {| eventinformer.Data := None |} = None.
Proof.
  apply (updater_panics_without_data {| eventinformer.Data := None |}
           sample.halfPastOneSecond sample.twelveOhThree []).
  reflexivity.
Defined.


(** ** The annotation linker *)

(** X25.  [Lookup] asks the object cache only when the object
    reference carries no raw object, and then once, for that
    reference.  It finds a parent exactly when a raw object is at hand
    (attached, or returned by the cache), that object has the link
    annotation (all its annotations being strings), and the annotation
    decodes.  The parent is the decoded link, in the cluster of the
    child when the link names none, and it carries no raw object; a
    cache error, a missing object, a missing annotation and an
    annotation that does not decode all give nil. *)
Theorem Lookup_follows_the_link_annotation
    (c : annotationlinker.controller) (object : util.ObjectRef) :
  let l := annotationlinker.Lookup c object in
  annotationlinker.fetched l =
    match util.Raw object with Some _ => [] | None => [object] end
  /\ forall parent,
       annotationlinker.parent l = Some parent <->
       exists raw ann ref,
         (util.Raw object = Some raw
          \/ util.Raw object = None
             /\ annotationlinker.objectCache_Get c object = Ok (Some raw))
         /\ unstructured.GetAnnotations raw !! annotationlinker.LinkAnnotation c = Some ann
         /\ annotationlinker.Unmarshal_ParentLink c ann = Ok ref
         /\ parent =
              {| util.Cluster :=
                   if String.eqb (annotationlinker.Cluster ref) ""
                   then util.Cluster object else annotationlinker.Cluster ref;
                 util.Gvr := annotationlinker.GroupVersionResource ref;
                 util.Namespace := annotationlinker.Namespace ref;
                 util.Name := annotationlinker.Name ref;
                 util.Uid := annotationlinker.Uid ref;
                 util.Raw := None |}.
Proof.
  intros l. subst l. unfold annotationlinker.Lookup.
  assert (Hresolve : forall raw parent,
    match unstructured.GetAnnotations raw !! annotationlinker.LinkAnnotation c with
    | Some ann =>
        match annotationlinker.Unmarshal_ParentLink c ann with
        | Err _ => None
        | Ok ref =>
            Some {| util.Cluster :=
                      if String.eqb (annotationlinker.Cluster ref) ""
                      then util.Cluster object else annotationlinker.Cluster ref;
                    util.Gvr :=
                      {| util.Group := util.Group (annotationlinker.GroupVersionResource ref);
                         util.Version :=
                           util.Version (annotationlinker.GroupVersionResource ref);
                         util.Resource :=
                           util.Resource (annotationlinker.GroupVersionResource ref) |};
                    util.Namespace := annotationlinker.Namespace ref;
                    util.Name := annotationlinker.Name ref;
                    util.Uid := annotationlinker.Uid ref;
                    util.Raw := None |}
        end
    | None => None
    end = Some parent <->
    exists ann ref,
      unstructured.GetAnnotations raw !! annotationlinker.LinkAnnotation c = Some ann
      /\ annotationlinker.Unmarshal_ParentLink c ann = Ok ref
      /\ parent =
           {| util.Cluster :=
                if String.eqb (annotationlinker.Cluster ref) ""
                then util.Cluster object else annotationlinker.Cluster ref;
              util.Gvr := annotationlinker.GroupVersionResource ref;
              util.Namespace := annotationlinker.Namespace ref;
              util.Name := annotationlinker.Name ref;
              util.Uid := annotationlinker.Uid ref;
              util.Raw := None |}).
  { intros raw parent.
    destruct (unstructured.GetAnnotations raw !! annotationlinker.LinkAnnotation c)
      as [ann|].
    - destruct (annotationlinker.Unmarshal_ParentLink c ann) as [ref|e] eqn:Hu.
      + split.
        * intros H. injection H as <-. exists ann, ref.
          split; [reflexivity|]. split; [exact Hu|].
          now destruct (annotationlinker.GroupVersionResource ref).
        * intros (ann' & ref' & Ha & Hr & ->). injection Ha as <-.
          rewrite Hu in Hr. injection Hr as <-.
          now destruct (annotationlinker.GroupVersionResource ref).
      + split; [discriminate|].
        intros (ann' & ref' & Ha & Hr & _). injection Ha as <-. congruence.
    - split; [discriminate | intros (ann' & ref' & Ha & _); discriminate Ha]. }
  destruct (util.Raw object) as [raw|].
  - cbn [annotationlinker.fetched annotationlinker.parent]. split; [reflexivity|].
    intros parent. rewrite Hresolve. split.
    + intros (ann & ref & H). exists raw, ann, ref. split; [now left | exact H].
    + intros (raw' & ann & ref & [Hraw | [Hraw _]] & H); [|discriminate Hraw].
      injection Hraw as <-. eauto.
  - destruct (annotationlinker.objectCache_Get c object) as [[raw|]|e];
      cbn [annotationlinker.fetched annotationlinker.parent]; (split; [reflexivity|]);
      intros parent.
    + rewrite Hresolve. split.
      * intros (ann & ref & H). exists raw, ann, ref. split; [right; now split | exact H].
      * intros (raw' & ann & ref & [Hraw | [_ Hraw]] & H); [discriminate Hraw|].
        injection Hraw as <-. eauto.
    + split; [discriminate|].
      intros (raw' & ann & ref & [Hraw | [_ Hraw]] & _); discriminate.
    + split; [discriminate|].
      intros (raw' & ann & ref & [Hraw | [_ Hraw]] & _); discriminate.
Qed.
